(** * The [constraints] Prolog module of the constraints plugin

    A shallow embedding of [plugin-constraints/sources/tauModule.ts] and of
    its helper file [util.ts], together with a model of the resolution
    engine that drives the native predicates, and the properties of the
    predicates that the specification states. *)

From stdpp Require Import gmap strings list fin_maps pretty.
From Stdlib Require Import ZArith Lia.

Set Warnings "-register-all".

Open Scope string_scope.

(** ** Terms

    The terms and the engine are those of the tau-prolog library, which is
    not among the sources: they are modelled from the specification and
    from what the sources call. *)

(** Modelled from the spec: a term (section 3: atom, number, variable,
    structure with functor and ordered arguments), the library's
    [pl.type.Value].  An atom is a [Term] without arguments. *)
Inductive Value : Type :=
  | Var (id : string)
  | Num (value : Z)
  | Term (id : string) (args : list Value).

(** Modelled from the spec: [pl.type.is_atom], the test for a bound atom. *)
Definition isAtom (obj : Value) : bool :=
  match obj with
  | Term _ [] => true
  | _ => false
  end.

(** Modelled from the spec: [pl.type.is_variable], the test for a free
    variable. *)
Definition isVariable (obj : Value) : bool :=
  match obj with
  | Var _ => true
  | _ => false
  end.

(** Modelled from the spec: [pl.type.is_instantiated_list], the test for
    an instantiated list; the spine is made of [./2] cells and ends in the
    atom [[]]. *)
Fixpoint isInstantiatedList (obj : Value) : bool :=
  match obj with
  | Term f [] => String.eqb f "[]"
  | Term f [_; tl] => String.eqb f "." && isInstantiatedList tl
  | _ => false
  end.

(** Modelled from the spec: the predicate indicator (section 3: name and
    arity) of a term. *)
Definition indicator (t : Value) : string * nat :=
  match t with
  | Term f args => (f, length args)
  | Var x => (x, 0)
  | Num _ => ("", 0)
  end.

(** Modelled from the spec: a conjunction is a binary structure with the
    comma as functor (section 3). *)
Definition is_conj (t : Value) : bool :=
  match t with
  | Term f [_; _] => String.eqb f ","
  | _ => false
  end.

(** Modelled from the spec: [Term.prototype.select], the next goal to
    solve, which is the leftmost goal of a conjunction. *)
Fixpoint select (t : Value) : Value :=
  match t with
  | Term f [a; b] => if String.eqb f "," then select a else t
  | _ => t
  end.

(** Modelled from the spec: [Term.prototype.replace], which [prependGoals]
    calls; it puts [expr] in the place of the selected goal, so that [expr]
    is followed by the caller's continuation (section 4.3); [None] is the
    source's [null], which removes the goal. *)
Fixpoint replace (t : Value) (expr : option Value) : option Value :=
  match t with
  | Term f [a; b] =>
      if String.eqb f "," then
        if is_conj a then
          match replace a expr with
          | Some a' => Some (Term "," [a'; b])
          | None => Some b
          end
        else
          match expr with
          | Some e => Some (Term "," [e; b])
          | None => Some b
          end
      else expr
  | _ => expr
  end.

(** Modelled from the spec: the variables of a term, in their order. *)
Fixpoint variables (t : Value) : list string :=
  match t with
  | Var x => [x]
  | Num _ => []
  | Term _ args => concat (map variables args)
  end.

(** The number of nodes of a term; it bounds the work of a unification in
    the model. *)
Fixpoint term_size (t : Value) : nat :=
  match t with
  | Term _ args => S (list_sum (map term_size args))
  | _ => 1
  end.

(** ** Substitutions *)

(** Modelled from the spec: the application of a substitution (section 3:
    a mapping from variable to term), the library's [links] object, to a
    term. *)
Fixpoint apply (subs : gmap string Value) (t : Value) : Value :=
  match t with
  | Var x => default (Var x) (subs !! x)
  | Num n => Num n
  | Term f args => Term f (map (apply subs) args)
  end.

(** Modelled from the spec: [Substitution.prototype.apply], which applies
    [subs] to every bound value. *)
Definition subst_apply (links subs : gmap string Value) : gmap string Value :=
  apply subs <$> links.

(** ** [util.ts] *)

Module DependencyType.
Definition Dependencies : string := "dependencies".
Definition DevDependencies : string := "devDependencies".
Definition PeerDependencies : string := "peerDependencies".
End DependencyType.

Definition variable (id : string) : Value := Var id.

Definition term (id : string) (args : list Value) : Value := Term id args.

Fixpoint and (first second : Value) (rest : list Value) : Value :=
  let result := term "," [first; second] in
  match rest with
  | [] => result
  | r :: rest' => and result r rest'
  end.

Record Rule : Type := mkRule { head : Value; body : option Value }.

Definition rule (head : Value) (body : option Value) : Rule := mkRule head body.

(** [termEquals]: the right-hand side is a value or a string, and a string
    becomes an atom. *)
Definition termEquals (lhs : Value) (rhs : Value + string) : Value :=
  let rhs :=
    match rhs with
    | inl v => v
    | inr s => term s []
    end in
  term "=" [lhs; rhs].

(** ** Search states and threads *)

(** Modelled from the spec: [pl.type.State], a node of the search (section
    3: goal stack and substitution): the goal still to prove ([None] once
    nothing is left) and the substitution built so far.  The [parent] link
    that [prependGoals] passes serves tracing only and is not part of the
    model. *)
Record State : Type := mkState {
  goal : option Value;
  substitution : gmap string Value;
}.

(** Modelled from the spec: [pl.type.Session] (section 3: an opaque
    identity).  [modules] are the libraries it has consulted. *)
Record Session : Type := mkSession {
  sid : nat;
  modules : list string;
}.

(** Modelled from the spec: [pl.type.Thread], with the stack of choice
    points (section 3), its top first. *)
Record Thread : Type := mkThread {
  session : Session;
  points : list State;
}.

(** Modelled from the spec: [thread.prepend], the branching of section
    4.3; the new states are tried first, in their order. *)
Definition prepend (thread : Thread) (states : list State) : Thread :=
  mkThread (session thread) (states ++ points thread).

(** [point.goal.replace(expr)]. *)
Definition point_replace (point : State) (expr : option Value) : option Value :=
  match goal point with
  | Some g => replace g expr
  | None => expr
  end.

Definition prependGoals (thread : Thread) (point : State) (goals : list Value) : Thread :=
  prepend thread
    (map (fun goal => mkState (point_replace point (Some goal)) (substitution point)) goals).

(** ** Unification *)

(** The outcome of a unification: a most general unifier, a mismatch, or no
    end within the fuel of the model (there is no occurs-check). *)
Inductive UnifyResult : Type :=
  | Unified (mgu : gmap string Value)
  | Mismatch
  | UnifyDiverges.

Definition same_var (x : string) (t : Value) : bool :=
  match t with
  | Var y => String.eqb x y
  | _ => false
  end.

Definition apply_eq (subs : gmap string Value) (eq : Value * Value) : Value * Value :=
  (apply subs eq.1, apply subs eq.2).

(** Modelled from the spec: the engine's [unify] (section 4.1: atoms and
    numbers unify iff equal by value, an unbound variable unifies with
    anything, structures unify iff same functor and arity and all arguments
    unify, no occurs-check), as a work-list algorithm with [G] the
    equations still to solve and [links] the bindings found. *)
Fixpoint unify_loop (fuel : nat) (G : list (Value * Value)) (links : gmap string Value)
  : UnifyResult :=
  match G with
  | [] => Unified links
  | (s, t) :: G' =>
      match fuel with
      | O => UnifyDiverges
      | S fuel' =>
          match s, t with
          | Term f args, Term f' args' =>
              if bool_decide (indicator s = indicator t)
              then unify_loop fuel' (rev (zip args args') ++ G') links
              else Mismatch
          | Num n, Num n' =>
              if bool_decide (n = n') then unify_loop fuel' G' links else Mismatch
          | Var x, _ =>
              if same_var x t then unify_loop fuel' G' links
              else
                let subs : gmap string Value := {[ x := t ]} in
                unify_loop fuel' (map (apply_eq subs) G') (<[ x := t ]> (apply subs <$> links))
          | _, Var y => unify_loop fuel' ((t, s) :: G') links
          | _, _ => Mismatch
          end
      end
  end.

(** Modelled from the spec: [unify] of two terms (section 4.1). *)
Definition unify (s t : Value) : UnifyResult :=
  unify_loop (S (term_size s + term_size t)) [(s, t)] ∅.

(** ** Renaming of rules *)

Definition max_length (names : list string) : nat :=
  foldr (fun x m => Nat.max (String.length x) m) 0 names.

Fixpoint underscores (n : nat) : string :=
  match n with
  | O => ""
  | S n' => "_" +:+ underscores n'
  end.

(** Modelled from the spec: a fresh variable name (section 3: variable ids
    are unique within a session).  It is longer than every name in use, so
    it differs from all of them. *)
Definition fresh_name (avoid : list string) : string :=
  "_" +:+ underscores (max_length avoid).

Fixpoint fresh_renaming (vars avoid : list string) : gmap string Value :=
  match vars with
  | [] => ∅
  | x :: vars' =>
      let x' := fresh_name avoid in
      <[ x := Var x' ]> (fresh_renaming vars' (x' :: avoid))
  end.

Definition rule_variables (r : Rule) : list string :=
  variables (head r) ++ from_option variables [] (body r).

(** Modelled from the spec: a rule "with freshly renamed variables"
    (section 4.2). *)
Definition rename (avoid : list string) (r : Rule) : Rule :=
  let ren := fresh_renaming (rule_variables r) avoid in
  mkRule (apply ren (head r)) (apply ren <$> body r).

(** The names a state uses: those of its goal and of its bound values. *)
Definition state_variables (point : State) : list string :=
  from_option variables [] (goal point)
  ++ concat (map (fun kv => variables kv.2) (map_to_list (substitution point))).

(** ** The project, as the predicates see it

    Modelled from the spec: the project snapshot (section 6: ordered
    workspace enumeration, lookup by path, one-to-many lookup by identifier,
    and per workspace the raw descriptor and the three typed dependency
    maps; section 3: relative path, canonical identifier, raw manifest
    fields, three dependency partitions).  The classes [Project],
    [Workspace] and [Manifest] belong to the core package, which is not
    among the sources; the model has the members that the predicates
    use. *)

Inductive Json : Type :=
  | JNull
  | JBool (b : bool)
  | JNumber (n : Z)
  | JString (s : string)
  | JArray (items : list Json)
  | JObject (fields : list (string * Json))
  | JFunction (name : string).

(** Modelled from the spec: a canonical identifier (section 3), the core's
    [Ident]; a locator and a descriptor are identifiers with a reference
    and with a version range. *)
Record Ident : Type := mkIdent {
  identHash : string;
  scope : option string;
  name : string;
}.

Record Locator : Type := mkLocator {
  locator_ident : Ident;
  reference : string;
}.

Record Descriptor : Type := mkDescriptor {
  descriptor_ident : Ident;
  range : string;
}.

(** Modelled from the spec: a dependency partition (section 3: identifier
    to identifier and version range), a [Map] from identifier hash to
    descriptor, in insertion order. *)
Definition DependencyMap : Type := list (string * Descriptor).

Definition map_get (m : DependencyMap) (key : string) : option Descriptor :=
  snd <$> List.find (fun kv => String.eqb kv.1 key) m.

Definition map_values (m : DependencyMap) : list Descriptor := map snd m.

(** Modelled from the spec: the core's [Manifest] (section 3: raw manifest
    fields, three dependency partitions).  [otherProperties] are the names
    of its properties that are not dependency partitions. *)
Record Manifest : Type := mkManifest {
  raw : Json;
  dependencies : DependencyMap;
  devDependencies : DependencyMap;
  peerDependencies : DependencyMap;
  otherProperties : list string;
}.

Inductive ManifestProperty : Type :=
  | Partition (m : DependencyMap)
  | Undefined
  | NotAMap.

(** [manifest[key]]. *)
Definition manifest_index (m : Manifest) (key : string) : ManifestProperty :=
  if String.eqb key DependencyType.Dependencies then Partition (dependencies m)
  else if String.eqb key DependencyType.DevDependencies then Partition (devDependencies m)
  else if String.eqb key DependencyType.PeerDependencies then Partition (peerDependencies m)
  else if existsb (String.eqb key) (otherProperties m) then NotAMap
  else Undefined.

(** Modelled from the spec: the workspace record (section 3: relative path,
    canonical identifier, manifest). *)
Record Workspace : Type := mkWorkspace {
  relativeCwd : string;
  locator : Locator;
  manifest : Manifest;
}.

(** Modelled from the spec: the project snapshot (section 6: ordered
    workspace enumeration, lookup by path, one-to-many lookup by
    identifier). *)
Record Project : Type := mkProject {
  workspaces : list Workspace;
  tryWorkspaceByCwd : string -> option Workspace;
  workspacesByIdent : gmap string (list Workspace);
}.

(** ** Exceptions of the host language *)

Inductive JsError : Type :=
  | Error (message : string)
  | TypeError (message : string)
  | EvalError (message : string).

Inductive Result (A : Type) : Type :=
  | Ok (a : A)
  | Throw (e : JsError).

Arguments Ok {A} a.
Arguments Throw {A} e.

Definition bind {A B : Type} (r : Result A) (k : A -> Result B) : Result B :=
  match r with
  | Ok a => k a
  | Throw e => Throw e
  end.

Notation "'let*' x ':=' r 'in' k" := (bind r (fun x => k))
  (at level 10, x name, r at level 100, k at level 200).

(** Modelled from the spec: [project.getWorkspaceByCwd], the lookup by path
    that does not return without a workspace (the helper asserts its result
    non-null); it throws when nothing is found. *)
Definition getWorkspaceByCwd (project : Project) (workspaceCwd : string) : Result Workspace :=
  match tryWorkspaceByCwd project workspaceCwd with
  | Some workspace => Ok workspace
  | None => Throw (Error "Workspace not found")
  end.

(** ** Functions of other packages

    What the predicates call in [structUtils], [lodash/get], the [vm]
    module and the host language is taken as given. *)

Class Host : Type := {
  (** [structUtils.stringifyIdent]. *)
  stringifyIdent : Ident -> string;
  (** [structUtils.parseIdent], which throws on a string that is no
      identifier. *)
  parseIdent : string -> Result Ident;
  (** [getPath(object, path)]: [None] is [undefined]. *)
  getPath : Json -> string -> option Json;
  (** [String(value)]. *)
  toString : Json -> string;
  (** [checkArgv.toJavaScript()]: [None] is [undefined]. *)
  toJavaScript : Value -> option (list Json);
  (** [vm.runInNewContext(code, sandbox)]. *)
  runInNewContext : string -> list (string * Json) -> Result Json;
}.

(** The truth value the host language gives to the result of a check. *)
Definition truthy (v : Json) : bool :=
  match v with
  | JNull => false
  | JBool b => b
  | JNumber n => negb (Z.eqb n 0)
  | JString s => negb (String.eqb s "")
  | JArray _ => true
  | JObject _ => true
  | JFunction _ => true
  end.

(** ** [tauModule.ts]: the session registry *)

(** [projects], the table from sessions to projects.  A session is a key by
    its identity. *)
Definition assertion_failed : JsError :=
  Error "Assertion failed: A project should have been registered for the active session".

Definition getProject (projects : gmap nat Project) (thread : Thread) : Result Project :=
  match projects !! sid (session thread) with
  | Some project => Ok project
  | None => Throw assertion_failed
  end.

(** ** What a native predicate does to the thread *)

(** Modelled from the spec: [thread.success(point)], a deterministic
    success (section 4.3); the point goes on without the solved goal. *)
Definition success (thread : Thread) (point : State) : Thread :=
  prepend thread [mkState (point_replace point None) (substitution point)].

(** The term [name/arity] of an indicator. *)
Definition str_indicator (ind : string * nat) : Value :=
  Term "/" [Term ind.1 []; Num (Z.of_nat ind.2)].

(** Modelled from the spec: [pl.error.instantiation(indicator)], the
    instantiation error (section 7). *)
Definition instantiation (ind : string * nat) : Value :=
  Term "error" [Term "instantiation_error" []; str_indicator ind].

(** Modelled from the spec: the error of the engine for a predicate that
    no loaded module defines. *)
Definition existence (ind : string * nat) : Value :=
  Term "error" [Term "existence_error" [Term "procedure" []; str_indicator ind]; str_indicator ind].

(** Modelled from the spec: [thread.throwError(error)], which surfaces an
    error to the caller of the query (section 7); the next state to run
    raises [error]. *)
Definition throwError (thread : Thread) (error : Value) : Thread :=
  prepend thread [mkState (Some (Term "throw" [error])) ∅].

(** The [i]-th argument of the called atom.  An argument that is not there
    reads as [undefined] in the source, which like a number is neither an
    atom nor a variable. *)
Definition arg (atom : Value) (i : nat) : Value :=
  match atom with
  | Term _ args => nth i args (Num 0)
  | _ => Num 0
  end.

(** The [id] of an atom. *)
Definition id_of (t : Value) : string :=
  match t with
  | Term f _ => f
  | Var x => x
  | Num _ => ""
  end.

Definition Callback : Type := Thread -> State -> Value -> Result Thread.

Inductive Predicate : Type :=
  | Rules (rules : list Rule)
  | Native (callback : Callback).

Record Module : Type := mkModule {
  module_id : string;
  module_rules : list ((string * nat) * Predicate);
  module_exports : list (string * nat);
}.

(** ** [tauModule.ts]: the native predicates *)

Section TauModule.

Context `{host : Host}.
Variable projects : gmap nat Project.

Definition workspace_1 : Callback := fun thread point atom =>
  let workspaceCwd := arg atom 0 in
  let* project := getProject projects thread in
  if isAtom workspaceCwd then
    match tryWorkspaceByCwd project (id_of workspaceCwd) with
    | Some _ => Ok (success thread point)
    | None => Ok thread
    end
  else if negb (isVariable workspaceCwd) then
    Ok (throwError thread (instantiation (indicator atom)))
  else
    Ok (prependGoals thread point
          (map (fun workspace => termEquals workspaceCwd (inr (relativeCwd workspace)))
               (workspaces project))).

Definition workspace_ident_2 : Callback := fun thread point atom =>
  let workspaceCwd := arg atom 0 in
  let workspaceIdent := arg atom 1 in
  let* project := getProject projects thread in
  if isAtom workspaceCwd then
    let workspace := tryWorkspaceByCwd project (id_of workspaceCwd) in
    if negb (isAtom workspaceIdent) && negb (isVariable workspaceIdent) then
      Ok (throwError thread (instantiation (indicator atom)))
    else
      match workspace with
      | None => Ok thread
      | Some workspace =>
          Ok (prependGoals thread point
                [termEquals workspaceIdent
                   (inr (stringifyIdent (locator_ident (locator workspace))))])
      end
  else if isVariable workspaceCwd then
    if isAtom workspaceIdent then
      let* ident := parseIdent (id_of workspaceIdent) in
      match workspacesByIdent project !! identHash ident with
      | Some workspaces =>
          Ok (prependGoals thread point
                (map (fun workspace => termEquals workspaceCwd (inr (relativeCwd workspace)))
                     workspaces))
      | None => Ok thread
      end
    else if isVariable workspaceIdent then
      Ok (prependGoals thread point
            (map (fun workspace =>
                    and (termEquals workspaceCwd (inr (relativeCwd workspace)))
                        (termEquals workspaceIdent
                           (inr (stringifyIdent (locator_ident (locator workspace)))))
                        [])
                 (workspaces project)))
    else
      Ok (throwError thread (instantiation (indicator atom)))
  else
    Ok (throwError thread (instantiation (indicator atom))).

Definition workspace_field_3 : Callback := fun thread point atom =>
  let workspaceCwd := arg atom 0 in
  let fieldName := arg atom 1 in
  let fieldValue := arg atom 2 in
  if negb (isAtom workspaceCwd) || negb (isAtom fieldName) then
    Ok (throwError thread (instantiation (indicator atom)))
  else
    let* project := getProject projects thread in
    match tryWorkspaceByCwd project (id_of workspaceCwd) with
    | None => Ok thread
    | Some workspace =>
        match getPath (raw (manifest workspace)) (id_of fieldName) with
        | None => Ok thread
        | Some value =>
            Ok (prependGoals thread point [termEquals fieldValue (inr (toString value))])
        end
    end.

(** The sandbox of a check: [$$] is the field, [$0], [$1], ... the extra
    arguments. *)
Definition sandbox_vars (value : Json) (argv : list Json) : list (string * Json) :=
  ("$$", value) :: imap (fun index value => ("$" +:+ pretty index, value)) argv.

Definition workspace_field_test_4 : Callback := fun thread point atom =>
  let workspaceCwd := arg atom 0 in
  let fieldName := arg atom 1 in
  let checkCode := arg atom 2 in
  let checkArgv := arg atom 3 in
  if negb (isAtom workspaceCwd) || negb (isAtom fieldName) || negb (isAtom checkCode)
     || negb (isInstantiatedList checkArgv) then
    Ok (throwError thread (instantiation (indicator atom)))
  else
    let* project := getProject projects thread in
    match tryWorkspaceByCwd project (id_of workspaceCwd) with
    | None => Ok thread
    | Some workspace =>
        match getPath (raw (manifest workspace)) (id_of fieldName) with
        | None => Ok thread
        | Some value =>
            let* argv :=
              match toJavaScript checkArgv with
              | Some argv => Ok argv
              | None => Throw (TypeError "Cannot read properties of undefined")
              end in
            let vars := sandbox_vars value argv in
            let* result := runInNewContext (id_of checkCode) vars in
            if truthy result then Ok (success thread point) else Ok thread
        end
    end.

Definition internal_workspace_has_dependency_4 : Callback := fun thread point atom =>
  let workspaceCwd := arg atom 0 in
  let dependencyIdent := arg atom 1 in
  let dependencyRange := arg atom 2 in
  let dependencyType := arg atom 3 in
  if negb (isAtom workspaceCwd) || negb (isAtom dependencyType) then
    Ok (throwError thread (instantiation (indicator atom)))
  else
    let* project := getProject projects thread in
    let* workspaceInfo := getWorkspaceByCwd project (id_of workspaceCwd) in
    match manifest_index (manifest workspaceInfo) (id_of dependencyType) with
    | Undefined => Ok thread
    | registeredDependencies =>
        if isAtom dependencyIdent then
          let* ident := parseIdent (id_of dependencyIdent) in
          let dependencyIdentHash := identHash ident in
          match registeredDependencies with
          | Partition registeredDependencies =>
              match map_get registeredDependencies dependencyIdentHash with
              | Some dependencyDescriptor =>
                  Ok (prependGoals thread point
                        [termEquals dependencyRange (inr (range dependencyDescriptor))])
              | None => Ok thread
              end
          | _ => Throw (TypeError "registeredDependencies.get is not a function")
          end
        else if negb (isVariable dependencyIdent) then
          Ok (throwError thread (instantiation (indicator atom)))
        else
          match registeredDependencies with
          | Partition registeredDependencies =>
              Ok (prependGoals thread point
                    (map (fun dependencyDescriptor =>
                            and (termEquals dependencyIdent
                                   (inr (stringifyIdent (descriptor_ident dependencyDescriptor))))
                                (termEquals dependencyRange (inr (range dependencyDescriptor)))
                                [])
                         (map_values registeredDependencies)))
          | _ => Throw (TypeError "registeredDependencies.values is not a function")
          end
    end.

Definition tauModule : Module :=
  mkModule "constraints"
    [ (("dependency_type", 1),
        Rules
          [ rule (term "dependency_type" [term DependencyType.Dependencies []]) None;
            rule (term "dependency_type" [term DependencyType.DevDependencies []]) None;
            rule (term "dependency_type" [term DependencyType.PeerDependencies []]) None ]);
      (("workspace", 1), Native workspace_1);
      (("workspace_ident", 2), Native workspace_ident_2);
      (("workspace_version", 2),
        Rules
          [ rule
              (term "workspace_version" [variable "WorkspaceCwd"; variable "WorkspaceVersion"])
              (Some (term "workspace_field"
                       [variable "WorkspaceCwd"; term "version" []; variable "WorkspaceVersion"])) ]);
      (("workspace_field", 3), Native workspace_field_3);
      (("workspace_field_test", 3),
        Rules
          [ rule
              (term "workspace_field_test"
                 [variable "WorkspaceCwd"; variable "FieldName"; variable "CheckCode"])
              (Some (term "workspace_field_test"
                       [variable "WorkspaceCwd"; variable "FieldName"; variable "CheckCode";
                        term "[]" []])) ]);
      (("workspace_field_test", 4), Native workspace_field_test_4);
      (("workspace_has_dependency", 4),
        Rules
          [ rule
              (term "workspace_has_dependency"
                 [variable "WorkspaceCwd"; variable "DependencyIdent";
                  variable "DependencyRange"; variable "DependencyType"])
              (Some (and
                       (term "workspace" [variable "WorkspaceCwd"])
                       (term "dependency_type" [variable "DependencyType"])
                       [term "internal_workspace_has_dependency"
                          [variable "WorkspaceCwd"; variable "DependencyIdent";
                           variable "DependencyRange"; variable "DependencyType"]])) ]);
      (("internal_workspace_has_dependency", 4), Native internal_workspace_has_dependency_4) ]
    [ ("dependency_type", 1);
      ("workspace", 1);
      ("workspace_ident", 2);
      ("workspace_version", 2);
      ("workspace_field", 3);
      ("workspace_field_test", 3);
      ("workspace_field_test", 4);
      ("workspace_has_dependency", 4) ].

End TauModule.

(** [linkProjectToSession]: registers the project for the session and makes
    the session consult the module. *)
Definition linkProjectToSession (projects : gmap nat Project) (session : Session)
    (project : Project) : gmap nat Project * Session :=
  (<[ sid session := project ]> projects,
   mkSession (sid session) ("constraints" :: modules session)).

(** ** The resolution engine *)

(** What a step of the engine gives: the search goes on, an answer is
    found, a Prolog error or an exception of the host ends the query, no
    choice point is left, or a unification does not come to an end. *)
Inductive StepResult : Type :=
  | Continue (thread : Thread)
  | Answer (answer : gmap string Value) (thread : Thread)
  | Raise (error : Value)
  | Crash (e : JsError)
  | Halt
  | Diverge.

(** The entry of an indicator in the table of a module. *)
Fixpoint assoc {A : Type} (ind : string * nat) (table : list ((string * nat) * A)) : option A :=
  match table with
  | [] => None
  | (k, v) :: table' => if bool_decide (k = ind) then Some v else assoc ind table'
  end.

(** Modelled from the spec: the registry of predicates (section 4.3), keyed
    by name and arity; the predicate of that indicator in the first module
    that the session has loaded and that defines it. *)
Fixpoint lookup_predicate (library : list Module) (s : Session) (ind : string * nat)
  : option Predicate :=
  match library with
  | [] => None
  | m :: library' =>
      if existsb (String.eqb (module_id m)) (modules s) then
        match assoc ind (module_rules m) with
        | Some p => Some p
        | None => lookup_predicate library' s ind
        end
      else lookup_predicate library' s ind
  end.

(** Modelled from the spec: the resolution of a declarative predicate
    (section 4.2: one choice point per matching rule, with freshly renamed
    variables, in declaration order).  The states that the rules give for
    the goal [atom]; [None] when a unification does not come to an end. *)
Fixpoint resolve (point : State) (atom : Value) (rules : list Rule) : option (list State) :=
  match rules with
  | [] => Some []
  | r :: rules' =>
      let r' := rename (state_variables point) r in
      match unify (head r') atom with
      | UnifyDiverges => None
      | Mismatch => resolve point atom rules'
      | Unified mgu =>
          let state :=
            mkState (apply mgu <$> point_replace point (body r'))
                    (subst_apply (substitution point) mgu) in
          cons state <$> resolve point atom rules'
      end
  end.

(** The error of the engine for a goal that is a number. *)
Definition type_error_callable (t : Value) : Value :=
  Term "error" [Term "type_error" [Term "callable" []; t]; str_indicator ("call", 1)].

(** Modelled from the spec: a step of the resolution engine (section 4.2).
    It pops the top choice point and selects its leftmost goal; an equation
    is solved by unification; a declarative predicate gives one new state
    per rule whose renamed head unifies with the goal, in the order of the
    rules; a native predicate is called with the thread, the point and the
    goal; a point without goal is an answer.  Goals are kept with the
    substitution applied, so a predicate sees its arguments resolved. *)
Definition step (library : list Module) (thread : Thread) : StepResult :=
  match points thread with
  | [] => Halt
  | point :: rest =>
      let thread := mkThread (session thread) rest in
      match goal point with
      | None => Answer (substitution point) thread
      | Some g =>
          let atom := select g in
          match atom with
          | Var _ => Raise (instantiation ("call", 1))
          | Num _ => Raise (type_error_callable atom)
          | Term _ _ =>
              if bool_decide (indicator atom = ("=", 2)) then
                match unify (arg atom 0) (arg atom 1) with
                | Unified mgu =>
                    Continue (prepend thread
                      [mkState (apply mgu <$> point_replace point None)
                               (subst_apply (substitution point) mgu)])
                | Mismatch => Continue thread
                | UnifyDiverges => Diverge
                end
              else if bool_decide (indicator atom = ("throw", 1)) then
                Raise (arg atom 0)
              else
                match lookup_predicate library (session thread) (indicator atom) with
                | None => Raise (existence (indicator atom))
                | Some (Native callback) =>
                    match callback thread point atom with
                    | Ok thread' => Continue thread'
                    | Throw e => Crash e
                    end
                | Some (Rules rules) =>
                    match resolve point atom rules with
                    | Some states => Continue (prepend thread states)
                    | None => Diverge
                    end
                end
          end
      end
  end.

(** How a query ends: the search space is exhausted, a Prolog error or an
    exception of the host stops it, or the fuel of the model runs out. *)
Inductive Ending : Type :=
  | Exhausted
  | Raised (error : Value)
  | Thrown (e : JsError)
  | OutOfFuel.

(** Modelled from the spec: the enumeration of all solutions (section 4.2,
    section 6).  The answers of a thread, in the order they are found, and
    how the search ends.  An error ends the query (section 7). *)
Fixpoint run (library : list Module) (fuel : nat) (thread : Thread)
  : list (gmap string Value) * Ending :=
  match fuel with
  | O => ([], OutOfFuel)
  | S fuel' =>
      match step library thread with
      | Halt => ([], Exhausted)
      | Continue thread' => run library fuel' thread'
      | Answer answer thread' =>
          let '(answers, ending) := run library fuel' thread' in
          (answer :: answers, ending)
      | Raise error => ([], Raised error)
      | Crash e => ([], Thrown e)
      | Diverge => ([], OutOfFuel)
      end
  end.

(** Modelled from the spec: [session.query(goal)]; every variable of the
    goal starts bound to itself, and an answer gives the value of each
    (section 6: a solution maps the free variables of the query to their
    values, or to themselves when still unbound). *)
Definition initial_substitution (goal : Value) : gmap string Value :=
  list_to_map (map (fun x => (x, Var x)) (variables goal)).

(** The thread of a query: one choice point, with the goal. *)
Definition query (s : Session) (goal : Value) : Thread :=
  mkThread s [mkState (Some goal) (initial_substitution goal)].

(** The answers to [goal] on a session, with the [constraints] module in
    the library. *)
Definition solve `{host : Host} (projects : gmap nat Project) (s : Session) (fuel : nat)
    (goal : Value) : list (gmap string Value) * Ending :=
  run [tauModule projects] fuel (query s goal).

(** The thread after one step, when the step continues or answers. *)
Definition next_thread (library : list Module) (thread : Thread) : Thread :=
  match step library thread with
  | Continue thread' => thread'
  | Answer _ thread' => thread'
  | _ => thread
  end.

(** A session is linked to a project when the registry holds the project
    for it and it has consulted the module. *)
Definition linked_to (projects : gmap nat Project) (s : Session) (project : Project) : Prop :=
  projects !! sid s = Some project /\ existsb (String.eqb "constraints") (modules s) = true.

(** The workspaces whose identifier has the hash [h], in the order of the
    project. *)
Definition workspaces_with_ident (project : Project) (h : string) : list Workspace :=
  filter (fun workspace => identHash (locator_ident (locator workspace)) = h)
         (workspaces project).

(** The index by identifier lists, for each hash, the workspaces of the
    project with that hash, and has no entry for a hash without
    workspace. *)
Definition index_consistent (project : Project) : Prop :=
  forall h,
    workspacesByIdent project !! h
    = match workspaces_with_ident project h with
      | [] => None
      | found => Some found
      end.

(** Every workspace of the project is found under its relative path. *)
Definition paths_consistent (project : Project) : Prop :=
  forall workspace,
    workspace ∈ workspaces project ->
    tryWorkspaceByCwd project (relativeCwd workspace) = Some workspace.

(** The answers [answers] put before what a search gives. *)
Definition add_answers (answers : list (gmap string Value))
    (r : list (gmap string Value) * Ending) : list (gmap string Value) * Ending :=
((answers ++ r.1)%list, r.2).

(** The state [st] on top of any stack gives [answers] within [k] steps and
    leaves the rest of the stack as it was. *)
Definition produces (library : list Module) (s : Session) (st : State) (k : nat)
    (answers : list (gmap string Value)) : Prop :=
  forall ps fuel,
    (run library fuel (mkThread s ps)).2 <> OutOfFuel ->
    run library (k + fuel) (mkThread s (st :: ps))
    = add_answers answers (run library fuel (mkThread s ps)).

(** ** The life of the registry

    What happens to the registry over time: a session is linked to a
    project, or a query runs on a session.  A query reads the registry and
    leaves it as it is. *)

Inductive Event : Type :=
  | Linking (s : Session) (project : Project)
  | Querying (s : Session) (fuel : nat) (goal : Value).

Definition handle `{host : Host} (projects : gmap nat Project) (e : Event)
  : gmap nat Project * option (list (gmap string Value) * Ending) :=
  match e with
  | Linking s project => ((linkProjectToSession projects s project).1, None)
  | Querying s fuel goal => (projects, Some (solve projects s fuel goal))
  end.

Definition play `{host : Host} (projects : gmap nat Project) (events : list Event)
  : gmap nat Project :=
  foldl (fun registry e => (handle registry e).1) projects events.

(** The event links the session of identity [n] anew. *)
Definition relinks (n : nat) (e : Event) : Prop :=
  match e with
  | Linking s _ => sid s = n
  | Querying _ _ _ => False
  end.

(** The states that a fact [dependency_type(ty)] gives for the goal
    [dependency_type(d)] of a point: one that binds [d] when it is a
    variable, one that binds nothing when it is the atom [ty], none
    otherwise. *)
Definition fact_states (point : State) (d : Value) (ty : string) : list State :=
  match d with
  | Var y =>
      [mkState (apply {[ y := Term ty [] ]} <$> point_replace point None)
               (subst_apply (substitution point) {[ y := Term ty [] ]})]
  | Term g [] =>
      if bool_decide (ty = g)
      then [mkState (point_replace point None) (substitution point)]
      else []
  | _ => []
  end.

(** The threads that a search goes through: the steps that continue or
    give an answer lead from one thread to the next. *)
Inductive reaches (library : list Module) (start : Thread) : Thread -> Prop :=
  | reaches_start : reaches library start start
  | reaches_continue thread thread' :
      reaches library start thread ->
      step library thread = Continue thread' ->
      reaches library start thread'
  | reaches_answer thread answer thread' :
      reaches library start thread ->
      step library thread = Answer answer thread' ->
      reaches library start thread'.

Definition dependency_types : list string :=
  [DependencyType.Dependencies; DependencyType.DevDependencies;
   DependencyType.PeerDependencies].

(** The goals that the search for a call of [workspace_has_dependency/4]
    goes through: the call, the body of the rule, a branch that binds the
    path, the body once the path is that of a workspace, the call of the
    helper, the equations that the helper leaves, an answer, an error. *)
Inductive on_path (project : Project) : option Value -> Prop :=
  | at_call a b c d :
      on_path project (Some (Term "workspace_has_dependency" [a; b; c; d]))
  | at_body a b c d :
      on_path project
        (Some (Term "," [Term "," [Term "workspace" [a]; Term "dependency_type" [d]];
                         Term "internal_workspace_has_dependency" [a; b; c; d]]))
  | at_branch x workspace b c d :
      workspace ∈ workspaces project ->
      on_path project
        (Some (Term ","
                 [Term "," [termEquals (Var x) (inr (relativeCwd workspace));
                            Term "dependency_type" [d]];
                  Term "internal_workspace_has_dependency" [Var x; b; c; d]]))
  | at_type cwd workspace b c d :
      tryWorkspaceByCwd project cwd = Some workspace ->
      on_path project
        (Some (Term "," [Term "dependency_type" [d];
                         Term "internal_workspace_has_dependency" [Term cwd []; b; c; d]]))
  | at_helper cwd workspace b c ty :
      tryWorkspaceByCwd project cwd = Some workspace ->
      ty ∈ dependency_types ->
      on_path project
        (Some (Term "internal_workspace_has_dependency" [Term cwd []; b; c; Term ty []]))
  | at_equation v a :
      on_path project (Some (termEquals v (inr a)))
  | at_equations v1 a1 v2 a2 :
      on_path project (Some (and (termEquals v1 (inr a1)) (termEquals v2 (inr a2)) []))
  | at_answer :
      on_path project None
  | at_error e :
      on_path project (Some (Term "throw" [e])).

(** ** A sample host and project

    A small instance of the host functions and a project with three
    workspaces, on which the definitions can be run. *)

Module Sample.

Definition sample_stringifyIdent (ident : Ident) : string :=
  match scope ident with
  | Some s => "@" +:+ s +:+ "/" +:+ name ident
  | None => name ident
  end.

Definition sample_parseIdent (s : string) : Result Ident :=
  if String.eqb s "" then Throw (Error "Invalid ident") else Ok (mkIdent s None s).

Fixpoint object_get (fields : list (string * Json)) (key : string) : option Json :=
  match fields with
  | [] => None
  | (k, v) :: fields' => if String.eqb k key then Some v else object_get fields' key
  end.

Definition sample_getPath (object : Json) (path : string) : option Json :=
  match object with
  | JObject fields => object_get fields path
  | _ => None
  end.

Definition sample_toString (value : Json) : string :=
  match value with
  | JNull => "null"
  | JBool true => "true"
  | JBool false => "false"
  | JNumber n => pretty n
  | JString s => s
  | JArray _ => ""
  | JObject _ => "[object Object]"
  | JFunction f => "function " +:+ f +:+ "() { [native code] }"
  end.

Fixpoint sample_toJavaScript (argv : Value) : option (list Json) :=
  match argv with
  | Term _ [] => Some []
  | Term _ [Term s []; tl] => cons (JString s) <$> sample_toJavaScript tl
  | Term _ [Num n; tl] => cons (JNumber n) <$> sample_toJavaScript tl
  | _ => None
  end.

(** A sandbox that knows four programs. *)
Definition sample_runInNewContext (code : string) (vars : list (string * Json)) : Result Json :=
  if String.eqb code "true" then Ok (JBool true)
  else if String.eqb code "false" then Ok (JBool false)
  else if String.eqb code "$$" then Ok (default JNull (object_get vars "$$"))
  else Throw (EvalError "SyntaxError: Unexpected token").

#[export] Instance sample_host : Host := {|
  stringifyIdent := sample_stringifyIdent;
  parseIdent := sample_parseIdent;
  getPath := sample_getPath;
  toString := sample_toString;
  toJavaScript := sample_toJavaScript;
  runInNewContext := sample_runInNewContext;
|}.

(** The members that every object inherits from [Object.prototype] under
    their own names: functions of the host language. *)
Definition inherited_members : list string :=
  [ "hasOwnProperty"; "isPrototypeOf"; "propertyIsEnumerable"; "toLocaleString";
    "toString"; "valueOf" ].

(** [get] of lodash for a path without dots and brackets: it reads
    [object[path]], which finds the fields of the object itself and, when
    there is none of that name, the members that the object inherits. *)
Definition lodash_getPath (object : Json) (path : string) : option Json :=
  match object with
  | JObject fields =>
      match object_get fields path with
      | Some value => Some value
      | None =>
          if bool_decide (path ∈ inherited_members) then Some (JFunction path) else None
      end
  | _ => None
  end.

(** The host with the lookup of lodash. *)
Definition lodash_host : Host := {|
  stringifyIdent := sample_stringifyIdent;
  parseIdent := sample_parseIdent;
  getPath := lodash_getPath;
  toString := sample_toString;
  toJavaScript := sample_toJavaScript;
  runInNewContext := sample_runInNewContext;
|}.

Definition ident_of (s : string) : Ident := mkIdent s None s.

Definition descriptor_of (s r : string) : Descriptor := mkDescriptor (ident_of s) r.

Definition manifest_of (nm version : string) (deps : DependencyMap) : Manifest :=
  mkManifest
    (JObject [("name", JString nm); ("version", JString version); ("private", JBool false)])
    deps [] [] ["name"; "version"].

Definition root : Workspace :=
  mkWorkspace "." (mkLocator (ident_of "root") "workspace:.")
    (manifest_of "root" "0.0.0" []).

Definition pkg_a : Workspace :=
  mkWorkspace "packages/a" (mkLocator (ident_of "pkg") "workspace:packages/a")
    (manifest_of "pkg" "1.2.3"
       [("a", descriptor_of "a" "^1.0.0"); ("b", descriptor_of "b" "^2.0.0")]).

Definition pkg_b : Workspace :=
  mkWorkspace "packages/b" (mkLocator (ident_of "pkg") "workspace:packages/b")
    (manifest_of "pkg" "2.0.0" [("a", descriptor_of "a" "^1.1.0")]).

Definition project : Project :=
  mkProject [root; pkg_a; pkg_b]
    (fun cwd =>
       List.find (fun w => String.eqb (relativeCwd w) cwd) [root; pkg_a; pkg_b])
    (<[ "root" := [root] ]> (<[ "pkg" := [pkg_a; pkg_b] ]> ∅)).

Definition other_project : Project :=
  mkProject [root]
    (fun cwd => List.find (fun w => String.eqb (relativeCwd w) cwd) [root])
    (<[ "root" := [root] ]> ∅).

(** A fresh session, and the registry and session after the link. *)
Definition session0 : Session := mkSession 7 [].

Definition linked : gmap nat Project * Session := linkProjectToSession ∅ session0 project.

(** A session that has consulted the module without any project. *)
Definition unlinked : Session := mkSession 8 ["constraints"].

(** The search for the dependencies of [packages/a], three steps on: the
    next goal is the call of the helper. *)
Definition helper_goal : Value :=
  term "workspace_has_dependency"
    [Term "packages/a" []; Var "I"; Var "R"; Term "dependencies" []].

Definition helper_thread : Thread :=
  let library := [tauModule linked.1] in
  next_thread library (next_thread library (next_thread library (query linked.2 helper_goal))).

(** A session that is linked, with queries and the link of another
    session in between. *)
Definition history : list Event :=
  [ Querying linked.2 8 (term "workspace" [Var "X"]);
    Linking (mkSession 9 []) other_project;
    Querying linked.2 8 (term "workspace" [Var "X"]) ].

End Sample.

(** The three partitions of a manifest with their types, in the order of
    the facts of [dependency_type/1]. *)
Definition declared_in (m : Manifest) : list (string * DependencyMap) :=
  [ (DependencyType.Dependencies, dependencies m);
    (DependencyType.DevDependencies, devDependencies m);
    (DependencyType.PeerDependencies, peerDependencies m) ].

(** The number of dependencies that a workspace declares, and that all the
    workspaces of a project declare. *)
Definition declared_count (workspace : Workspace) : nat :=
  length (dependencies (manifest workspace))
  + length (devDependencies (manifest workspace))
  + length (peerDependencies (manifest workspace)).

Definition declared_total (project : Project) : nat :=
  list_sum (map declared_count (workspaces project)).

(** The goals that a conjunction joins, from left to right. *)
Fixpoint conjuncts (t : Value) : list Value :=
  match t with
  | Term f [a; b] => if String.eqb f "," then conjuncts a ++ conjuncts b else [t]
  | _ => [t]
  end.

(** ** [plugin-stage/sources/stageUtils.ts] *)

(** What the functions call in the [fslib] package: the path functions of
    [ppath] and the synchronous file system calls of [xfs], taken as
    given. *)
Class Fslib : Type := {
  (** [ppath.dirname]. *)
  ppath_dirname : string -> string;
  (** [ppath.basename]. *)
  ppath_basename : string -> string;
  (** [ppath.join]. *)
  ppath_join : string -> string -> string;
  (** [ppath.resolve]. *)
  ppath_resolve : string -> string -> string;
  (** [xfs.existsSync]. *)
  xfs_existsSync : string -> bool;
  (** [xfs.readdirSync], which throws on what is no directory. *)
  xfs_readdirSync : string -> Result (list string);
  (** [xfs.lstatSync(path).isDirectory()]; [lstatSync] throws on a path
      that is not there. *)
  xfs_lstatSync_isDirectory : string -> Result bool;
}.

(** The [k]-th ancestor of a path: [ppath.dirname], [k] times. *)
Definition ancestor `{fslib : Fslib} (k : nat) (path : string) : string :=
  Nat.iter k ppath_dirname path.

(** [findVcsRoot]: the loop runs its body, then goes on while the directory
    is not the root.  [None] when the fuel of the model runs out; the
    source's [null] is [Some None]. *)
Fixpoint findVcsRoot `{fslib : Fslib} (fuel : nat) (cwd marker : string)
  : option (option string) :=
  match fuel with
  | O => None
  | S fuel' =>
      if negb (xfs_existsSync (ppath_join cwd marker)) then
        let cwd := ppath_dirname cwd in
        if negb (String.eqb cwd "/") then findVcsRoot fuel' cwd marker else Some None
      else Some (Some cwd)
  end.

(** The loop of [isYarnFile]. *)
Fixpoint isYarnFile_loop `{fslib : Fslib} (fuel : nat) (path : string) (roots : gset string)
  : option bool :=
  match fuel with
  | O => None
  | S fuel' =>
      if negb (bool_decide (path ∈ roots)) then
        let path := ppath_dirname path in
        if negb (String.eqb path "/") then isYarnFile_loop fuel' path roots else Some false
      else Some true
  end.

(** [isYarnFile]. *)
Definition isYarnFile `{fslib : Fslib} (fuel : nat) (path : string)
    (roots names : gset string) : option bool :=
  if bool_decide (ppath_basename path ∈ names) then Some true
  else isYarnFile_loop fuel path roots.

(** The loop over the listing of a directory in [expandDirectory]:
    directories go on the stack [cwds] (its top first), other entries at
    the end of [paths]. *)
Fixpoint expandDirectory_listing `{fslib : Fslib} (cwd : string) (listing : list string)
    (cwds paths : list string) : Result (list string * list string) :=
  match listing with
  | [] => Ok (cwds, paths)
  | entry :: listing' =>
      let path := ppath_resolve cwd entry in
      let* isDirectory := xfs_lstatSync_isDirectory path in
      if isDirectory
      then expandDirectory_listing cwd listing' (path :: cwds) paths
      else expandDirectory_listing cwd listing' cwds (paths ++ [path])
  end.

(** The outer loop of [expandDirectory]: it pops a directory and lists
    it. *)
Fixpoint expandDirectory_loop `{fslib : Fslib} (fuel : nat) (cwds paths : list string)
  : option (Result (list string)) :=
  match fuel with
  | O => None
  | S fuel' =>
      match cwds with
      | [] => Some (Ok paths)
      | cwd :: cwds' =>
          match xfs_readdirSync cwd with
          | Throw e => Some (Throw e)
          | Ok listing =>
              match expandDirectory_listing cwd listing cwds' paths with
              | Throw e => Some (Throw e)
              | Ok (cwds'', paths') => expandDirectory_loop fuel' cwds'' paths'
              end
          end
      end
  end.

(** [expandDirectory]. *)
Definition expandDirectory `{fslib : Fslib} (fuel : nat) (initialCwd : string)
  : option (Result (list string)) :=
  expandDirectory_loop fuel [initialCwd] [].

(** A regular expression object.  With the [g] or the [y] flag,
    [regex.test] reads and writes [regex.lastIndex]: the search starts at
    that index and gives the index behind the match; without these flags
    the test depends on the line alone. *)
Inductive RegExp : Type :=
  | Flagless (matches : string -> bool)
  | Stateful (searchFrom : nat -> string -> option nat).

(** [regex.test(line)] for a [regex.lastIndex]: the result, and
    [regex.lastIndex] after the call.  With the flag a match moves the
    index behind the match and a failure sets it to zero. *)
Definition RegExp_test (regex : RegExp) (lastIndex : nat) (line : string) : bool * nat :=
  match regex with
  | Flagless matches => (matches line, lastIndex)
  | Stateful searchFrom =>
      match searchFrom lastIndex line with
      | Some next => (true, next)
      | None => (false, 0)
      end
  end.

(** [checkConsensus], for the [regex.lastIndex] at the call: its result,
    and [regex.lastIndex] after the call. *)
Definition checkConsensus (lines : list string) (regex : RegExp) (lastIndex : nat)
  : bool * nat :=
  let '(yes, no, lastIndex) :=
    foldl (fun '(yes, no, lastIndex) line =>
             let '(matched, lastIndex) := RegExp_test regex lastIndex line in
             if matched then (yes + 1, no, lastIndex) else (yes, no + 1, lastIndex))
          (0, 0, lastIndex) lines in
  (Nat.leb no yes, lastIndex).

(** The tests of the three regular expressions of [findConsensus], taken
    as given.  They are literals without flags, made anew at each call. *)
Class ConsensusPatterns : Type := {
  (** The first regular expression: after an optional component and
      colon, word characters that go on with an [s]. *)
  thirdPersonPattern : string -> bool;
  (** The second regular expression: after an optional component and
      colon, a capital letter. *)
  upperCasePattern : string -> bool;
  (** The third regular expression: a component in brackets and a colon
      at the start of the line. *)
  componentPattern : string -> bool;
}.

Record Consensus : Type := mkConsensus {
  useThirdPerson : bool;
  useUpperCase : bool;
  useComponent : bool;
}.

(** [findConsensus]. *)
Definition findConsensus `{patterns : ConsensusPatterns} (lines : list string) : Consensus :=
  let useThirdPerson := (checkConsensus lines (Flagless thirdPersonPattern) 0).1 in
  let useUpperCase := (checkConsensus lines (Flagless upperCasePattern) 0).1 in
  let useComponent := (checkConsensus lines (Flagless componentPattern) 0).1 in
  mkConsensus useThirdPerson useUpperCase useComponent.

(** [genCommitMessage]. *)
Definition genCommitMessage `{patterns : ConsensusPatterns} (lines : list string) : string :=
  let consensus := findConsensus lines in
  let prefix := if useComponent consensus then "chore(yarn): " else "" in
  let verb :=
    if useThirdPerson consensus
    then if useUpperCase consensus then "Updates" else "updates"
    else if useUpperCase consensus then "Update" else "update" in
  prefix +:+ verb +:+ " the project settings".

(** Whether at least half of the lines pass a test. *)
Definition majority (regex : string -> bool) (lines : list string) : bool :=
  bool_decide (length lines <= 2 * length (List.filter regex lines)).

(** The walk that [findVcsRoot] and [isYarnFile] both do: test the path,
    go to its directory, and stop once that directory is the root.  It is
    compared with the two loops in [findVcsRoot_walk_up] and
    [isYarnFile_loop_walk_up]. *)
Fixpoint walk_up `{fslib : Fslib} (found : string -> bool) (fuel : nat) (path : string)
  : option (option string) :=
  match fuel with
  | O => None
  | S fuel' =>
      if found path then Some (Some path)
      else if String.eqb (ppath_dirname path) "/" then Some None
           else walk_up found fuel' (ppath_dirname path)
  end.

(** Whether [xfs.lstatSync] says that a path is a directory. *)
Definition is_directory `{fslib : Fslib} (path : string) : bool :=
  match xfs_lstatSync_isDirectory path with
  | Ok true => true
  | _ => false
  end.

(** The directories below [initialCwd] that a listing leads to. *)
Inductive visited `{fslib : Fslib} (initialCwd : string) : string -> Prop :=
| visited_initial : visited initialCwd initialCwd
| visited_entry cwd listing entry :
    visited initialCwd cwd ->
    xfs_readdirSync cwd = Ok listing ->
    entry ∈ listing ->
    xfs_lstatSync_isDirectory (ppath_resolve cwd entry) = Ok true ->
    visited initialCwd (ppath_resolve cwd entry).

(** A file that a listing of a visited directory names. *)
Definition file_below `{fslib : Fslib} (initialCwd path : string) : Prop :=
  exists cwd listing entry,
    visited initialCwd cwd
    /\ xfs_readdirSync cwd = Ok listing
    /\ entry ∈ listing
    /\ path = ppath_resolve cwd entry
    /\ xfs_lstatSync_isDirectory path = Ok false.

(** ** The portable-shell plugin *)

(** The environment of a script: a JavaScript object from names to
    strings, as the list of its properties in the order of their
    insertion, each name once.  A property that was assigned [undefined]
    is there, with the value [None].  Names that are array indices, which
    [Object.keys] lists before the others, are left aside. *)
Definition Env : Type := list (string * option string).

(** [env[key]]: [undefined] for a name that is not there. *)
Fixpoint env_get (env : Env) (key : string) : option string :=
  match env with
  | [] => None
  | (k, v) :: env' => if String.eqb k key then v else env_get env' key
  end.

(** [env[key] = value]: a name that is there keeps its place. *)
Fixpoint env_set (env : Env) (key : string) (value : option string) : Env :=
  match env with
  | [] => [(key, value)]
  | (k, v) :: env' =>
      if String.eqb k key then (k, value) :: env' else (k, v) :: env_set env' key value
  end.

(** [delete env[key]]. *)
Definition env_delete (env : Env) (key : string) : Env :=
  List.filter (fun property => negb (String.eqb property.1 key)) env.

(** [Object.keys(env)]. *)
Definition env_keys (env : Env) : list string := map fst env.

(** A JavaScript [Set] of strings, as the list of its members in the order
    of their insertion: [set.add(x)] and [new Set(list)]. *)
Definition jsset_add (set : list string) (x : string) : list string :=
  if bool_decide (x ∈ set) then set else set ++ [x].

Definition jsset_of (members : list string) : list string := foldl jsset_add [] members.

(** The function of the [micromatch] package, taken as given: the strings
    of a list that match the patterns. *)
Class Micromatch : Type := {
  micromatch : list string -> list string -> list string;
}.

(** The settings of the plugin, [project.configuration.get(`portableShell`)]:
    a flag, and a list of names that may be [null]. *)
Record PortableShell : Type := mkPortableShell {
  onlyLocalCommands : bool;
  envWhitelist : option (list string);
}.

(** The patterns given to [micromatch]: the names of the setting, then the
    three names that are always added. *)
Definition whitelist_patterns (envWhitelist : list string) : list string :=
  let whitelist := jsset_of ([] ++ envWhitelist) in
  let whitelist := jsset_add whitelist "PATH" in
  let whitelist := jsset_add whitelist "BERRY_BIN_FOLDER" in
  let whitelist := jsset_add whitelist "NODE_OPTIONS" in
  whitelist.

(** [setupScriptEnvironment]; the environment after the call is the
    result.  A list of names is true in a condition even when it is
    empty. *)
Definition setupScriptEnvironment `{matcher : Micromatch} (configuration : PortableShell)
    (env : Env) : Env :=
  let env :=
    if onlyLocalCommands configuration
    then env_set env "PATH" (env_get env "BERRY_BIN_FOLDER")
    else env in
  match envWhitelist configuration with
  | Some envWhitelist =>
      let whitelist := whitelist_patterns envWhitelist in
      let envKeys := env_keys env in
      let allowedDependencies := jsset_of (micromatch envKeys whitelist) in
      foldl (fun env key =>
               if negb (bool_decide (key ∈ allowedDependencies))
               then env_delete env key
               else env)
            env envKeys
  | None => env
  end.

(** ** A sample file system and a sample matcher *)

Module StageSample.

(** A table lookup by name. *)
Fixpoint table_get {A} (table : list (string * A)) (key : string) : option A :=
  match table with
  | [] => None
  | (k, v) :: table' => if String.eqb k key then Some v else table_get table' key
  end.

(** The paths of a repository with one package: for each its directory,
    its name, and its entries when it is a directory. *)
Definition tree : list (string * (string * string * option (list string))) :=
  [ ("/", ("/", "", Some ["repo"]));
    ("/repo", ("/", "repo", Some [".git"; "README.md"; "packages"]));
    ("/repo/.git", ("/repo", ".git", Some []));
    ("/repo/README.md", ("/repo", "README.md", None));
    ("/repo/packages", ("/repo", "packages", Some ["a"]));
    ("/repo/packages/a", ("/repo/packages", "a", Some ["package.json"]));
    ("/repo/packages/a/package.json", ("/repo/packages/a", "package.json", None)) ].

Definition sample_join (a b : string) : string :=
  if String.eqb a "/" then a +:+ b else a +:+ "/" +:+ b.

#[export] Instance sample_fslib : Fslib := {|
  ppath_dirname path := from_option (fun node => node.1.1) "/" (table_get tree path);
  ppath_basename path := from_option (fun node => node.1.2) path (table_get tree path);
  ppath_join := sample_join;
  ppath_resolve := sample_join;
  xfs_existsSync path := bool_decide (is_Some (table_get tree path));
  xfs_readdirSync path :=
    match table_get tree path with
    | Some (_, Some listing) => Ok listing
    | Some (_, None) => Throw (Error "ENOTDIR: not a directory")
    | None => Throw (Error "ENOENT: no such file or directory")
    end;
  xfs_lstatSync_isDirectory path :=
    match table_get tree path with
    | Some (_, entries) => Ok (bool_decide (is_Some entries))
    | None => Throw (Error "ENOENT: no such file or directory")
    end;
|}.

(** A matcher that knows no wildcard: a name matches the patterns when it
    is one of them. *)
#[export] Instance sample_matcher : Micromatch := {|
  micromatch keys patterns := List.filter (fun key => bool_decide (key ∈ patterns)) keys;
|}.

(** The expression [/a/g]: the search for the letter [a] from an index. *)
Definition global_a : RegExp :=
  Stateful (fun lastIndex line => S <$> String.index lastIndex "a" line).

Definition settings : PortableShell := mkPortableShell true (Some ["HOME"]).

Definition env : Env :=
  [ ("HOME", Some "/home/user"); ("SECRET", Some "hunter2");
    ("BERRY_BIN_FOLDER", Some "/tmp/bin") ].

End StageSample.

(** * Properties *)

#[local] Arguments Nat.mul : simpl never.

(** ** The engine *)

Lemma add_answers_nil r : add_answers [] r = r.
Proof. by destruct r. Qed.

Lemma add_answers_app a b r : add_answers (a ++ b)%list r = add_answers a (add_answers b r).
Proof. unfold add_answers; simpl. by rewrite <- app_assoc. Qed.

Lemma run_continue library fuel thread thread' :
  step library thread = Continue thread' ->
  run library (S fuel) thread = run library fuel thread'.
Proof. intros H. simpl. by rewrite H. Qed.

Lemma run_answer library fuel thread answer thread' :
  step library thread = Answer answer thread' ->
  run library (S fuel) thread = add_answers [answer] (run library fuel thread').
Proof. intros H. simpl. rewrite H. by destruct (run library fuel thread'). Qed.

Lemma run_raise library fuel thread error :
  step library thread = Raise error ->
  run library (S fuel) thread = ([], Raised error).
Proof. intros H. simpl. by rewrite H. Qed.

Lemma run_crash library fuel thread e :
  step library thread = Crash e ->
  run library (S fuel) thread = ([], Thrown e).
Proof. intros H. simpl. by rewrite H. Qed.

(** More fuel does not change a search that has come to its end. *)
Lemma run_mono library fuel :
  forall thread fuel',
    (run library fuel thread).2 <> OutOfFuel ->
    fuel <= fuel' ->
    run library fuel' thread = run library fuel thread.
Proof.
  induction fuel as [|fuel IH]; intros thread fuel' Hend Hle.
  - by simpl in Hend.
  - destruct fuel' as [|fuel']; [lia|].
    simpl in *. destruct (step library thread) as [t'|a t'| | | |]; try done.
    + apply IH; [done|lia].
    + destruct (run library fuel t') as [answers ending] eqn:Hrun.
      rewrite (IH t' fuel'); [by rewrite Hrun| by rewrite Hrun |lia].
Qed.

(** A point without goal is an answer. *)
Lemma produces_answer library s sigma :
  produces library s (mkState None sigma) 1 [sigma].
Proof. intros ps fuel _. by apply run_answer. Qed.

Lemma produces_mono library s st k k' answers :
  produces library s st k answers -> k <= k' -> produces library s st k' answers.
Proof.
  intros Hst Hle ps fuel Hend.
  replace (k' + fuel) with (k + (fuel + (k' - k))) by lia.
  assert (Hmore : run library (fuel + (k' - k)) (mkThread s ps)
                  = run library fuel (mkThread s ps)).
  { apply run_mono; [done|lia]. }
  rewrite Hst; by rewrite Hmore.
Qed.

(** Branches run one after the other, each for its own answers. *)
Lemma produces_branches library s k sts answers :
  Forall2 (fun st a => produces library s st k a) sts answers ->
  forall ps fuel,
    (run library fuel (mkThread s ps)).2 <> OutOfFuel ->
    run library (k * length sts + fuel) (mkThread s (sts ++ ps))
    = add_answers (concat answers) (run library fuel (mkThread s ps)).
Proof.
  induction 1 as [|st a sts answers Hst _ IH]; intros ps fuel Hend.
  - simpl. rewrite Nat.mul_0_r. simpl. by rewrite add_answers_nil.
  - simpl length. simpl concat. rewrite add_answers_app.
    replace (k * S (length sts) + fuel) with (k + (k * length sts + fuel)) by lia.
    simpl app. rewrite Hst; rewrite IH; done.
Qed.

(** What a state gives is what the query made of it alone gives. *)
Lemma produces_run library s st k answers fuel :
  produces library s st k answers ->
  run library (k + S fuel) (mkThread s [st]) = (answers, Exhausted).
Proof.
  intros Hst. rewrite Hst; simpl; [|done].
  unfold add_answers. simpl. by rewrite app_nil_r.
Qed.

(** The states of a stack, each with its answers, give all the answers. *)
Lemma run_states library s k sts answers n fuel :
  Forall2 (fun st a => produces library s st k a) sts answers ->
  length sts = n ->
  run library (k * n + S fuel) (mkThread s sts) = (concat answers, Exhausted).
Proof.
  intros Hsts <-.
  rewrite <- (app_nil_r sts) at 2.
  rewrite (produces_branches _ _ _ _ _ Hsts) by done.
  simpl. unfold add_answers. simpl. by rewrite app_nil_r.
Qed.

#[local] Arguments run : simpl never.

(** ** Terms and substitutions *)

Lemma Value_ind' (P : Value -> Prop) :
  (forall x, P (Var x)) ->
  (forall n, P (Num n)) ->
  (forall f args, Forall P args -> P (Term f args)) ->
  forall t, P t.
Proof.
  intros HVar HNum HTerm.
  fix IH 1. intros [x|n|f args].
  - apply HVar.
  - apply HNum.
  - apply HTerm. induction args as [|a args IHargs]; constructor.
    + apply IH.
    + apply IHargs.
Qed.

(** A substitution that binds no variable of a term leaves it as it is. *)
Lemma apply_fresh (subs : gmap string Value) t :
  (forall x, x ∈ variables t -> subs !! x = None) -> apply subs t = t.
Proof.
  induction t as [x|n|f args IH] using Value_ind'; intros Hfresh; simpl.
  - rewrite Hfresh; [done|]. simpl. by apply list_elem_of_singleton.
  - done.
  - f_equal. simpl in Hfresh.
    induction IH as [|a args Ha _ IHargs]; simpl; [done|].
    f_equal.
    + apply Ha. intros x Hx. apply Hfresh. simpl. apply elem_of_app. by left.
    + apply IHargs. intros x Hx. apply Hfresh. simpl. apply elem_of_app. by right.
Qed.

Lemma apply_empty t : apply ∅ t = t.
Proof. apply apply_fresh. intros x _. apply lookup_empty. Qed.

Lemma subst_apply_empty (links : gmap string Value) : subst_apply links ∅ = links.
Proof.
  unfold subst_apply. apply map_eq. intros k. rewrite lookup_fmap.
  destruct (links !! k); simpl; [|done]. by rewrite apply_empty.
Qed.

Lemma apply_singleton_fresh x v t :
  x ∉ variables t -> apply {[ x := v ]} t = t.
Proof.
  intros Hx. apply apply_fresh. intros y Hy.
  apply lookup_singleton_ne. intros ->. by apply Hx.
Qed.

(** ** Fresh names *)

Lemma underscores_length n : String.length (underscores n) = n.
Proof. induction n as [|n IH]; simpl; [done|]. f_equal. exact IH. Qed.

Lemma max_length_ge names x : x ∈ names -> String.length x <= max_length names.
Proof.
  induction names as [|y names IH]; intros Hx.
  - by apply elem_of_nil in Hx.
  - simpl. apply elem_of_cons in Hx as [->|Hx]; [lia|].
    specialize (IH Hx). lia.
Qed.

Lemma fresh_name_not_in avoid : fresh_name avoid ∉ avoid.
Proof.
  intros Hin. apply max_length_ge in Hin.
  assert (Hlen : String.length (fresh_name avoid) = S (max_length avoid)).
  { unfold fresh_name. simpl. f_equal. apply underscores_length. }
  lia.
Qed.

(** ** Unification *)

Lemma unify_var_atom x a : unify (Var x) (Term a []) = Unified {[ x := Term a [] ]}.
Proof. unfold unify. simpl. by rewrite fmap_empty, insert_empty. Qed.

Lemma unify_atom_atom a b :
  unify (Term a []) (Term b []) = if bool_decide (a = b) then Unified ∅ else Mismatch.
Proof.
  unfold unify. simpl.
  repeat case_bool_decide; try done; congruence.
Qed.

Lemma unify_other_atom t a :
  isAtom t = false -> isVariable t = false -> unify t (Term a []) = Mismatch.
Proof.
  destruct t as [x|n|f [|b args]]; simpl; try done.
  intros _ _. unfold unify. simpl. by case_bool_decide.
Qed.

(** Equations between distinct fresh variables and terms bind each variable
    to its term. *)
Lemma unify_loop_fresh (pairs : list (string * Value)) :
  forall fuel (links : gmap string Value),
    length pairs <= fuel ->
    NoDup pairs.*1 ->
    (forall n t, n ∈ pairs.*1 -> t ∈ pairs.*2 -> n ∉ variables t) ->
    (forall n k t, n ∈ pairs.*1 -> links !! k = Some t -> n ∉ variables t) ->
    unify_loop fuel (map (fun nt => (Var nt.1, nt.2)) pairs) links
    = Unified (foldl (fun l nt => <[ nt.1 := nt.2 ]> l) links pairs).
Proof.
  induction pairs as [|[n t] pairs IH]; intros fuel links Hfuel Hnodup Hterms Hlinks.
  - by destruct fuel.
  - destruct fuel as [|fuel]; simpl in Hfuel; [lia|].
    simpl in Hnodup. apply NoDup_cons in Hnodup as [Hn Hnodup].
    assert (Hnt : same_var n t = false).
    { destruct t as [y| |]; simpl; try done.
      apply String.eqb_neq. intros ->.
      apply (Hterms y (Var y)); simpl; [by left|by left|by left]. }
    simpl. rewrite Hnt.
    assert (Hrest : map (apply_eq {[ n := t ]}) (map (fun nt => (Var nt.1, nt.2)) pairs)
                    = map (fun nt => (Var nt.1, nt.2)) pairs).
    { rewrite map_map. apply map_ext_in. intros [n' t'] Hin.
      apply list_elem_of_In in Hin.
      unfold apply_eq. simpl. f_equal.
      - rewrite lookup_singleton_ne; [done|]. intros ->.
        apply Hn. apply list_elem_of_fmap. by exists (n', t').
      - apply apply_singleton_fresh. apply Hterms.
        + simpl. by left.
        + simpl. right. apply list_elem_of_fmap. by exists (n', t'). }
    assert (Hsame : apply {[ n := t ]} <$> links = links).
    { apply map_eq. intros k. rewrite lookup_fmap.
      destruct (links !! k) as [v|] eqn:Hk; simpl; [|done].
      f_equal. apply apply_singleton_fresh. apply (Hlinks n k v); [|done].
      simpl. by left. }
    rewrite Hrest, Hsame. apply IH.
    + lia.
    + done.
    + intros n' t' Hn' Ht'. apply Hterms; simpl; by right.
    + intros n' k v Hn' Hk.
      destruct (decide (n = k)) as [->|Hne].
      * rewrite lookup_insert_eq in Hk. injection Hk as <-.
        apply Hterms; simpl; [by right|by left].
      * rewrite lookup_insert_ne in Hk by done.
        apply (Hlinks n' k v); [|done]. simpl. by right.
Qed.

(** A fact with an atom as argument against a goal with one argument. *)
Lemma unify_fact f ty d :
  unify (Term f [Term ty []]) (Term f [d])
  = match d with
    | Var y => Unified {[ y := Term ty [] ]}
    | Term g [] => if bool_decide (ty = g) then Unified ∅ else Mismatch
    | _ => Mismatch
    end.
Proof.
  unfold unify. simpl.
  rewrite bool_decide_eq_true_2 by done. simpl.
  destruct d as [y|n|g [|a args]]; simpl; try done.
  - repeat case_bool_decide; try done; congruence.
  - by rewrite bool_decide_eq_false_2.
Qed.

Lemma fmap_apply_empty (g : option Value) : apply ∅ <$> g = g.
Proof. destruct g; simpl; [|done]. by rewrite apply_empty. Qed.

Lemma unify_loop_terms fuel f args f' args' G links :
  unify_loop (S fuel) ((Term f args, Term f' args') :: G) links
  = if bool_decide ((f, length args) = (f', length args'))
    then unify_loop fuel (rev (zip args args') ++ G) links
    else Mismatch.
Proof. reflexivity. Qed.

#[local] Arguments unify_loop : simpl never.

(** ** Dispatch *)

Lemma lookup_constraints `{host : Host} projects s ind :
  existsb (String.eqb "constraints") (modules s) = true ->
  lookup_predicate [tauModule projects] s ind = assoc ind (module_rules (tauModule projects)).
Proof.
  intros Hloaded. unfold lookup_predicate.
  change (module_id (tauModule projects)) with "constraints".
  rewrite Hloaded. by destruct (assoc ind (module_rules (tauModule projects))).
Qed.

Lemma getProject_linked projects s project ps :
  projects !! sid s = Some project ->
  getProject projects (mkThread s ps) = Ok project.
Proof. intros H. unfold getProject. simpl. by rewrite H. Qed.

(** A goal that is a call of a native predicate of the module runs its
    callback on the thread without the point. *)
Lemma step_native `{host : Host} projects s g sigma ps f args callback :
  existsb (String.eqb "constraints") (modules s) = true ->
  select g = Term f args ->
  bool_decide ((f, length args) = ("=", 2)) = false ->
  bool_decide ((f, length args) = ("throw", 1)) = false ->
  assoc (f, length args) (module_rules (tauModule projects)) = Some (Native callback) ->
  step [tauModule projects] (mkThread s (mkState (Some g) sigma :: ps))
  = match callback (mkThread s ps) (mkState (Some g) sigma) (Term f args) with
    | Ok thread' => Continue thread'
    | Throw e => Crash e
    end.
Proof.
  intros Hloaded Hsel Heq Hthrow Hassoc.
  unfold step. cbn [points goal session]. rewrite Hsel.
  cbn [indicator]. rewrite Heq, Hthrow.
  rewrite lookup_constraints by done. by rewrite Hassoc.
Qed.

(** A goal that is a call of a declarative predicate of the module is
    replaced by the bodies of its rules. *)
Lemma step_rules `{host : Host} projects s g sigma ps f args rules :
  existsb (String.eqb "constraints") (modules s) = true ->
  select g = Term f args ->
  bool_decide ((f, length args) = ("=", 2)) = false ->
  bool_decide ((f, length args) = ("throw", 1)) = false ->
  assoc (f, length args) (module_rules (tauModule projects)) = Some (Rules rules) ->
  step [tauModule projects] (mkThread s (mkState (Some g) sigma :: ps))
  = match resolve (mkState (Some g) sigma) (Term f args) rules with
    | Some states => Continue (mkThread s (states ++ ps))
    | None => Diverge
    end.
Proof.
  intros Hloaded Hsel Heq Hthrow Hassoc.
  unfold step. cbn [points goal session]. rewrite Hsel.
  cbn [indicator]. rewrite Heq, Hthrow.
  rewrite lookup_constraints by done. by rewrite Hassoc.
Qed.

(** A goal that is an equation is solved by unification. *)
Lemma step_unify library s g sigma ps v w :
  select g = Term "=" [v; w] ->
  step library (mkThread s (mkState (Some g) sigma :: ps))
  = match unify v w with
    | Unified mgu =>
        Continue (mkThread s (mkState (apply mgu <$> replace g None) (subst_apply sigma mgu) :: ps))
    | Mismatch => Continue (mkThread s ps)
    | UnifyDiverges => Diverge
    end.
Proof.
  intros Hsel. unfold step. cbn [points goal session]. rewrite Hsel.
  cbn [indicator length arg nth]. rewrite bool_decide_eq_true_2 by done.
  by destruct (unify v w).
Qed.

(** A goal that raises an error ends the query with that error. *)
Lemma step_throw library s g sigma ps error :
  select g = Term "throw" [error] ->
  step library (mkThread s (mkState (Some g) sigma :: ps)) = Raise error.
Proof.
  intros Hsel. unfold step. cbn [points goal session]. rewrite Hsel.
  cbn [indicator length arg nth].
  rewrite bool_decide_eq_false_2 by done. by rewrite bool_decide_eq_true_2 by done.
Qed.

(** ** Equations as goals *)

(** An equation between a variable and an atom binds the variable. *)
Lemma produces_bind library s x a sigma :
  produces library s (mkState (Some (termEquals (Var x) (inr a))) sigma) 2
    [subst_apply sigma {[ x := Term a [] ]}].
Proof.
  intros ps fuel Hend.
  change (2 + fuel) with (S (1 + fuel)).
  erewrite run_continue; last first.
  { rewrite (step_unify _ _ _ _ _ (Var x) (Term a [])) by done.
    rewrite unify_var_atom. reflexivity. }
  by apply produces_answer.
Qed.

(** An equation between an atom and itself holds and binds nothing. *)
Lemma produces_same_atom library s a sigma :
  produces library s (mkState (Some (termEquals (Term a []) (inr a))) sigma) 2 [sigma].
Proof.
  intros ps fuel Hend.
  change (2 + fuel) with (S (1 + fuel)).
  erewrite run_continue; last first.
  { rewrite (step_unify _ _ _ _ _ (Term a []) (Term a [])) by done.
    rewrite unify_atom_atom, bool_decide_eq_true_2 by done.
    rewrite subst_apply_empty. reflexivity. }
  by apply produces_answer.
Qed.

(** An equation between two atoms that differ, or between an atom and a
    number or a compound term, fails. *)
Lemma produces_mismatch library s v a sigma :
  isVariable v = false -> v <> Term a [] ->
  produces library s (mkState (Some (termEquals v (inr a))) sigma) 1 [].
Proof.
  intros Hvar Hne ps fuel Hend.
  change (1 + fuel) with (S fuel).
  erewrite run_continue; last first.
  { rewrite (step_unify _ _ _ _ _ v (Term a [])) by done.
    assert (Hu : unify v (Term a []) = Mismatch).
    { destruct (isAtom v) eqn:Hatom.
      - destruct v as [|?|f [|? ?]]; try done.
        rewrite unify_atom_atom. rewrite bool_decide_eq_false_2; [done|congruence].
      - by apply unify_other_atom. }
    rewrite Hu. reflexivity. }
  by rewrite add_answers_nil.
Qed.

(** ** [workspace/1] *)

Lemma subst_apply_bind_self x a :
  subst_apply (<[ x := Var x ]> ∅) {[ x := Term a [] ]} = {[ x := Term a [] ]}.
Proof.
  unfold subst_apply. rewrite fmap_insert, fmap_empty. simpl.
  by rewrite lookup_singleton_eq.
Qed.

Lemma singleton_binding_inj x (a b : string) :
  ({[ x := Term a [] ]} : gmap string Value) = {[ x := Term b [] ]} -> a = b.
Proof.
  intros Heq.
  assert (H : ({[ x := Term a [] ]} : gmap string Value) !! x = Some (Term b [])).
  { rewrite Heq. apply lookup_singleton_eq. }
  rewrite lookup_singleton_eq in H. congruence.
Qed.

(** The states that enumerate the paths of [ws] for the variable [x] give
    one answer per workspace. *)
Lemma enumerate_paths library s x sigma (ws : list Workspace) :
  Forall2 (fun st a => produces library s st 2 a)
    (map (fun goal => mkState (Some goal) sigma)
       (map (fun workspace => termEquals (Var x) (inr (relativeCwd workspace))) ws))
    (map (fun workspace => [subst_apply sigma {[ x := Term (relativeCwd workspace) [] ]}]) ws).
Proof.
  induction ws as [|w ws IH]; simpl; constructor; [|done].
  apply produces_bind.
Qed.

Lemma concat_singletons {A B : Type} (f : A -> B) (l : list A) :
  concat (map (fun a => [f a]) l) = map f l.
Proof. induction l as [|a l IH]; simpl; [done|]. by rewrite IH. Qed.

(** C1. On a session linked to a project, [workspace(X)] with [X] a
    variable has exactly one answer per workspace of the project, which
    binds [X] to the relative path of that workspace, in the order of the
    project's list of workspaces; the answers are as many as the
    workspaces, and no two are the same when no two workspaces have the
    same path. *)
Theorem workspace_enumerates_project `{host : Host} projects s project x fuel :
  linked_to projects s project ->
  let answers :=
    map (fun workspace => ({[ x := Term (relativeCwd workspace) [] ]} : gmap string Value))
        (workspaces project) in
  solve projects s (2 * length (workspaces project) + 2 + fuel) (term "workspace" [Var x])
  = (answers, Exhausted)
  /\ length answers = length (workspaces project)
  /\ (NoDup (map relativeCwd (workspaces project)) -> NoDup answers).
Proof.
  intros [Hproject Hloaded] answers. split; [|split].
  - unfold solve, query, term.
    replace (2 * length (workspaces project) + 2 + fuel)
      with (S (2 * length (workspaces project) + S fuel)) by lia.
    erewrite run_continue; last first.
    { rewrite (step_native projects s _ _ _ "workspace" [Var x] (workspace_1 projects));
        try done.
      unfold workspace_1. rewrite (getProject_linked _ _ project) by done.
      simpl. reflexivity. }
    unfold prependGoals, prepend, point_replace. simpl. rewrite app_nil_r.
    rewrite (run_states _ _ 2 _ _ _ _ (enumerate_paths _ s x _ (workspaces project)))
      by (by rewrite !length_map).
    f_equal. rewrite concat_singletons. unfold answers.
    apply map_ext. intros w. apply subst_apply_bind_self.
  - unfold answers. by rewrite length_map.
  - intros Hnodup. unfold answers.
    rewrite <- (map_map relativeCwd (fun p => ({[ x := Term p [] ]} : gmap string Value))).
    apply NoDup_fmap_2; [|done].
    intros a b. apply singleton_binding_inj.
Qed.

(** ** [workspace_ident/2] *)

(** A conjunction of two equations that bind two variables to atoms. *)
Lemma produces_bind_pair library s x y a b sigma :
  x <> y ->
  produces library s
    (mkState (Some (and (termEquals (Var x) (inr a)) (termEquals (Var y) (inr b)) [])) sigma) 3
    [subst_apply (subst_apply sigma {[ x := Term a [] ]}) {[ y := Term b [] ]}].
Proof.
  intros Hxy ps fuel Hend.
  change (3 + fuel) with (S (2 + fuel)).
  erewrite run_continue; last first.
  { rewrite (step_unify _ _ _ _ _ (Var x) (Term a [])) by done.
    rewrite unify_var_atom. simpl.
    rewrite lookup_singleton_ne by done. simpl. reflexivity. }
  by apply produces_bind.
Qed.

Lemma subst_apply_bind_pair x y a b :
  x <> y ->
  subst_apply (subst_apply (<[ x := Var x ]> (<[ y := Var y ]> ∅)) {[ x := Term a [] ]})
    {[ y := Term b [] ]}
  = <[ x := Term a [] ]> (<[ y := Term b [] ]> ∅).
Proof.
  intros Hxy. unfold subst_apply.
  rewrite !fmap_insert, !fmap_empty. simpl.
  rewrite lookup_singleton_eq. rewrite (lookup_singleton_ne x y) by done. simpl.
  by rewrite lookup_singleton_eq.
Qed.

(** States that bind two variables, one per element of a list. *)
Lemma enumerate_bindings {A : Type} (fa fb : A -> string) library s x y sigma (l : list A) :
  x <> y ->
  Forall2 (fun st a => produces library s st 3 a)
    (map (fun goal => mkState (Some goal) sigma)
       (map (fun e => and (termEquals (Var x) (inr (fa e))) (termEquals (Var y) (inr (fb e))) [])
            l))
    (map (fun e => [subst_apply (subst_apply sigma {[ x := Term (fa e) [] ]})
                      {[ y := Term (fb e) [] ]}])
         l).
Proof.
  intros Hxy.
  induction l as [|e l IH]; simpl; constructor; [|done].
  by apply produces_bind_pair.
Qed.

(** C3. On a session linked to a project, [workspace_ident(X, Y)] with two
    distinct variables has exactly one answer per workspace, which binds
    [X] to its relative path and [Y] to its stringified identifier; and
    [workspace_ident(X, i)] with [i] an identifier that [k] workspaces
    share has exactly [k] answers, one per workspace with that
    identifier, which binds [X] to its relative path. *)
Theorem workspace_ident_enumerates `{host : Host} projects s project x fuel :
  linked_to projects s project ->
  (forall y,
     x <> y ->
     solve projects s (3 * length (workspaces project) + 2 + fuel)
       (term "workspace_ident" [Var x; Var y])
     = (map (fun workspace =>
               <[ x := Term (relativeCwd workspace) [] ]>
                 (<[ y := Term (stringifyIdent (locator_ident (locator workspace))) [] ]> ∅))
            (workspaces project),
        Exhausted))
  /\ (forall i ident,
        parseIdent i = Ok ident ->
        index_consistent project ->
        let shared := workspaces_with_ident project (identHash ident) in
        solve projects s (2 * length shared + 2 + fuel) (term "workspace_ident" [Var x; Term i []])
        = (map (fun workspace =>
                  ({[ x := Term (relativeCwd workspace) [] ]} : gmap string Value))
               shared,
           Exhausted)).
Proof.
  intros [Hproject Hloaded]. split.
  - intros y Hxy. unfold solve, query, term.
    replace (3 * length (workspaces project) + 2 + fuel)
      with (S (3 * length (workspaces project) + S fuel)) by lia.
    erewrite run_continue; last first.
    { rewrite (step_native projects s _ _ _ "workspace_ident" [Var x; Var y]
                 (workspace_ident_2 projects)); try done.
      unfold workspace_ident_2. rewrite (getProject_linked _ _ project) by done.
      simpl. reflexivity. }
    unfold prependGoals, prepend, point_replace. simpl. rewrite app_nil_r.
    etrans.
    { apply (run_states _ _ 3 _ _ _ _ (enumerate_bindings relativeCwd
               (fun workspace => stringifyIdent (locator_ident (locator workspace)))
               _ s x y _ (workspaces project) Hxy)).
      by rewrite !length_map. }
    f_equal. rewrite (concat_singletons _ (workspaces project)).
    apply map_ext. intros w. by apply subst_apply_bind_pair.
  - intros i ident Hparse Hindex shared. unfold solve, query, term.
    replace (2 * length shared + 2 + fuel) with (S (2 * length shared + S fuel)) by lia.
    assert (Hstep :
      step [tauModule projects]
        (mkThread s [mkState (Some (Term "workspace_ident" [Var x; Term i []]))
                       (initial_substitution (Term "workspace_ident" [Var x; Term i []]))])
      = Continue (mkThread s
          (map (fun goal => mkState (Some goal)
                  (initial_substitution (Term "workspace_ident" [Var x; Term i []])))
             (map (fun workspace => termEquals (Var x) (inr (relativeCwd workspace))) shared)))).
    { rewrite (step_native projects s _ _ _ "workspace_ident" [Var x; Term i []]
                 (workspace_ident_2 projects)); try done.
      unfold workspace_ident_2. rewrite (getProject_linked _ _ project) by done.
      simpl. rewrite Hparse. simpl. rewrite Hindex. fold shared.
      destruct shared as [|w ws]; [done|].
      unfold prependGoals, prepend, point_replace. simpl. by rewrite app_nil_r. }
    rewrite (run_continue _ _ _ _ Hstep).
    etrans.
    { apply (run_states _ _ 2 _ _ _ _ (enumerate_paths _ s x _ shared)).
      by rewrite !length_map. }
    f_equal. rewrite (concat_singletons _ shared).
    apply map_ext. intros w'. apply subst_apply_bind_self.
Qed.

(** ** [workspace_field/3] *)


(** ** [workspace_field_test/4] *)


(** ** Fields that the raw manifest does not have *)

(** C5. The lookup of [workspace_field/3] finds more than the fields of
    the raw manifest.  The raw manifest of [packages/a] holds [name],
    [version] and [private], and no field [toString]; with the lookup of
    lodash, which resolves the members that an object inherits,
    [workspace_field('packages/a', toString, V)] has one answer, the
    string form of the inherited function, where the comment of the code
    on a field that is not present says that the predicate can never
    match. *)
Theorem workspace_field_inherited_member :
  tryWorkspaceByCwd Sample.project "packages/a" = Some Sample.pkg_a
  /\ raw (manifest Sample.pkg_a)
     = JObject [("name", JString "pkg"); ("version", JString "1.2.3");
                ("private", JBool false)]
  /\ solve (host := Sample.lodash_host) Sample.linked.1 Sample.linked.2 4
       (term "workspace_field" [Term "packages/a" []; Term "toString" []; Var "V"])
     = ([ {[ "V" := Term "function toString() { [native code] }" [] ]} ], Exhausted).
Proof.
  split; [reflexivity|]. split; [reflexivity|].
  vm_compute. reflexivity.
Qed.

(** C8. Two calls of [workspace_field_test/4] with three atoms and an
    instantiated list that end otherwise than by success for a truthy
    check, silent failure for a falsy check or an absent workspace or
    field, and an error for a check that cannot be evaluated.  With the
    lookup of lodash the field [toString], which the raw manifest of
    [packages/a] does not have, is found, and the check [true] succeeds
    where a field that is absent should give no answer.  With the list
    [[X]] as extras, which is instantiated as a list but cannot be turned
    into an array, the query ends with a type error before the check is
    evaluated, although the check [true] is well formed. *)
Theorem workspace_field_test_unlisted_outcomes :
  raw (manifest Sample.pkg_a)
  = JObject [("name", JString "pkg"); ("version", JString "1.2.3");
             ("private", JBool false)]
  /\ solve (host := Sample.lodash_host) Sample.linked.1 Sample.linked.2 3
       (term "workspace_field_test"
          [Term "packages/a" []; Term "toString" []; Term "true" []; Term "[]" []])
     = ([∅], Exhausted)
  /\ isInstantiatedList (Term "." [Var "X"; Term "[]" []]) = true
  /\ solve (host := Sample.lodash_host) Sample.linked.1 Sample.linked.2 3
       (term "workspace_field_test"
          [Term "packages/a" []; Term "name" []; Term "true" [];
           Term "." [Var "X"; Term "[]" []]])
     = ([], Thrown (TypeError "Cannot read properties of undefined")).
Proof.
  split; [reflexivity|]. split; [vm_compute; reflexivity|].
  split; [reflexivity|]. vm_compute. reflexivity.
Qed.

(** ** Predicates on a session without project *)

(** C6, amended.  On a session for which the registry holds no project,
    [workspace/1] and [workspace_ident/2] throw the assertion failure
    whatever their arguments are; [workspace_field/3],
    [workspace_field_test/4] and [internal_workspace_has_dependency/4]
    check their arguments first, and raise an instantiation error when the
    check fails and throw the assertion failure when it passes.  None of
    them returns without an error. *)
Theorem native_predicates_without_project `{host : Host} projects thread point atom :
  projects !! sid (session thread) = None ->
  let raised := Ok (throwError thread (instantiation (indicator atom))) in
  workspace_1 projects thread point atom = Throw assertion_failed
  /\ workspace_ident_2 projects thread point atom = Throw assertion_failed
  /\ workspace_field_3 projects thread point atom
     = (if isAtom (arg atom 0) && isAtom (arg atom 1) then Throw assertion_failed else raised)
  /\ workspace_field_test_4 projects thread point atom
     = (if isAtom (arg atom 0) && isAtom (arg atom 1) && isAtom (arg atom 2)
           && isInstantiatedList (arg atom 3)
        then Throw assertion_failed else raised)
  /\ internal_workspace_has_dependency_4 projects thread point atom
     = (if isAtom (arg atom 0) && isAtom (arg atom 3) then Throw assertion_failed else raised).
Proof.
  intros Hnone raised.
  assert (Hget : getProject projects thread = Throw assertion_failed).
  { unfold getProject. by rewrite Hnone. }
  repeat split.
  - unfold workspace_1. by rewrite Hget.
  - unfold workspace_ident_2. by rewrite Hget.
  - unfold workspace_field_3. rewrite Hget.
    by destruct (isAtom (arg atom 0)), (isAtom (arg atom 1)).
  - unfold workspace_field_test_4. rewrite Hget.
    by destruct (isAtom (arg atom 0)), (isAtom (arg atom 1)), (isAtom (arg atom 2)),
         (isInstantiatedList (arg atom 3)).
  - unfold internal_workspace_has_dependency_4. rewrite Hget.
    by destruct (isAtom (arg atom 0)), (isAtom (arg atom 3)).
Qed.

(** C6 as stated fails: on a session without project, [workspace_field/3]
    called with a variable as path raises an instantiation error and does
    not throw the assertion failure. *)
Lemma workspace_field_without_project_raises :
  let thread := mkThread Sample.unlinked [] in
  let atom := Term "workspace_field" [Var "W"; Term "name" []; Var "V"] in
  let point := mkState (Some atom) (initial_substitution atom) in
  (∅ : gmap nat Project) !! sid (session thread) = None
  /\ workspace_field_3 (host := Sample.sample_host) ∅ thread point atom
     = Ok (throwError thread (instantiation ("workspace_field", 3)))
  /\ workspace_field_3 (host := Sample.sample_host) ∅ thread point atom <> Throw assertion_failed
  /\ solve (host := Sample.sample_host) ∅ Sample.unlinked 2 atom = ([], Raised (instantiation ("workspace_field", 3))).
Proof. repeat split; try done. Qed.

(** ** The registry *)

Lemma play_other_sessions `{host : Host} events :
  forall projects n,
    Forall (fun e => ~ relinks n e) events ->
    play projects events !! n = projects !! n.
Proof.
  induction events as [|e events IH]; intros projects n Hevents; [done|].
  apply Forall_cons in Hevents as [He Hevents].
  unfold play in *. simpl. rewrite IH by done.
  destruct e as [s' project'|s' fuel goal]; simpl; [|done].
  apply lookup_insert_ne. exact He.
Qed.

(** C7, amended.  After [linkProjectToSession] has linked a session to a
    project, every lookup for that session gives that project, whatever
    queries run and whatever other sessions are linked in between, as long
    as the session itself is not linked anew; a new link of the session
    replaces its project. *)
Theorem registry_keeps_link `{host : Host} projects s project events ps :
  Forall (fun e => ~ relinks (sid s) e) events ->
  let linked := linkProjectToSession projects s project in
  sid linked.2 = sid s
  /\ getProject (play linked.1 events) (mkThread linked.2 ps) = Ok project
  /\ (forall project', 
        getProject (play linked.1 (events ++ [Linking linked.2 project'])) (mkThread linked.2 ps)
        = Ok project').
Proof.
  intros Hevents linked. split; [done|]. split.
  - unfold getProject. simpl. rewrite play_other_sessions by done.
    simpl. by rewrite lookup_insert_eq.
  - intros project'. unfold getProject, play. rewrite foldl_app. simpl.
    by rewrite lookup_insert_eq.
Qed.

(** C7 as stated fails: a session that is linked a second time is looked
    up with the second project, not with the first. *)
Lemma registry_link_is_replaced :
  let linked := linkProjectToSession ∅ Sample.session0 Sample.project in
  let registry := play (host := Sample.sample_host) linked.1 [Linking linked.2 Sample.other_project] in
  getProject linked.1 (mkThread linked.2 []) = Ok Sample.project
  /\ getProject registry (mkThread linked.2 []) = Ok Sample.other_project
  /\ getProject registry (mkThread linked.2 []) <> Ok Sample.project.
Proof.
  repeat split; done.
Qed.

(** ** Resolution of the rules of the module *)

Lemma state_variables_goal g sigma x :
  x ∈ variables g -> x ∈ state_variables (mkState (Some g) sigma).
Proof. intros Hx. unfold state_variables. simpl. apply elem_of_app. by left. Qed.

Lemma state_variables_value g sigma k v x :
  sigma !! k = Some v -> x ∈ variables v -> x ∈ state_variables (mkState g sigma).
Proof.
  intros Hk Hx. unfold state_variables. simpl. apply elem_of_app. right.
  apply list_elem_of_In, in_concat. exists (variables v). split.
  - apply in_map_iff. exists (k, v). split; [done|].
    apply list_elem_of_In. by apply elem_of_map_to_list.
  - by apply list_elem_of_In.
Qed.

(** A substitution for names that a state does not use leaves the bound
    values of the state as they are. *)
Lemma subst_apply_fresh g sigma (mgu : gmap string Value) :
  (forall n, is_Some (mgu !! n) -> n ∉ state_variables (mkState g sigma)) ->
  subst_apply sigma mgu = sigma.
Proof.
  intros Hfresh. unfold subst_apply. apply map_eq. intros k. rewrite lookup_fmap.
  destruct (sigma !! k) as [v|] eqn:Hk; simpl; [|done].
  f_equal. apply apply_fresh. intros x Hx.
  destruct (mgu !! x) as [t|] eqn:Hmgu; [|done].
  exfalso. apply (Hfresh x); [by rewrite Hmgu|].
  by apply (state_variables_value g sigma k v).
Qed.

Lemma not_in_cons_inv {A : Type} (x y : A) l : x ∉ y :: l -> x <> y /\ x ∉ l.
Proof. intros H. split; intros H'; apply H; [subst; by left|by right]. Qed.

(** The rule of [workspace_version/2] turns the goal
    [workspace_version(p, v)] into [workspace_field(p, version, v)]. *)
Lemma resolve_workspace_version sigma p v :
  let atom := Term "workspace_version" [p; v] in
  resolve (mkState (Some atom) sigma) atom
    [ rule
        (term "workspace_version" [variable "WorkspaceCwd"; variable "WorkspaceVersion"])
        (Some (term "workspace_field"
                 [variable "WorkspaceCwd"; term "version" []; variable "WorkspaceVersion"])) ]
  = Some [mkState (Some (Term "workspace_field" [p; Term "version" []; v])) sigma].
Proof.
  intros atom. set (point := mkState (Some atom) sigma).
  set (avoid := state_variables point).
  set (n1 := fresh_name avoid). set (n2 := fresh_name (n1 :: avoid)).
  assert (H1 : n1 ∉ avoid) by apply fresh_name_not_in.
  destruct (not_in_cons_inv _ _ _ (fresh_name_not_in (n1 :: avoid))) as [H21 H2].
  fold n2 in H21, H2.
  assert (Hargs : forall t x, t ∈ [v; p] -> x ∈ variables t -> x ∈ avoid).
  { intros t x Ht Hx. apply state_variables_goal. unfold atom. simpl.
    rewrite app_nil_r. apply elem_of_app.
    apply elem_of_cons in Ht as [->|Ht]; [by right|].
    apply list_elem_of_singleton in Ht as ->. by left. }
  assert (Hmgu : unify (Term "workspace_version" [Var n1; Var n2]) atom
                 = Unified (<[ n1 := p ]> (<[ n2 := v ]> ∅))).
  { unfold unify, atom. rewrite unify_loop_terms.
    rewrite bool_decide_eq_true_2 by done. simpl rev. simpl app.
    rewrite (unify_loop_fresh [(n2, v); (n1, p)]); [done|simpl; lia| | |].
    - simpl. apply NoDup_cons. split; [|apply NoDup_singleton].
      intros H. apply list_elem_of_singleton in H. done.
    - intros n t Hn Ht Hin. simpl in Hn, Ht.
      specialize (Hargs t n Ht Hin).
      apply elem_of_cons in Hn as [->|Hn]; [done|].
      apply list_elem_of_singleton in Hn as ->. done.
    - intros n k t _ Hk. by rewrite lookup_empty in Hk. }
  unfold resolve, rename, rule, term, variable. simpl.
  fold point. fold avoid. fold n1. fold n2.
  rewrite lookup_insert_eq.
  rewrite lookup_insert_ne by done. rewrite lookup_insert_eq. simpl.
  rewrite Hmgu. simpl.
  rewrite lookup_insert_eq.
  rewrite lookup_insert_ne by done. rewrite lookup_insert_eq. simpl.
  do 3 f_equal.
  apply (subst_apply_fresh (Some atom)). intros n [t Hn].
  fold point. fold avoid.
  destruct (decide (n = n1)) as [->|Hne1]; [done|].
  rewrite lookup_insert_ne in Hn by done.
  destruct (decide (n = n2)) as [->|Hne2]; [done|].
  rewrite lookup_insert_ne in Hn by done. by rewrite lookup_empty in Hn.
Qed.

(** ** [workspace_version/2] *)

(** C9. On a session that has consulted the module, for all terms [path]
    and [value] the goal [workspace_version(path, value)] takes one
    resolution step to become [workspace_field(path, version, value)], and
    so has the same answers, in the same order, and the same ending. *)
Theorem workspace_version_is_field `{host : Host} projects s path value fuel :
  existsb (String.eqb "constraints") (modules s) = true ->
  solve projects s (S fuel) (term "workspace_version" [path; value])
  = solve projects s fuel (term "workspace_field" [path; term "version" []; value]).
Proof.
  intros Hloaded. unfold solve, query, term.
  erewrite run_continue; last first.
  { erewrite (step_rules projects s _ _ _ "workspace_version" [path; value]); try done.
    rewrite resolve_workspace_version. reflexivity. }
  unfold initial_substitution. simpl. reflexivity.
Qed.

(** ** [workspace_has_dependency/4] *)

#[local] Arguments fresh_name : simpl never.

(** The body of the rule of [workspace_has_dependency/4], for the arguments
    of a call. *)
Lemma resolve_workspace_has_dependency `{host : Host} projects sigma a b c d rules :
  let atom := Term "workspace_has_dependency" [a; b; c; d] in
  assoc ("workspace_has_dependency", 4) (module_rules (tauModule projects)) = Some (Rules rules) ->
  resolve (mkState (Some atom) sigma) atom rules
  = Some [mkState
            (Some (Term ","
                     [Term "," [Term "workspace" [a]; Term "dependency_type" [d]];
                      Term "internal_workspace_has_dependency" [a; b; c; d]]))
            sigma].
Proof.
  intros atom Hrules. injection Hrules as <-.
  set (point := mkState (Some atom) sigma).
  set (avoid := state_variables point).
  set (n1 := fresh_name avoid). set (n2 := fresh_name (n1 :: avoid)).
  set (n3 := fresh_name (n2 :: n1 :: avoid)). set (n4 := fresh_name (n3 :: n2 :: n1 :: avoid)).
  assert (H1 : n1 ∉ avoid) by apply fresh_name_not_in.
  destruct (not_in_cons_inv _ _ _ (fresh_name_not_in (n1 :: avoid))) as [H21 H2].
  fold n2 in H21, H2.
  destruct (not_in_cons_inv _ _ _ (fresh_name_not_in (n2 :: n1 :: avoid))) as [H32 H3'].
  fold n3 in H32, H3'. apply not_in_cons_inv in H3' as [H31 H3].
  destruct (not_in_cons_inv _ _ _ (fresh_name_not_in (n3 :: n2 :: n1 :: avoid))) as [H43 H4'].
  fold n4 in H43, H4'. apply not_in_cons_inv in H4' as [H42 H4'].
  apply not_in_cons_inv in H4' as [H41 H4].
  assert (Hargs : forall t x, t ∈ [d; c; b; a] -> x ∈ variables t -> x ∈ avoid).
  { intros t x Ht Hx. apply state_variables_goal. unfold atom. simpl.
    rewrite app_nil_r. rewrite !elem_of_app.
    rewrite !elem_of_cons in Ht. destruct Ht as [->|[->|[->|[->|Ht]]]]; auto.
    by apply elem_of_nil in Ht. }
  assert (Hmgu : unify (Term "workspace_has_dependency" [Var n1; Var n2; Var n3; Var n4]) atom
                 = Unified (<[ n1 := a ]> (<[ n2 := b ]> (<[ n3 := c ]> (<[ n4 := d ]> ∅))))).
  { unfold unify, atom. rewrite unify_loop_terms.
    rewrite bool_decide_eq_true_2 by done. simpl rev. simpl app.
    rewrite (unify_loop_fresh [(n4, d); (n3, c); (n2, b); (n1, a)]); [done|simpl; lia| | |].
    - simpl. repeat (apply NoDup_cons; split); [| | | |apply NoDup_nil_2];
        rewrite ?elem_of_cons, ?elem_of_nil; intuition congruence.
    - intros n t Hn Ht Hin. simpl in Hn, Ht.
      specialize (Hargs t n Ht Hin).
      rewrite !elem_of_cons in Hn. destruct Hn as [->|[->|[->|[->|Hn]]]]; try done.
      by apply elem_of_nil in Hn.
    - intros n k t _ Hk. by rewrite lookup_empty in Hk. }
  unfold resolve, rename, rule, term, variable.
  cbn [rule_variables head body variables map concat app from_option fresh_renaming
       apply fmap option_fmap option_map and term].
  fold point. fold avoid. fold n1. fold n2. fold n3. fold n4.
  repeat (rewrite lookup_insert_eq || rewrite lookup_insert_ne by done). simpl.
  rewrite Hmgu.
  cbn [point_replace goal replace is_conj String.eqb Ascii.eqb Bool.eqb fmap option_fmap option_map
       apply map substitution].
  repeat (rewrite lookup_insert_eq || rewrite lookup_insert_ne by done). simpl.
  do 3 f_equal.
  apply (subst_apply_fresh (Some atom)). intros n [t Hn].
  fold point. fold avoid.
  destruct (decide (n = n1)) as [->|Hne1]; [done|].
  rewrite lookup_insert_ne in Hn by done.
  destruct (decide (n = n2)) as [->|Hne2]; [done|].
  rewrite lookup_insert_ne in Hn by done.
  destruct (decide (n = n3)) as [->|Hne3]; [done|].
  rewrite lookup_insert_ne in Hn by done.
  destruct (decide (n = n4)) as [->|Hne4]; [done|].
  rewrite lookup_insert_ne in Hn by done. by rewrite lookup_empty in Hn.
Qed.

(** The three facts of [dependency_type/1], tried in their order. *)
Lemma resolve_dependency_type `{host : Host} projects point d rules :
  assoc ("dependency_type", 1) (module_rules (tauModule projects)) = Some (Rules rules) ->
  resolve point (Term "dependency_type" [d]) rules
  = Some (fact_states point d DependencyType.Dependencies
          ++ fact_states point d DependencyType.DevDependencies
          ++ fact_states point d DependencyType.PeerDependencies)%list.
Proof.
  intros Hrules. injection Hrules as <-.
  unfold resolve, rename, rule, term.
  cbn [rule_variables head body variables map concat app from_option fresh_renaming
       apply fmap option_fmap option_map].
  rewrite !unify_fact. unfold fact_states.
  destruct d as [y|n|g [|a args]]; try done.
  repeat case_bool_decide; simpl; rewrite ?fmap_apply_empty, ?subst_apply_empty; done.
Qed.

(** [workspace/1] called with an atom. *)
Lemma step_workspace_bound `{host : Host} projects s project g sigma ps cwd :
  linked_to projects s project ->
  select g = Term "workspace" [Term cwd []] ->
  step [tauModule projects] (mkThread s (mkState (Some g) sigma :: ps))
  = Continue (mkThread s
      (match tryWorkspaceByCwd project cwd with
       | Some _ => [mkState (replace g None) sigma]
       | None => []
       end ++ ps)).
Proof.
  intros [Hproject Hloaded] Hsel.
  rewrite (step_native projects s _ _ _ "workspace" [Term cwd []] (workspace_1 projects));
    try done.
  unfold workspace_1. rewrite (getProject_linked _ _ project) by done. simpl.
  by destruct (tryWorkspaceByCwd project cwd).
Qed.

(** The search for [workspace_has_dependency(cwd, I, R, ty)] with the path
    of a workspace, two distinct variables and one of the three types. *)
Lemma workspace_has_dependency_run `{host : Host} projects s project cwd workspace ty i r
    declared fuel :
  linked_to projects s project ->
  tryWorkspaceByCwd project cwd = Some workspace ->
  i <> r ->
  ty ∈ [DependencyType.Dependencies; DependencyType.DevDependencies;
        DependencyType.PeerDependencies] ->
  manifest_index (manifest workspace) ty = Partition declared ->
  solve projects s (3 * length declared + 5 + fuel)
    (term "workspace_has_dependency" [Term cwd []; Var i; Var r; Term ty []])
  = (map (fun d =>
            <[ i := Term (stringifyIdent (descriptor_ident d)) [] ]>
              (<[ r := Term (range d) [] ]> ∅))
         (map_values declared),
     Exhausted).
Proof.
  intros Hlinked Hw Hir Hty Hdeclared.
  destruct Hlinked as [Hproject Hloaded].
  unfold solve, query, term.
  replace (3 * length declared + 5 + fuel)
    with (S (S (S (S (3 * length declared + S fuel))))) by lia.
  (* the rule *)
  erewrite run_continue; last first.
  { erewrite (step_rules projects s _ _ _ "workspace_has_dependency"
                [Term cwd []; Var i; Var r; Term ty []]); try done.
    erewrite (resolve_workspace_has_dependency projects) by done. reflexivity. }
  (* workspace/1 *)
  erewrite run_continue; last first.
  { cbn [app]. erewrite (step_workspace_bound projects s project _ _ _ cwd); [|done|done].
    rewrite Hw. reflexivity. }
  (* dependency_type/1 *)
  erewrite run_continue; last first.
  { cbn [app]. simpl (replace _ _).
    erewrite (step_rules projects s _ _ _ "dependency_type" [Term ty []]); try done.
    erewrite (resolve_dependency_type projects) by done. reflexivity. }
  assert (Hstates :
    forall point,
      (fact_states point (Term ty []) DependencyType.Dependencies
       ++ fact_states point (Term ty []) DependencyType.DevDependencies
       ++ fact_states point (Term ty []) DependencyType.PeerDependencies)%list
      = [mkState (point_replace point None) (substitution point)]).
  { intros point. rewrite !elem_of_cons in Hty.
    destruct Hty as [->|[->|[->|Hty]]]; [done|done|done|].
    by apply elem_of_nil in Hty. }
  rewrite Hstates. clear Hstates.
  (* the helper *)
  erewrite run_continue; last first.
  { cbn [app point_replace goal substitution]. simpl (replace _ _).
    erewrite (step_native projects s _ _ _ "internal_workspace_has_dependency"
                [Term cwd []; Var i; Var r; Term ty []]
                (internal_workspace_has_dependency_4 projects)); try done.
    unfold internal_workspace_has_dependency_4.
    rewrite (getProject_linked _ _ project) by done.
    unfold getWorkspaceByCwd. simpl. rewrite Hw. simpl. rewrite Hdeclared. reflexivity. }
  unfold prependGoals, prepend, point_replace. simpl. rewrite app_nil_r.
  etrans.
  { apply (run_states _ _ 3 _ _ _ _
             (enumerate_bindings (fun d => stringifyIdent (descriptor_ident d)) range
                _ s i r _ (map_values declared) Hir)).
    unfold map_values. by rewrite !length_map. }
  f_equal. rewrite (concat_singletons _ (map_values declared)).
  apply map_ext. intros d. by apply subst_apply_bind_pair.
Qed.

(** The same search with an atom that names no dependency type. *)
Lemma workspace_has_dependency_other_type `{host : Host} projects s project cwd workspace ty
    i r fuel :
  linked_to projects s project ->
  tryWorkspaceByCwd project cwd = Some workspace ->
  ty ∉ [DependencyType.Dependencies; DependencyType.DevDependencies;
        DependencyType.PeerDependencies] ->
  solve projects s (4 + fuel)
    (term "workspace_has_dependency" [Term cwd []; Var i; Var r; Term ty []])
  = ([], Exhausted).
Proof.
  intros Hlinked Hw Hty.
  destruct Hlinked as [Hproject Hloaded].
  unfold solve, query, term.
  change (4 + fuel) with (S (S (S (S fuel)))).
  erewrite run_continue; last first.
  { erewrite (step_rules projects s _ _ _ "workspace_has_dependency"
                [Term cwd []; Var i; Var r; Term ty []]); try done.
    erewrite (resolve_workspace_has_dependency projects) by done. reflexivity. }
  erewrite run_continue; last first.
  { cbn [app]. erewrite (step_workspace_bound projects s project _ _ _ cwd); [|done|done].
    rewrite Hw. reflexivity. }
  erewrite run_continue; last first.
  { cbn [app]. simpl (replace _ _).
    erewrite (step_rules projects s _ _ _ "dependency_type" [Term ty []]); try done.
    erewrite (resolve_dependency_type projects) by done.
    unfold fact_states.
    rewrite !bool_decide_eq_false_2; [reflexivity| | |];
      intros <-; apply Hty; rewrite !elem_of_cons; auto. }
  done.
Qed.

(** C2. On a session linked to a project, for a workspace found under the
    path [cwd], one of the three dependency types and two distinct
    variables, [workspace_has_dependency(cwd, I, R, ty)] has exactly one
    answer per dependency declared under that type, in the order of the
    declarations, which binds [I] to the stringified identifier and [R] to
    the range of the dependency.  For a workspace that declares ["a"] at
    ["^1.0.0"] and then ["b"] at ["^2.0.0"] under ["dependencies"], the
    answers are these two, in this order.  For an atom that is none of the
    three types, nothing is declared and there is no answer. *)
Theorem workspace_has_dependency_enumerates `{host : Host} projects s project cwd workspace
    i r fuel :
  linked_to projects s project ->
  tryWorkspaceByCwd project cwd = Some workspace ->
  i <> r ->
  (forall ty declared,
     ty ∈ [DependencyType.Dependencies; DependencyType.DevDependencies;
           DependencyType.PeerDependencies] ->
     manifest_index (manifest workspace) ty = Partition declared ->
     solve projects s (3 * length declared + 5 + fuel)
       (term "workspace_has_dependency" [Term cwd []; Var i; Var r; Term ty []])
     = (map (fun d =>
               <[ i := Term (stringifyIdent (descriptor_ident d)) [] ]>
                 (<[ r := Term (range d) [] ]> ∅))
            (map_values declared),
        Exhausted))
  /\ (forall ha hb da db,
        dependencies (manifest workspace) = [(ha, da); (hb, db)] ->
        stringifyIdent (descriptor_ident da) = "a" -> range da = "^1.0.0" ->
        stringifyIdent (descriptor_ident db) = "b" -> range db = "^2.0.0" ->
        solve projects s (11 + fuel)
          (term "workspace_has_dependency"
             [Term cwd []; Var i; Var r; Term DependencyType.Dependencies []])
        = ([ <[ i := Term "a" [] ]> (<[ r := Term "^1.0.0" [] ]> ∅);
             <[ i := Term "b" [] ]> (<[ r := Term "^2.0.0" [] ]> ∅) ],
           Exhausted))
  /\ (forall ty,
        ty ∉ [DependencyType.Dependencies; DependencyType.DevDependencies;
              DependencyType.PeerDependencies] ->
        solve projects s (4 + fuel)
          (term "workspace_has_dependency" [Term cwd []; Var i; Var r; Term ty []])
        = ([], Exhausted)).
Proof.
  intros Hlinked Hw Hir. split; [|split].
  - intros ty declared Hty Hdeclared.
    by apply (workspace_has_dependency_run projects s project cwd workspace).
  - intros ha hb da db Hdeps Ha Hra Hb Hrb.
    rewrite (workspace_has_dependency_run projects s project cwd workspace
               DependencyType.Dependencies i r [(ha, da); (hb, db)] fuel Hlinked Hw Hir).
    + simpl. by rewrite Ha, Hra, Hb, Hrb.
    + by left.
    + unfold manifest_index. simpl. by rewrite Hdeps.
  - intros ty Hty.
    by apply (workspace_has_dependency_other_type projects s project cwd workspace).
Qed.

(** ** Arguments that are neither atoms nor variables *)

Lemma apply_not_atom subs t :
  isAtom t = false -> isVariable t = false ->
  isAtom (apply subs t) = false /\ isVariable (apply subs t) = false.
Proof. by destruct t as [x|n|f [|a args]]. Qed.

Lemma fact_states_other point d ty :
  isAtom d = false -> isVariable d = false -> fact_states point d ty = [].
Proof. by destruct d as [x|n|f [|a args]]. Qed.

(** A branch that binds the path and then meets a dependency type that is
    neither an atom nor a variable gives no answer. *)
Lemma produces_bad_type `{host : Host} projects s x cwd b c t helper sigma :
  existsb (String.eqb "constraints") (modules s) = true ->
  isAtom t = false -> isVariable t = false ->
  produces [tauModule projects] s
    (mkState
       (Some (Term "," [Term "," [termEquals (Var x) (inr cwd); Term "dependency_type" [t]];
                        Term helper [Var x; b; c; t]]))
       sigma)
    2 [].
Proof.
  intros Hloaded Hatom Hvar ps fuel Hend.
  destruct (apply_not_atom {[ x := Term cwd [] ]} t Hatom Hvar) as [Hatom' Hvar'].
  change (2 + fuel) with (S (S fuel)).
  erewrite run_continue; last first.
  { rewrite (step_unify _ _ _ _ _ (Var x) (Term cwd [])) by done.
    rewrite unify_var_atom. reflexivity. }
  erewrite run_continue; last first.
  { simpl (replace _ _). cbn [fmap option_fmap option_map apply map].
    erewrite (step_rules projects s _ _ _ "dependency_type"
                [apply {[ x := Term cwd [] ]} t]); try done.
    erewrite (resolve_dependency_type projects) by done.
    rewrite !fact_states_other by done. reflexivity. }
  by rewrite add_answers_nil.
Qed.

Lemma enumerate_bad_type `{host : Host} projects s x b c t helper sigma (ws : list Workspace) :
  existsb (String.eqb "constraints") (modules s) = true ->
  isAtom t = false -> isVariable t = false ->
  Forall2 (fun st a => produces [tauModule projects] s st 2 a)
    (map (fun goal =>
            mkState
              (Some (Term "," [Term "," [goal; Term "dependency_type" [t]];
                               Term helper [Var x; b; c; t]]))
              sigma)
         (map (fun workspace => termEquals (Var x) (inr (relativeCwd workspace))) ws))
    (map (fun _ => []) ws).
Proof.
  intros Hloaded Hatom Hvar.
  induction ws as [|w ws IH]; simpl; constructor; [|done].
  by apply produces_bad_type.
Qed.

Lemma concat_nils {A B : Type} (l : list A) : concat (map (fun _ => @nil B) l) = [].
Proof. induction l as [|a l IH]; simpl; done. Qed.

(** The state that [thread.throwError] puts on the stack ends the query
    with its error. *)
Lemma run_throwError library s ps error fuel :
  run library (S fuel) (throwError (mkThread s ps) error) = ([], Raised error).
Proof. by apply run_raise, step_throw. Qed.

(** C4, amended.  On a session linked to a project, a call whose workspace
    path is neither an atom nor a variable raises an instantiation error:
    [workspace_ident/2] and [workspace_field/3] raise it under their own
    indicator ([workspace_field/3] also for such a field name, and for an
    unbound path or field name), and [workspace_has_dependency/4] raises it
    under the indicator of [workspace/1], which solves the path first.  A
    dependency type that is neither an atom nor a variable raises no
    error: with an atom or a variable as path, [dependency_type/1] matches
    none of its facts and the call has no answer. *)
Theorem malformed_arguments `{host : Host} projects s project fuel :
  linked_to projects s project ->
  (forall p i,
     isAtom p = false -> isVariable p = false ->
     solve projects s (2 + fuel) (term "workspace_ident" [p; i])
     = ([], Raised (instantiation ("workspace_ident", 2))))
  /\ (forall p f v,
        isAtom p = false \/ isAtom f = false ->
        solve projects s (2 + fuel) (term "workspace_field" [p; f; v])
        = ([], Raised (instantiation ("workspace_field", 3))))
  /\ (forall p i r t,
        isAtom p = false -> isVariable p = false ->
        solve projects s (3 + fuel) (term "workspace_has_dependency" [p; i; r; t])
        = ([], Raised (instantiation ("workspace", 1))))
  /\ (forall cwd i r t,
        isAtom t = false -> isVariable t = false ->
        solve projects s (4 + fuel) (term "workspace_has_dependency" [Term cwd []; i; r; t])
        = ([], Exhausted))
  /\ (forall x i r t,
        isAtom t = false -> isVariable t = false ->
        solve projects s (2 * length (workspaces project) + 3 + fuel)
          (term "workspace_has_dependency" [Var x; i; r; t])
        = ([], Exhausted)).
Proof.
  intros [Hproject Hloaded]. repeat split.
  - intros p i Hatom Hvar. unfold solve, query, term.
    change (2 + fuel) with (S (S fuel)).
    erewrite run_continue; last first.
    { rewrite (step_native projects s _ _ _ "workspace_ident" [p; i]
                 (workspace_ident_2 projects)); try done.
      unfold workspace_ident_2. rewrite (getProject_linked _ _ project) by done.
      simpl. rewrite Hatom, Hvar. reflexivity. }
    apply run_throwError.
  - intros p f v Hbad. unfold solve, query, term.
    change (2 + fuel) with (S (S fuel)).
    erewrite run_continue; last first.
    { rewrite (step_native projects s _ _ _ "workspace_field" [p; f; v]
                 (workspace_field_3 projects)); try done.
      unfold workspace_field_3. simpl.
      assert (Hcheck : negb (isAtom p) || negb (isAtom f) = true).
      { destruct Hbad as [-> | ->]; [done|]. by destruct (isAtom p). }
      rewrite Hcheck. reflexivity. }
    apply run_throwError.
  - intros p i r t Hatom Hvar. unfold solve, query, term.
    change (3 + fuel) with (S (S (S fuel))).
    erewrite run_continue; last first.
    { erewrite (step_rules projects s _ _ _ "workspace_has_dependency" [p; i; r; t]);
        try done.
      erewrite (resolve_workspace_has_dependency projects) by done. reflexivity. }
    erewrite run_continue; last first.
    { cbn [app].
      rewrite (step_native projects s _ _ _ "workspace" [p] (workspace_1 projects));
        try done.
      unfold workspace_1. rewrite (getProject_linked _ _ project) by done.
      simpl. rewrite Hatom, Hvar. reflexivity. }
    apply run_throwError.
  - intros cwd i r t Hatom Hvar. unfold solve, query, term.
    change (4 + fuel) with (S (S (S (S fuel)))).
    erewrite run_continue; last first.
    { erewrite (step_rules projects s _ _ _ "workspace_has_dependency"
                  [Term cwd []; i; r; t]); try done.
      erewrite (resolve_workspace_has_dependency projects) by done. reflexivity. }
    erewrite run_continue; last first.
    { cbn [app]. by erewrite (step_workspace_bound projects s project _ _ _ cwd). }
    destruct (tryWorkspaceByCwd project cwd) as [w|]; [|done].
    erewrite run_continue; last first.
    { cbn [app]. simpl (replace _ _).
      erewrite (step_rules projects s _ _ _ "dependency_type" [t]); try done.
      erewrite (resolve_dependency_type projects) by done.
      rewrite !fact_states_other by done. reflexivity. }
    done.
  - intros x i r t Hatom Hvar. unfold solve, query, term.
    replace (2 * length (workspaces project) + 3 + fuel)
      with (S (S (2 * length (workspaces project) + S fuel))) by lia.
    erewrite run_continue; last first.
    { erewrite (step_rules projects s _ _ _ "workspace_has_dependency" [Var x; i; r; t]);
        try done.
      erewrite (resolve_workspace_has_dependency projects) by done. reflexivity. }
    erewrite run_continue; last first.
    { cbn [app].
      rewrite (step_native projects s _ _ _ "workspace" [Var x] (workspace_1 projects));
        try done.
      unfold workspace_1. rewrite (getProject_linked _ _ project) by done.
      simpl. reflexivity. }
    unfold prependGoals, prepend, point_replace. simpl. rewrite app_nil_r.
    etrans.
    { apply (run_states _ _ 2 _ _ _ _
               (enumerate_bad_type projects s x i r t "internal_workspace_has_dependency"
                  _ (workspaces project) Hloaded Hatom Hvar)).
      by rewrite !length_map. }
    by rewrite concat_nils.
Qed.

(** C4 as stated fails: with a compound term as dependency type,
    [workspace_has_dependency/4] has no answer and raises no error. *)
Lemma compound_dependency_type_fails_silently :
  let t := Term "foo" [Var "Z"] in
  isAtom t = false /\ isVariable t = false
  /\ solve (host := Sample.sample_host) Sample.linked.1 Sample.linked.2 10
       (term "workspace_has_dependency" [Term "." []; Var "I"; Var "R"; t])
     = ([], Exhausted).
Proof. repeat split; vm_compute; reflexivity. Qed.

(** ** The helper of [workspace_has_dependency/4] *)

Lemma Forall_on_path_map {A : Type} project (f : A -> State) (l : list A) :
  (forall e, e ∈ l -> on_path project (goal (f e))) ->
  Forall (fun st => on_path project (goal st)) (map f l).
Proof.
  intros H. apply Forall_forall. intros st Hst.
  apply list_elem_of_In, in_map_iff in Hst as (e & <- & He).
  apply H. by apply list_elem_of_In.
Qed.

(** The step at hand continues: it is no answer, and its thread is the one
    that the hypothesis names. *)
Ltac continued H :=
  destruct H as [H|[? H]]; [|done]; injection H as <-.

(** A step from a point on the path puts points on the path on the stack. *)
Lemma on_path_step `{host : Host} projects s project point ps thread' :
  linked_to projects s project ->
  paths_consistent project ->
  on_path project (goal point) ->
  (step [tauModule projects] (mkThread s (point :: ps)) = Continue thread'
   \/ exists answer, step [tauModule projects] (mkThread s (point :: ps)) = Answer answer thread') ->
  exists sts,
    thread' = mkThread s (sts ++ ps)
    /\ Forall (fun st => on_path project (goal st)) sts.
Proof.
  intros Hlinked Hpaths Hpoint Hstep.
  assert (Hl := Hlinked). destruct Hl as [Hproject Hloaded].
  destruct point as [g sigma]. simpl in Hpoint.
  inversion Hpoint as [a b c d|a b c d|x w b c d Hw|cwd w b c d Hw|cwd w b c ty Hw Hty
                      |v a|v1 a1 v2 a2| |e]; subst g.
  - (* the call *)
    erewrite (step_rules projects s _ _ _ "workspace_has_dependency" [a; b; c; d]) in Hstep;
      try done.
    erewrite (resolve_workspace_has_dependency projects) in Hstep by done.
    continued Hstep.
    eexists [_]. split; [reflexivity|]. repeat constructor.
  - (* the body: workspace/1 *)
    rewrite (step_native projects s _ _ _ "workspace" [a] (workspace_1 projects)) in Hstep;
      try done.
    unfold workspace_1 in Hstep. rewrite (getProject_linked _ _ project) in Hstep by done.
    cbn [bind arg nth] in Hstep.
    destruct a as [x|n|f [|a0 args]]; cbn [isAtom isVariable negb id_of] in Hstep.
    + continued Hstep.
      eexists. split; [reflexivity|].
      rewrite map_map. apply Forall_on_path_map. intros w Hw. simpl.
      by apply at_branch.
    + continued Hstep.
      exists [mkState (Some (Term "throw" [instantiation ("workspace", 1)])) ∅].
      split; [reflexivity|]. repeat constructor.
    + destruct (tryWorkspaceByCwd project f) as [w|] eqn:Hw;
        continued Hstep.
      * eexists [_]. split; [reflexivity|]. constructor; [|done]. simpl.
        by apply (at_type project f w).
      * by exists [].
    + continued Hstep.
      exists [mkState (Some (Term "throw" [instantiation ("workspace", 1)])) ∅].
      split; [reflexivity|]. repeat constructor.
  - (* a branch: the path is bound *)
    rewrite (step_unify _ _ _ _ _ (Var x) (Term (relativeCwd w) [])) in Hstep by done.
    rewrite unify_var_atom in Hstep.
    continued Hstep.
    eexists [_]. split; [reflexivity|]. constructor; [|done]. simpl.
    rewrite lookup_singleton_eq. simpl.
    apply (at_type project (relativeCwd w) w). by apply Hpaths.
  - (* dependency_type/1 *)
    erewrite (step_rules projects s _ _ _ "dependency_type" [d]) in Hstep; try done.
    erewrite (resolve_dependency_type projects) in Hstep by done.
    continued Hstep.
    eexists. split; [reflexivity|].
    rewrite !Forall_app. unfold fact_states.
    destruct d as [y|n|f [|a0 args]]; try by repeat split.
    + repeat split; (constructor; [|done]); simpl; rewrite lookup_singleton_eq;
        apply (at_helper project cwd w); try done; unfold dependency_types;
        rewrite !elem_of_cons; auto.
    + repeat split; case_bool_decide; try done; subst f;
        (constructor; [|done]); simpl;
        apply (at_helper project cwd w); try done; unfold dependency_types;
        rewrite !elem_of_cons; auto.
  - (* the helper *)
    rewrite (step_native projects s _ _ _ "internal_workspace_has_dependency"
               [Term cwd []; b; c; Term ty []]
               (internal_workspace_has_dependency_4 projects)) in Hstep; try done.
    unfold internal_workspace_has_dependency_4 in Hstep.
    rewrite (getProject_linked _ _ project) in Hstep by done.
    unfold getWorkspaceByCwd in Hstep.
    cbn [bind arg nth isAtom negb orb id_of] in Hstep. rewrite Hw in Hstep.
    cbn [bind] in Hstep.
    assert (Hindex : exists declared, manifest_index (manifest w) ty = Partition declared).
    { unfold dependency_types in Hty. rewrite !elem_of_cons in Hty.
      destruct Hty as [->|[->|[->|Hty]]]; [by eexists|by eexists|by eexists|].
      by apply elem_of_nil in Hty. }
    destruct Hindex as [declared Hindex]. rewrite Hindex in Hstep.
    destruct b as [y|n|f [|a0 args]]; cbn [isAtom isVariable negb id_of] in Hstep.
    + continued Hstep.
      eexists. split; [reflexivity|].
      rewrite map_map. apply Forall_on_path_map. intros e He. simpl.
      apply at_equations.
    + continued Hstep.
      eexists [_]. split; [reflexivity|]. repeat constructor.
    + destruct (parseIdent f) as [ident|err]; cbn [bind] in Hstep.
      2: { by destruct Hstep as [Hstep|[ans Hstep]]. }
      destruct (map_get declared (identHash ident)) as [descriptor|];
        continued Hstep.
      * eexists [_]. split; [reflexivity|]. constructor; [|done]. simpl.
        apply at_equation.
      * by exists [].
    + continued Hstep.
      eexists [_]. split; [reflexivity|]. repeat constructor.
  - (* an equation *)
    rewrite (step_unify _ _ _ _ _ v (Term a [])) in Hstep by done.
    destruct (unify v (Term a [])) as [mgu| |];
      (destruct Hstep as [Hstep|[ans Hstep]]; [|done]); try done; injection Hstep as <-.
    + eexists [_]. split; [reflexivity|]. constructor; [|done]. simpl. constructor.
    + by exists [].
  - (* two equations *)
    rewrite (step_unify _ _ _ _ _ v1 (Term a1 [])) in Hstep by done.
    destruct (unify v1 (Term a1 [])) as [mgu| |];
      (destruct Hstep as [Hstep|[ans Hstep]]; [|done]); try done; injection Hstep as <-.
    + eexists [_]. split; [reflexivity|]. constructor; [|done]. simpl.
      apply (at_equation project (apply mgu v2) a2).
    + by exists [].
  - (* an answer *)
    destruct Hstep as [Hstep|[ans Hstep]]; [done|].
    injection Hstep as _ <-. by exists [].
  - (* an error *)
    rewrite (step_throw _ _ _ _ _ e) in Hstep by done.
    by destruct Hstep as [Hstep|[ans Hstep]].
Qed.

(** Every point of a search for [workspace_has_dependency/4] is on the
    path. *)
Lemma reaches_on_path `{host : Host} projects s project a b c d thread :
  linked_to projects s project ->
  paths_consistent project ->
  reaches [tauModule projects] (query s (term "workspace_has_dependency" [a; b; c; d])) thread ->
  session thread = s /\ Forall (fun st => on_path project (goal st)) (points thread).
Proof.
  intros Hlinked Hpaths Hreach.
  induction Hreach as [|thread thread' _ [Hs IH] Hstep|thread ans thread' _ [Hs IH] Hstep].
  - split; [done|]. repeat constructor.
  - destruct thread as [s' [|point ps]]; simpl in Hs, IH; subst s'; [done|].
    apply Forall_cons in IH as [Hpoint Hps].
    destruct (on_path_step projects s project point ps thread' Hlinked Hpaths Hpoint)
      as (sts & -> & Hsts); [by left|].
    split; [done|]. simpl. by apply Forall_app.
  - destruct thread as [s' [|point ps]]; simpl in Hs, IH; subst s'; [done|].
    apply Forall_cons in IH as [Hpoint Hps].
    destruct (on_path_step projects s project point ps thread' Hlinked Hpaths Hpoint)
      as (sts & -> & Hsts); [right; by exists ans|].
    split; [done|]. simpl. by apply Forall_app.
Qed.

(** C10. In a search for [workspace_has_dependency(a, b, c, d)], whatever
    the four arguments are, on a session linked to a project that finds
    each of its workspaces under its relative path: whenever the goal to
    solve next is a call of [internal_workspace_has_dependency/4], its
    first argument is an atom under which the project finds a workspace,
    and its fourth argument is the atom of one of the three dependency
    types.  So the check of the helper passes, its instantiation-error
    branch is not taken, and its lookup of the workspace does not throw. *)
Theorem helper_arguments_are_bound `{host : Host} projects s project a b c d thread point ps atom :
  linked_to projects s project ->
  paths_consistent project ->
  reaches [tauModule projects] (query s (term "workspace_has_dependency" [a; b; c; d])) thread ->
  points thread = point :: ps ->
  select <$> goal point = Some atom ->
  indicator atom = ("internal_workspace_has_dependency", 4) ->
  exists cwd workspace ty,
    arg atom 0 = Term cwd []
    /\ arg atom 3 = Term ty []
    /\ ty ∈ dependency_types
    /\ getWorkspaceByCwd project cwd = Ok workspace
    /\ negb (isAtom (arg atom 0)) || negb (isAtom (arg atom 3)) = false.
Proof.
  intros Hlinked Hpaths Hreach Hpoints Hsel Hind.
  destruct (reaches_on_path projects s project a b c d thread Hlinked Hpaths Hreach)
    as [_ Hall].
  rewrite Hpoints in Hall. apply Forall_cons in Hall as [Hpoint _].
  destruct point as [g sigma]. simpl in Hpoint, Hsel.
  inversion Hpoint as [a' b' c' d'|a' b' c' d'|x w b' c' d' Hw|cwd w b' c' d' Hw
                      |cwd w b' c' ty Hw Hty|v e|v1 e1 v2 e2| |e]; subst g;
    simpl in Hsel; try discriminate Hsel;
    injection Hsel as <-; try discriminate Hind.
  exists cwd, w, ty. repeat split; try done.
  unfold getWorkspaceByCwd. by rewrite Hw.
Qed.

(** * The properties on the sample project *)

Lemma reaches_next library start thread :
  reaches library start thread -> reaches library start (next_thread library thread).
Proof.
  intros H. unfold next_thread.
  destruct (step library thread) as [t'|ans t'| | | |] eqn:Hstep; try done.
  - by apply (reaches_continue _ _ thread).
  - by apply (reaches_answer _ _ thread ans).
Qed.

Lemma sample_index_consistent : index_consistent Sample.project.
Proof.
  intros h. unfold workspaces_with_ident. simpl.
  destruct (decide (h = "root")) as [->|Hroot]; [done|].
  destruct (decide (h = "pkg")) as [->|Hpkg]; [done|].
  rewrite !lookup_insert_ne by done. rewrite lookup_empty.
  rewrite !filter_cons, filter_nil. simpl.
  by rewrite !decide_False by done.
Qed.

Lemma sample_paths_consistent : paths_consistent Sample.project.
Proof.
  intros w Hw. simpl in Hw. rewrite !elem_of_cons in Hw.
  destruct Hw as [->|[->|[->|Hw]]]; [done|done|done|].
  by apply elem_of_nil in Hw.
Qed.

Lemma workspace_enumerates_project_witness :
  linked_to Sample.linked.1 Sample.linked.2 Sample.project
  /\ solve (host := Sample.sample_host) Sample.linked.1 Sample.linked.2 8
       (term "workspace" [Var "X"])
     = ([ {[ "X" := Term "." [] ]}; {[ "X" := Term "packages/a" [] ]};
          {[ "X" := Term "packages/b" [] ]} ],
        Exhausted).
Proof.
  assert (H : linked_to Sample.linked.1 Sample.linked.2 Sample.project)
    by (split; reflexivity).
  split; [exact H|].
  exact (proj1 (workspace_enumerates_project (host := Sample.sample_host) _ _ _ "X" 0 H)).
Defined.

Lemma workspace_has_dependency_enumerates_witness :
  linked_to Sample.linked.1 Sample.linked.2 Sample.project
  /\ tryWorkspaceByCwd Sample.project "packages/a" = Some Sample.pkg_a
  /\ "I" <> "R"
  /\ solve (host := Sample.sample_host) Sample.linked.1 Sample.linked.2 11
       (term "workspace_has_dependency"
          [Term "packages/a" []; Var "I"; Var "R"; Term "dependencies" []])
     = ([ <[ "I" := Term "a" [] ]> (<[ "R" := Term "^1.0.0" [] ]> ∅);
          <[ "I" := Term "b" [] ]> (<[ "R" := Term "^2.0.0" [] ]> ∅) ],
        Exhausted).
Proof.
  assert (H : linked_to Sample.linked.1 Sample.linked.2 Sample.project)
    by (split; reflexivity).
  assert (Hw : tryWorkspaceByCwd Sample.project "packages/a" = Some Sample.pkg_a)
    by reflexivity.
  assert (Hir : "I" <> "R") by discriminate.
  split; [exact H|]. split; [exact Hw|]. split; [exact Hir|].
  exact (proj1 (proj2 (workspace_has_dependency_enumerates (host := Sample.sample_host)
                         _ _ _ _ _ "I" "R" 0 H Hw Hir))
           "a" "b" _ _ eq_refl eq_refl eq_refl eq_refl eq_refl).
Defined.

Lemma workspace_ident_enumerates_witness :
  linked_to Sample.linked.1 Sample.linked.2 Sample.project
  /\ solve (host := Sample.sample_host) Sample.linked.1 Sample.linked.2 11
       (term "workspace_ident" [Var "X"; Var "Y"])
     = ([ <[ "X" := Term "." [] ]> (<[ "Y" := Term "root" [] ]> ∅);
          <[ "X" := Term "packages/a" [] ]> (<[ "Y" := Term "pkg" [] ]> ∅);
          <[ "X" := Term "packages/b" [] ]> (<[ "Y" := Term "pkg" [] ]> ∅) ],
        Exhausted)
  /\ solve (host := Sample.sample_host) Sample.linked.1 Sample.linked.2 6
       (term "workspace_ident" [Var "X"; Term "pkg" []])
     = ([ {[ "X" := Term "packages/a" [] ]}; {[ "X" := Term "packages/b" [] ]} ], Exhausted).
Proof.
  assert (H : linked_to Sample.linked.1 Sample.linked.2 Sample.project)
    by (split; reflexivity).
  assert (Hxy : "X" <> "Y") by discriminate.
  pose proof (workspace_ident_enumerates (host := Sample.sample_host) _ _ _ "X" 0 H)
    as [Hboth Hident].
  split; [exact H|]. split.
  - exact (Hboth "Y" Hxy).
  - exact (Hident "pkg" (Sample.ident_of "pkg") eq_refl sample_index_consistent).
Defined.

Lemma malformed_arguments_witness :
  let partial := Term "foo" [Var "Z"] in
  linked_to Sample.linked.1 Sample.linked.2 Sample.project
  /\ solve (host := Sample.sample_host) Sample.linked.1 Sample.linked.2 2
       (term "workspace_ident" [partial; Var "Y"])
     = ([], Raised (instantiation ("workspace_ident", 2)))
  /\ solve (host := Sample.sample_host) Sample.linked.1 Sample.linked.2 2
       (term "workspace_field" [Term "." []; partial; Var "V"])
     = ([], Raised (instantiation ("workspace_field", 3)))
  /\ solve (host := Sample.sample_host) Sample.linked.1 Sample.linked.2 3
       (term "workspace_has_dependency" [partial; Var "I"; Var "R"; Var "T"])
     = ([], Raised (instantiation ("workspace", 1)))
  /\ solve (host := Sample.sample_host) Sample.linked.1 Sample.linked.2 4
       (term "workspace_has_dependency" [Term "." []; Var "I"; Var "R"; partial])
     = ([], Exhausted)
  /\ solve (host := Sample.sample_host) Sample.linked.1 Sample.linked.2 9
       (term "workspace_has_dependency" [Var "W"; Var "I"; Var "R"; partial])
     = ([], Exhausted).
Proof.
  intros partial.
  assert (H : linked_to Sample.linked.1 Sample.linked.2 Sample.project)
    by (split; reflexivity).
  pose proof (malformed_arguments (host := Sample.sample_host) _ _ _ 0 H)
    as (Hident & Hfield & Hpath & Htype & Htypes).
  split; [exact H|]. split; [|split; [|split; [|split]]].
  - exact (Hident partial (Var "Y") eq_refl eq_refl).
  - exact (Hfield (Term "." []) partial (Var "V") (or_intror eq_refl)).
  - exact (Hpath partial (Var "I") (Var "R") (Var "T") eq_refl eq_refl).
  - exact (Htype "." (Var "I") (Var "R") partial eq_refl eq_refl).
  - exact (Htypes "W" (Var "I") (Var "R") partial eq_refl eq_refl).
Defined.


Lemma native_predicates_without_project_witness :
  let thread := mkThread Sample.unlinked [] in
  let atom := Term "workspace_field" [Term "." []; Term "name" []; Var "V"] in
  let point := mkState (Some atom) (initial_substitution atom) in
  (∅ : gmap nat Project) !! sid (session thread) = None
  /\ workspace_1 (∅ : gmap nat Project) thread point atom = Throw assertion_failed
  /\ workspace_field_3 (host := Sample.sample_host) ∅ thread point atom
     = Throw assertion_failed
  /\ workspace_field_test_4 (host := Sample.sample_host) ∅ thread point atom
     = Ok (throwError thread (instantiation ("workspace_field", 3))).
Proof.
  intros thread atom point.
  assert (H : (∅ : gmap nat Project) !! sid (session thread) = None) by reflexivity.
  pose proof (native_predicates_without_project (host := Sample.sample_host)
                ∅ thread point atom H) as (H1 & _ & H3 & H4 & _).
  split; [exact H|]. split; [exact H1|]. split; [exact H3|exact H4].
Defined.

Lemma registry_keeps_link_witness :
  Forall (fun e => ~ relinks (sid Sample.session0) e) Sample.history
  /\ getProject (play (host := Sample.sample_host) Sample.linked.1 Sample.history)
       (mkThread Sample.linked.2 [])
     = Ok Sample.project.
Proof.
  assert (H : Forall (fun e => ~ relinks (sid Sample.session0) e) Sample.history).
  { repeat constructor; simpl; try tauto. discriminate. }
  split; [exact H|].
  exact (proj1 (proj2 (registry_keeps_link (host := Sample.sample_host)
                         ∅ Sample.session0 Sample.project Sample.history [] H))).
Defined.


Lemma workspace_version_is_field_witness :
  existsb (String.eqb "constraints") (modules Sample.linked.2) = true
  /\ solve (host := Sample.sample_host) Sample.linked.1 Sample.linked.2 5
       (term "workspace_version" [Term "packages/a" []; Var "V"])
     = solve (host := Sample.sample_host) Sample.linked.1 Sample.linked.2 4
         (term "workspace_field" [Term "packages/a" []; term "version" []; Var "V"]).
Proof.
  assert (H : existsb (String.eqb "constraints") (modules Sample.linked.2) = true)
    by reflexivity.
  split; [exact H|].
  exact (workspace_version_is_field (host := Sample.sample_host)
           Sample.linked.1 Sample.linked.2 (Term "packages/a" []) (Var "V") 4 H).
Defined.

Lemma helper_arguments_are_bound_witness :
  let atom :=
    Term "internal_workspace_has_dependency"
      [Term "packages/a" []; Var "I"; Var "R"; Term "dependencies" []] in
  linked_to Sample.linked.1 Sample.linked.2 Sample.project
  /\ reaches [tauModule (host := Sample.sample_host) Sample.linked.1]
       (query Sample.linked.2 Sample.helper_goal) Sample.helper_thread
  /\ points Sample.helper_thread
     = [mkState (Some atom) (initial_substitution Sample.helper_goal)]
  /\ exists cwd workspace ty,
       arg atom 0 = Term cwd []
       /\ arg atom 3 = Term ty []
       /\ ty ∈ dependency_types
       /\ getWorkspaceByCwd Sample.project cwd = Ok workspace
       /\ negb (isAtom (arg atom 0)) || negb (isAtom (arg atom 3)) = false.
Proof.
  intros atom.
  assert (H : linked_to Sample.linked.1 Sample.linked.2 Sample.project)
    by (split; reflexivity).
  assert (Hreach : reaches [tauModule (host := Sample.sample_host) Sample.linked.1]
                     (query Sample.linked.2 Sample.helper_goal) Sample.helper_thread).
  { do 3 apply reaches_next. apply reaches_start. }
  split; [exact H|]. split; [exact Hreach|]. split; [reflexivity|].
  exact (helper_arguments_are_bound (host := Sample.sample_host)
           Sample.linked.1 Sample.linked.2 Sample.project
           (Term "packages/a" []) (Var "I") (Var "R") (Term "dependencies" [])
           Sample.helper_thread
           (mkState (Some atom) (initial_substitution Sample.helper_goal)) [] atom
           H sample_paths_consistent Hreach eq_refl eq_refl eq_refl).
Defined.

(** * Further properties of the module *)

(** ** [dependency_type/1] *)

Lemma subst_apply_insert (links subs : gmap string Value) k v :
  subst_apply (<[ k := v ]> links) subs = <[ k := apply subs v ]> (subst_apply links subs).
Proof. unfold subst_apply. by rewrite fmap_insert. Qed.

Lemma subst_apply_nil (subs : gmap string Value) : subst_apply ∅ subs = ∅.
Proof. unfold subst_apply. by rewrite fmap_empty. Qed.

(** X1. On a session that has consulted the module, with or without a
    project, [dependency_type(X)] with a variable has exactly three
    answers, ["dependencies"], ["devDependencies"] and
    ["peerDependencies"], in this order; with an atom it is a membership
    test, which succeeds once for these three atoms and fails for every
    other; with a number or a compound term it fails without error. *)
Theorem dependency_type_enumerates `{host : Host} projects s fuel :
  existsb (String.eqb "constraints") (modules s) = true ->
  (forall x,
     solve projects s (5 + fuel) (term "dependency_type" [Var x])
     = ([ {[ x := Term "dependencies" [] ]}; {[ x := Term "devDependencies" [] ]};
          {[ x := Term "peerDependencies" [] ]} ],
        Exhausted))
  /\ (forall ty,
        solve projects s (3 + fuel) (term "dependency_type" [Term ty []])
        = (if bool_decide (ty ∈ dependency_types) then [∅] else [], Exhausted))
  /\ (forall t,
        isAtom t = false -> isVariable t = false ->
        solve projects s (2 + fuel) (term "dependency_type" [t]) = ([], Exhausted)).
Proof.
  intros Hloaded. split; [|split].
  - intros x. unfold solve, query, term.
    change (5 + fuel) with (S (S (S (S (S fuel))))).
    erewrite run_continue; last first.
    { erewrite (step_rules projects s _ _ _ "dependency_type" [Var x]); try done.
      erewrite (resolve_dependency_type projects) by done. reflexivity. }
    unfold fact_states, point_replace, initial_substitution. simpl.
    rewrite !insert_empty. unfold subst_apply. rewrite !map_fmap_singleton. simpl.
    rewrite !lookup_singleton_eq. reflexivity.
  - intros ty. unfold solve, query, term.
    change (3 + fuel) with (S (S (S fuel))).
    erewrite run_continue; last first.
    { erewrite (step_rules projects s _ _ _ "dependency_type" [Term ty []]); try done.
      erewrite (resolve_dependency_type projects) by done. reflexivity. }
    unfold fact_states, dependency_types.
    repeat case_bool_decide; subst; try done;
      exfalso; rewrite !elem_of_cons in *; rewrite ?elem_of_nil in *; intuition congruence.
  - intros t Hatom Hvar. unfold solve, query, term.
    change (2 + fuel) with (S (S fuel)).
    erewrite run_continue; last first.
    { erewrite (step_rules projects s _ _ _ "dependency_type" [t]); try done.
      erewrite (resolve_dependency_type projects) by done.
      rewrite !fact_states_other by done. reflexivity. }
    done.
Qed.

(** ** [workspace/1] with a bound path *)

(** X2. On a session linked to a project, [workspace(cwd)] with an atom is
    a membership test: it succeeds once, without binding, when the project
    finds a workspace under [cwd], and fails otherwise; with a number or a
    compound term it raises an instantiation error.  Every path that the
    enumeration gives passes the test, when the project finds each of its
    workspaces under its relative path. *)
Theorem workspace_membership `{host : Host} projects s project fuel :
  linked_to projects s project ->
  (forall cwd,
     solve projects s (3 + fuel) (term "workspace" [Term cwd []])
     = (match tryWorkspaceByCwd project cwd with
        | Some _ => [∅]
        | None => []
        end, Exhausted))
  /\ (forall t,
        isAtom t = false -> isVariable t = false ->
        solve projects s (2 + fuel) (term "workspace" [t])
        = ([], Raised (instantiation ("workspace", 1))))
  /\ (paths_consistent project ->
      forall workspace,
        workspace ∈ workspaces project ->
        solve projects s (3 + fuel) (term "workspace" [Term (relativeCwd workspace) []])
        = ([∅], Exhausted)).
Proof.
  intros Hlinked.
  assert (Hbound : forall cwd,
    solve projects s (3 + fuel) (term "workspace" [Term cwd []])
    = (match tryWorkspaceByCwd project cwd with
       | Some _ => [∅]
       | None => []
       end, Exhausted)).
  { intros cwd. unfold solve, query, term.
    change (3 + fuel) with (S (S (S fuel))).
    erewrite run_continue; last first.
    { by erewrite (step_workspace_bound projects s project _ _ _ cwd). }
    by destruct (tryWorkspaceByCwd project cwd). }
  split; [exact Hbound|]. split.
  - destruct Hlinked as [Hproject Hloaded].
    intros t Hatom Hvar. unfold solve, query, term.
    change (2 + fuel) with (S (S fuel)).
    erewrite run_continue; last first.
    { rewrite (step_native projects s _ _ _ "workspace" [t] (workspace_1 projects));
        try done.
      unfold workspace_1. rewrite (getProject_linked _ _ project) by done.
      simpl. rewrite Hatom, Hvar. reflexivity. }
    apply run_throwError.
  - intros Hpaths w Hw. rewrite Hbound. by rewrite (Hpaths w Hw).
Qed.

(** ** [workspace_ident/2] with a bound path *)

(** X3. On a session linked to a project, [workspace_ident(cwd, I)] with an
    atom as path resolves the identifier of the workspace: with a variable
    [I] there is one answer, which binds it to the stringified identifier;
    with that identifier as atom the call succeeds once; with any other
    atom it fails; and when no workspace is under [cwd] it fails.  A
    second argument that is neither an atom nor a variable raises an
    instantiation error, also when no workspace is under [cwd]: the
    argument is checked before the lookup is used. *)
Theorem workspace_ident_of_path `{host : Host} projects s project cwd fuel :
  linked_to projects s project ->
  (forall i,
     isAtom i = false -> isVariable i = false ->
     solve projects s (2 + fuel) (term "workspace_ident" [Term cwd []; i])
     = ([], Raised (instantiation ("workspace_ident", 2))))
  /\ (forall i,
        isAtom i = true \/ isVariable i = true ->
        tryWorkspaceByCwd project cwd = None ->
        solve projects s (2 + fuel) (term "workspace_ident" [Term cwd []; i])
        = ([], Exhausted))
  /\ (forall workspace,
        tryWorkspaceByCwd project cwd = Some workspace ->
        let ident := stringifyIdent (locator_ident (locator workspace)) in
        (forall y,
           solve projects s (4 + fuel) (term "workspace_ident" [Term cwd []; Var y])
           = ([ {[ y := Term ident [] ]} ], Exhausted))
        /\ solve projects s (4 + fuel) (term "workspace_ident" [Term cwd []; Term ident []])
           = ([∅], Exhausted)
        /\ (forall other,
              other <> ident ->
              solve projects s (4 + fuel) (term "workspace_ident" [Term cwd []; Term other []])
              = ([], Exhausted))).
Proof.
  intros [Hproject Hloaded]. split; [|split].
  - intros i Hatom Hvar. unfold solve, query, term.
    change (2 + fuel) with (S (S fuel)).
    erewrite run_continue; last first.
    { rewrite (step_native projects s _ _ _ "workspace_ident" [Term cwd []; i]
                 (workspace_ident_2 projects)); try done.
      unfold workspace_ident_2. rewrite (getProject_linked _ _ project) by done.
      simpl. rewrite Hatom, Hvar. reflexivity. }
    apply run_throwError.
  - intros i Hi Hnone. unfold solve, query, term.
    change (2 + fuel) with (S (S fuel)).
    erewrite run_continue; last first.
    { rewrite (step_native projects s _ _ _ "workspace_ident" [Term cwd []; i]
                 (workspace_ident_2 projects)); try done.
      unfold workspace_ident_2. rewrite (getProject_linked _ _ project) by done.
      simpl. rewrite Hnone.
      assert (Hcheck : negb (isAtom i) && negb (isVariable i) = false).
      { destruct Hi as [-> | ->]; [done|]. by destruct (isAtom i). }
      rewrite Hcheck. reflexivity. }
    done.
  - intros w Hw ident.
    assert (Hstep : forall i,
      isAtom i = true \/ isVariable i = true ->
      let atom := Term "workspace_ident" [Term cwd []; i] in
      step [tauModule projects] (mkThread s [mkState (Some atom) (initial_substitution atom)])
      = Continue (mkThread s
          [mkState (Some (termEquals i (inr ident))) (initial_substitution atom)])).
    { intros i Hi atom.
      rewrite (step_native projects s _ _ _ "workspace_ident" [Term cwd []; i]
                 (workspace_ident_2 projects)); try done.
      unfold workspace_ident_2. rewrite (getProject_linked _ _ project) by done.
      simpl. rewrite Hw.
      assert (Hcheck : negb (isAtom i) && negb (isVariable i) = false).
      { destruct Hi as [-> | ->]; [done|]. by destruct (isAtom i). }
      rewrite Hcheck. reflexivity. }
    split; [|split].
    + intros y. unfold solve, query, term.
      change (4 + fuel) with (S (2 + S fuel)).
      rewrite (run_continue _ _ _ _ (Hstep (Var y) (or_intror eq_refl))).
      etrans.
      { eapply (produces_run _ _ _ 2), produces_bind. }
      do 2 f_equal. apply subst_apply_bind_self.
    + unfold solve, query, term.
      change (4 + fuel) with (S (2 + S fuel)).
      rewrite (run_continue _ _ _ _ (Hstep (Term ident []) (or_introl eq_refl))).
      eapply (produces_run _ _ _ 2), produces_same_atom.
    + intros other Hother. unfold solve, query, term.
      change (4 + fuel) with (S (2 + S fuel)).
      rewrite (run_continue _ _ _ _ (Hstep (Term other []) (or_introl eq_refl))).
      eapply (produces_run _ _ _ 2), (produces_mono _ _ _ 1); [|lia].
      apply produces_mismatch; [done|congruence].
Qed.

(** ** [workspace_ident/2] with an unbound path *)

(** X4. On a session linked to a project, [workspace_ident(X, i)] with a
    variable as path: an atom [i] that [parseIdent] rejects ends the query
    with the exception of [parseIdent]; an identifier for which the index
    of the project has no entry gives no answer and no error; a second
    argument that is neither an atom nor a variable raises an
    instantiation error. *)
Theorem workspace_ident_unbound_path `{host : Host} projects s project x fuel :
  linked_to projects s project ->
  (forall i e,
     parseIdent i = Throw e ->
     solve projects s (1 + fuel) (term "workspace_ident" [Var x; Term i []])
     = ([], Thrown e))
  /\ (forall i ident,
        parseIdent i = Ok ident ->
        workspacesByIdent project !! identHash ident = None ->
        solve projects s (2 + fuel) (term "workspace_ident" [Var x; Term i []])
        = ([], Exhausted))
  /\ (forall t,
        isAtom t = false -> isVariable t = false ->
        solve projects s (2 + fuel) (term "workspace_ident" [Var x; t])
        = ([], Raised (instantiation ("workspace_ident", 2)))).
Proof.
  intros [Hproject Hloaded]. split; [|split].
  - intros i e Hparse. unfold solve, query, term.
    change (1 + fuel) with (S fuel).
    apply run_crash.
    rewrite (step_native projects s _ _ _ "workspace_ident" [Var x; Term i []]
               (workspace_ident_2 projects)); try done.
    unfold workspace_ident_2. rewrite (getProject_linked _ _ project) by done.
    simpl. by rewrite Hparse.
  - intros i ident Hparse Hnone. unfold solve, query, term.
    change (2 + fuel) with (S (S fuel)).
    erewrite run_continue; last first.
    { rewrite (step_native projects s _ _ _ "workspace_ident" [Var x; Term i []]
                 (workspace_ident_2 projects)); try done.
      unfold workspace_ident_2. rewrite (getProject_linked _ _ project) by done.
      simpl. rewrite Hparse. simpl. rewrite Hnone. reflexivity. }
    done.
  - intros t Hatom Hvar. unfold solve, query, term.
    change (2 + fuel) with (S (S fuel)).
    erewrite run_continue; last first.
    { rewrite (step_native projects s _ _ _ "workspace_ident" [Var x; t]
                 (workspace_ident_2 projects)); try done.
      unfold workspace_ident_2. rewrite (getProject_linked _ _ project) by done.
      simpl. rewrite Hatom, Hvar. reflexivity. }
    apply run_throwError.
Qed.

(** ** [workspace_field_test/3] and [workspace_field_test/4] *)

(** The rule of [workspace_field_test/3] turns the goal
    [workspace_field_test(p, f, c)] into [workspace_field_test(p, f, c, [])]. *)
Lemma resolve_workspace_field_test sigma p f c :
  let atom := Term "workspace_field_test" [p; f; c] in
  resolve (mkState (Some atom) sigma) atom
    [ rule
        (term "workspace_field_test"
           [variable "WorkspaceCwd"; variable "FieldName"; variable "CheckCode"])
        (Some (term "workspace_field_test"
                 [variable "WorkspaceCwd"; variable "FieldName"; variable "CheckCode";
                  term "[]" []])) ]
  = Some [mkState (Some (Term "workspace_field_test" [p; f; c; Term "[]" []])) sigma].
Proof.
  intros atom. set (point := mkState (Some atom) sigma).
  set (avoid := state_variables point).
  set (n1 := fresh_name avoid). set (n2 := fresh_name (n1 :: avoid)).
  set (n3 := fresh_name (n2 :: n1 :: avoid)).
  assert (H1 : n1 ∉ avoid) by apply fresh_name_not_in.
  destruct (not_in_cons_inv _ _ _ (fresh_name_not_in (n1 :: avoid))) as [H21 H2].
  fold n2 in H21, H2.
  destruct (not_in_cons_inv _ _ _ (fresh_name_not_in (n2 :: n1 :: avoid))) as [H32 H3'].
  fold n3 in H32, H3'. apply not_in_cons_inv in H3' as [H31 H3].
  assert (Hargs : forall t x, t ∈ [c; f; p] -> x ∈ variables t -> x ∈ avoid).
  { intros t x Ht Hx. apply state_variables_goal. unfold atom. simpl.
    rewrite app_nil_r. rewrite !elem_of_app.
    rewrite !elem_of_cons in Ht. destruct Ht as [->|[->|[->|Ht]]]; auto.
    by apply elem_of_nil in Ht. }
  assert (Hmgu : unify (Term "workspace_field_test" [Var n1; Var n2; Var n3]) atom
                 = Unified (<[ n1 := p ]> (<[ n2 := f ]> (<[ n3 := c ]> ∅)))).
  { unfold unify, atom. rewrite unify_loop_terms.
    rewrite bool_decide_eq_true_2 by done. simpl rev. simpl app.
    rewrite (unify_loop_fresh [(n3, c); (n2, f); (n1, p)]); [done|simpl; lia| | |].
    - simpl. repeat (apply NoDup_cons; split); [| | |apply NoDup_nil_2];
        rewrite ?elem_of_cons, ?elem_of_nil; intuition congruence.
    - intros n t Hn Ht Hin. simpl in Hn, Ht.
      specialize (Hargs t n Ht Hin).
      rewrite !elem_of_cons in Hn. destruct Hn as [->|[->|[->|Hn]]]; try done.
      by apply elem_of_nil in Hn.
    - intros n k t _ Hk. by rewrite lookup_empty in Hk. }
  unfold resolve, rename, rule, term, variable.
  cbn [rule_variables head body variables map concat app from_option fresh_renaming
       apply fmap option_fmap option_map term].
  fold point. fold avoid. fold n1. fold n2. fold n3.
  repeat (rewrite lookup_insert_eq || rewrite lookup_insert_ne by done). simpl.
  rewrite Hmgu.
  cbn [point_replace goal replace is_conj fmap option_fmap option_map apply map substitution].
  repeat (rewrite lookup_insert_eq || rewrite lookup_insert_ne by done). simpl.
  do 3 f_equal.
  apply (subst_apply_fresh (Some atom)). intros n [t Hn].
  fold point. fold avoid.
  destruct (decide (n = n1)) as [->|Hne1]; [done|].
  rewrite lookup_insert_ne in Hn by done.
  destruct (decide (n = n2)) as [->|Hne2]; [done|].
  rewrite lookup_insert_ne in Hn by done.
  destruct (decide (n = n3)) as [->|Hne3]; [done|].
  rewrite lookup_insert_ne in Hn by done. by rewrite lookup_empty in Hn.
Qed.

(** X5. On a session that has consulted the module, for all terms the goal
    [workspace_field_test(p, f, c)] takes one resolution step to become
    [workspace_field_test(p, f, c, [])], and so has the same answers and
    the same ending as the call with the empty list of extras. *)
Theorem workspace_field_test_3_is_4 `{host : Host} projects s p f c fuel :
  existsb (String.eqb "constraints") (modules s) = true ->
  solve projects s (S fuel) (term "workspace_field_test" [p; f; c])
  = solve projects s fuel (term "workspace_field_test" [p; f; c; term "[]" []]).
Proof.
  intros Hloaded. unfold solve, query, term.
  erewrite run_continue; last first.
  { erewrite (step_rules projects s _ _ _ "workspace_field_test" [p; f; c]); try done.
    rewrite resolve_workspace_field_test. reflexivity. }
  unfold initial_substitution. simpl. reflexivity.
Qed.

(** X6. On a session that has consulted the module, linked to a project or
    not, [workspace_field_test/4] raises an instantiation error when its
    path, its field name or its check is not an atom, or when its extras
    are not an instantiated list: the arguments are checked before the
    project is looked up. *)
Theorem workspace_field_test_guard `{host : Host} projects s p f c extras fuel :
  existsb (String.eqb "constraints") (modules s) = true ->
  isAtom p = false \/ isAtom f = false \/ isAtom c = false
  \/ isInstantiatedList extras = false ->
  solve projects s (2 + fuel) (term "workspace_field_test" [p; f; c; extras])
  = ([], Raised (instantiation ("workspace_field_test", 4))).
Proof.
  intros Hloaded Hbad. unfold solve, query, term.
  change (2 + fuel) with (S (S fuel)).
  erewrite run_continue; last first.
  { rewrite (step_native projects s _ _ _ "workspace_field_test" [p; f; c; extras]
               (workspace_field_test_4 projects)); try done.
    unfold workspace_field_test_4. cbn [arg nth].
    assert (Hcheck : negb (isAtom p) || negb (isAtom f) || negb (isAtom c)
                     || negb (isInstantiatedList extras) = true).
    { destruct Hbad as [-> | [-> | [-> | ->]]]; simpl;
        rewrite ?orb_true_r; done. }
    rewrite Hcheck. reflexivity. }
  apply run_throwError.
Qed.

(** ** [workspace_has_dependency/4]: the lookup of one dependency *)

(** The search for [workspace_has_dependency(cwd, b, c, ty)], with the path
    of a workspace and one of the three types, comes to the call of the
    helper in three steps. *)
Lemma run_to_helper `{host : Host} projects s project cwd workspace ty b c fuel :
  linked_to projects s project ->
  tryWorkspaceByCwd project cwd = Some workspace ->
  ty ∈ dependency_types ->
  let goal := Term "workspace_has_dependency" [Term cwd []; b; c; Term ty []] in
  run [tauModule projects] (3 + fuel) (query s goal)
  = run [tauModule projects] fuel
      (mkThread s
         [mkState (Some (Term "internal_workspace_has_dependency" [Term cwd []; b; c; Term ty []]))
            (initial_substitution goal)]).
Proof.
  intros [Hproject Hloaded] Hw Hty goal. unfold query, goal.
  change (3 + fuel) with (S (S (S fuel))).
  erewrite run_continue; last first.
  { erewrite (step_rules projects s _ _ _ "workspace_has_dependency"
                [Term cwd []; b; c; Term ty []]); try done.
    erewrite (resolve_workspace_has_dependency projects) by done. reflexivity. }
  erewrite run_continue; last first.
  { cbn [app]. erewrite (step_workspace_bound projects s project _ _ _ cwd); [|done|done].
    rewrite Hw. reflexivity. }
  erewrite run_continue; last first.
  { cbn [app]. simpl (replace _ _).
    erewrite (step_rules projects s _ _ _ "dependency_type" [Term ty []]); try done.
    erewrite (resolve_dependency_type projects) by done. reflexivity. }
  assert (Hstates :
    forall point,
      (fact_states point (Term ty []) DependencyType.Dependencies
       ++ fact_states point (Term ty []) DependencyType.DevDependencies
       ++ fact_states point (Term ty []) DependencyType.PeerDependencies)%list
      = [mkState (point_replace point None) (substitution point)]).
  { intros point. unfold dependency_types in Hty. rewrite !elem_of_cons in Hty.
    destruct Hty as [->|[->|[->|Hty]]]; [done|done|done|].
    by apply elem_of_nil in Hty. }
  rewrite Hstates. reflexivity.
Qed.

Lemma manifest_index_partition m ty :
  ty ∈ dependency_types -> exists declared, manifest_index m ty = Partition declared.
Proof.
  unfold dependency_types. rewrite !elem_of_cons.
  intros [->|[->|[->|Hty]]]; [by eexists|by eexists|by eexists|].
  by apply elem_of_nil in Hty.
Qed.

(** X7. On a session linked to a project, for a workspace found under
    [cwd] and one of the three types, [workspace_has_dependency(cwd, id, R,
    ty)] with an atom as identifier is a lookup in the partition of that
    type: when a dependency is declared under the hash of the identifier
    there is one answer, which binds [R] to its range; when none is there
    is no answer; when [parseIdent] rejects the atom the query ends with
    its exception.  An identifier that is neither an atom nor a variable
    raises an instantiation error, which names the helper. *)
Theorem workspace_has_dependency_lookup `{host : Host} projects s project cwd workspace ty
    declared fuel :
  linked_to projects s project ->
  tryWorkspaceByCwd project cwd = Some workspace ->
  ty ∈ dependency_types ->
  manifest_index (manifest workspace) ty = Partition declared ->
  (forall id ident d r,
     parseIdent id = Ok ident ->
     map_get declared (identHash ident) = Some d ->
     solve projects s (7 + fuel)
       (term "workspace_has_dependency" [Term cwd []; Term id []; Var r; Term ty []])
     = ([ {[ r := Term (range d) [] ]} ], Exhausted))
  /\ (forall id ident c,
        parseIdent id = Ok ident ->
        map_get declared (identHash ident) = None ->
        solve projects s (5 + fuel)
          (term "workspace_has_dependency" [Term cwd []; Term id []; c; Term ty []])
        = ([], Exhausted))
  /\ (forall id e c,
        parseIdent id = Throw e ->
        solve projects s (4 + fuel)
          (term "workspace_has_dependency" [Term cwd []; Term id []; c; Term ty []])
        = ([], Thrown e))
  /\ (forall b c,
        isAtom b = false -> isVariable b = false ->
        solve projects s (5 + fuel)
          (term "workspace_has_dependency" [Term cwd []; b; c; Term ty []])
        = ([], Raised (instantiation ("internal_workspace_has_dependency", 4)))).
Proof.
  intros Hlinked Hw Hty Hdeclared.
  assert (Hl := Hlinked). destruct Hl as [Hproject Hloaded].
  repeat split.
  - intros id ident d r Hparse Hget. unfold solve, term.
    change (7 + fuel) with (3 + (S (2 + S fuel))).
    rewrite (run_to_helper projects s project cwd workspace) by done.
    erewrite run_continue; last first.
    { erewrite (step_native projects s _ _ _ "internal_workspace_has_dependency"
                  [Term cwd []; Term id []; Var r; Term ty []]
                  (internal_workspace_has_dependency_4 projects)); try done.
      unfold internal_workspace_has_dependency_4.
      rewrite (getProject_linked _ _ project) by done.
      unfold getWorkspaceByCwd. simpl. rewrite Hw. simpl. rewrite Hdeclared.
      rewrite Hparse. simpl. rewrite Hget. reflexivity. }
    etrans.
    { eapply (produces_run _ _ _ 2), produces_bind. }
    do 2 f_equal. apply subst_apply_bind_self.
  - intros id ident c Hparse Hget. unfold solve, term.
    change (5 + fuel) with (3 + (S (S fuel))).
    rewrite (run_to_helper projects s project cwd workspace) by done.
    erewrite run_continue; last first.
    { erewrite (step_native projects s _ _ _ "internal_workspace_has_dependency"
                  [Term cwd []; Term id []; c; Term ty []]
                  (internal_workspace_has_dependency_4 projects)); try done.
      unfold internal_workspace_has_dependency_4.
      rewrite (getProject_linked _ _ project) by done.
      unfold getWorkspaceByCwd. simpl. rewrite Hw. simpl. rewrite Hdeclared.
      rewrite Hparse. simpl. rewrite Hget. reflexivity. }
    done.
  - intros id e c Hparse. unfold solve, term.
    change (4 + fuel) with (3 + (S fuel)).
    rewrite (run_to_helper projects s project cwd workspace) by done.
    apply run_crash.
    erewrite (step_native projects s _ _ _ "internal_workspace_has_dependency"
                [Term cwd []; Term id []; c; Term ty []]
                (internal_workspace_has_dependency_4 projects)); try done.
    unfold internal_workspace_has_dependency_4.
    rewrite (getProject_linked _ _ project) by done.
    unfold getWorkspaceByCwd. simpl. rewrite Hw. simpl. rewrite Hdeclared.
    by rewrite Hparse.
  - intros b c Hatom Hvar. unfold solve, term.
    change (5 + fuel) with (3 + (S (S fuel))).
    rewrite (run_to_helper projects s project cwd workspace) by done.
    erewrite run_continue; last first.
    { erewrite (step_native projects s _ _ _ "internal_workspace_has_dependency"
                  [Term cwd []; b; c; Term ty []]
                  (internal_workspace_has_dependency_4 projects)); try done.
      unfold internal_workspace_has_dependency_4.
      rewrite (getProject_linked _ _ project) by done.
      unfold getWorkspaceByCwd. cbn [bind arg nth isAtom negb orb id_of].
      rewrite Hw. cbn [bind]. rewrite Hdeclared. rewrite Hatom, Hvar. reflexivity. }
    apply run_throwError.
Qed.

(** ** [workspace_has_dependency/4]: the full enumeration *)

(** The helper, called with the path of a workspace, two distinct
    variables and one of the three types, gives the dependencies of that
    type. *)
Lemma produces_helper `{host : Host} projects s project cwd workspace ty declared i r sigma :
  linked_to projects s project ->
  tryWorkspaceByCwd project cwd = Some workspace ->
  manifest_index (manifest workspace) ty = Partition declared ->
  i <> r ->
  produces [tauModule projects] s
    (mkState
       (Some (Term "internal_workspace_has_dependency" [Term cwd []; Var i; Var r; Term ty []]))
       sigma)
    (1 + 3 * length declared)
    (map (fun d =>
            subst_apply
              (subst_apply sigma {[ i := Term (stringifyIdent (descriptor_ident d)) [] ]})
              {[ r := Term (range d) [] ]})
         (map_values declared)).
Proof.
  intros [Hproject Hloaded] Hw Hdeclared Hir ps fuel Hend.
  change (1 + 3 * length declared + fuel) with (S (3 * length declared + fuel)).
  erewrite run_continue; last first.
  { erewrite (step_native projects s _ _ _ "internal_workspace_has_dependency"
                [Term cwd []; Var i; Var r; Term ty []]
                (internal_workspace_has_dependency_4 projects)); try done.
    unfold internal_workspace_has_dependency_4.
    rewrite (getProject_linked _ _ project) by done.
    unfold getWorkspaceByCwd. simpl. rewrite Hw. simpl. rewrite Hdeclared. reflexivity. }
  unfold prependGoals, prepend, point_replace. simpl.
  pose proof (enumerate_bindings (fun d => stringifyIdent (descriptor_ident d)) range
                [tauModule projects] s i r sigma (map_values declared) Hir) as Hall.
  pose proof (produces_branches _ _ 3 _ _ Hall ps fuel Hend) as Hrun.
  rewrite !length_map in Hrun. unfold map_values in Hrun at 1. rewrite length_map in Hrun.
  etrans; [exact Hrun|].
  by rewrite (concat_singletons _ (map_values declared)).
Qed.

(** The answers for the dependencies of a workspace, type by type. *)
Lemma produces_types `{host : Host} projects s project cwd workspace i r t sigma :
  linked_to projects s project ->
  tryWorkspaceByCwd project cwd = Some workspace ->
  i <> r -> t <> i -> t <> r ->
  produces [tauModule projects] s
    (mkState
       (Some (Term ","
                [Term "dependency_type" [Var t];
                 Term "internal_workspace_has_dependency" [Term cwd []; Var i; Var r; Var t]]))
       sigma)
    (1 + (1 + 3 * declared_count workspace) * 3)
    (concat
       (map (fun p =>
               map (fun d =>
                      subst_apply
                        (subst_apply (subst_apply sigma {[ t := Term p.1 [] ]})
                           {[ i := Term (stringifyIdent (descriptor_ident d)) [] ]})
                        {[ r := Term (range d) [] ]})
                   (map_values p.2))
            (declared_in (manifest workspace)))).
Proof.
  intros Hlinked Hw Hir Hti Htr ps fuel Hend.
  assert (Hl := Hlinked). destruct Hl as [Hproject Hloaded].
  change (1 + (1 + 3 * declared_count workspace) * 3 + fuel)
    with (S ((1 + 3 * declared_count workspace) * 3 + fuel)).
  erewrite run_continue; last first.
  { erewrite (step_rules projects s _ _ _ "dependency_type" [Var t]); try done.
    erewrite (resolve_dependency_type projects) by done. reflexivity. }
  set (F := (1 + 3 * declared_count workspace) * 3 + fuel).
  unfold fact_states, point_replace. simpl.
  rewrite !lookup_singleton_eq.
  rewrite !(lookup_singleton_ne t i), !(lookup_singleton_ne t r) by done. simpl.
  subst F.
  assert (Hall :
    Forall2 (fun st a => produces [tauModule projects] s st (1 + 3 * declared_count workspace) a)
      (map (fun p =>
              mkState
                (Some (Term "internal_workspace_has_dependency"
                         [Term cwd []; Var i; Var r; Term p.1 []]))
                (subst_apply sigma {[ t := Term p.1 [] ]}))
           (declared_in (manifest workspace)))
      (map (fun p =>
              map (fun d =>
                     subst_apply
                       (subst_apply (subst_apply sigma {[ t := Term p.1 [] ]})
                          {[ i := Term (stringifyIdent (descriptor_ident d)) [] ]})
                       {[ r := Term (range d) [] ]})
                  (map_values p.2))
           (declared_in (manifest workspace)))).
  { unfold declared_in, declared_count. simpl. repeat constructor.
    - eapply produces_mono;
        [by apply (produces_helper projects s project cwd workspace
                     DependencyType.Dependencies (dependencies (manifest workspace)))|lia].
    - eapply produces_mono;
        [by apply (produces_helper projects s project cwd workspace
                     DependencyType.DevDependencies (devDependencies (manifest workspace)))|lia].
    - eapply produces_mono;
        [by apply (produces_helper projects s project cwd workspace
                     DependencyType.PeerDependencies (peerDependencies (manifest workspace)))|lia]. }
  exact (produces_branches _ _ _ _ _ Hall ps fuel Hend).
Qed.

Lemma subst_apply_bind_three i r t a b c :
  i <> r -> t <> i -> t <> r ->
  subst_apply
    (subst_apply
       (subst_apply (<[ i := Var i ]> (<[ r := Var r ]> (<[ t := Var t ]> ∅)))
          {[ t := Term a [] ]})
       {[ i := Term b [] ]})
    {[ r := Term c [] ]}
  = <[ i := Term b [] ]> (<[ r := Term c [] ]> (<[ t := Term a [] ]> ∅)).
Proof.
  intros Hir Hti Htr.
  rewrite !subst_apply_insert, !subst_apply_nil. simpl.
  rewrite !lookup_singleton_eq.
  rewrite (lookup_singleton_ne t i), (lookup_singleton_ne t r) by done. simpl.
  rewrite !lookup_singleton_eq.
  rewrite (lookup_singleton_ne i r) by done. simpl.
  by rewrite lookup_singleton_eq.
Qed.

(** X8. On a session linked to a project, for a workspace found under
    [cwd] and three distinct variables, [workspace_has_dependency(cwd, I,
    R, T)] enumerates the dependencies of the workspace type by type:
    first those declared under ["dependencies"], then those under
    ["devDependencies"], then those under ["peerDependencies"], each
    partition in the order of its declarations; every answer binds [T] to
    the type, [I] to the stringified identifier and [R] to the range. *)
Theorem workspace_has_dependency_by_type `{host : Host} projects s project cwd workspace
    i r t fuel :
  linked_to projects s project ->
  tryWorkspaceByCwd project cwd = Some workspace ->
  i <> r -> t <> i -> t <> r ->
  solve projects s (4 + (1 + 3 * declared_count workspace) * 3 + fuel)
    (term "workspace_has_dependency" [Term cwd []; Var i; Var r; Var t])
  = (concat
       (map (fun p =>
               map (fun d =>
                      <[ i := Term (stringifyIdent (descriptor_ident d)) [] ]>
                        (<[ r := Term (range d) [] ]> (<[ t := Term p.1 [] ]> ∅)))
                   (map_values p.2))
            (declared_in (manifest workspace))),
     Exhausted).
Proof.
  intros Hlinked Hw Hir Hti Htr.
  assert (Hl := Hlinked). destruct Hl as [Hproject Hloaded].
  unfold solve, query, term.
  replace (4 + (1 + 3 * declared_count workspace) * 3 + fuel)
    with (S (S ((1 + (1 + 3 * declared_count workspace) * 3) + S fuel))) by lia.
  erewrite run_continue; last first.
  { erewrite (step_rules projects s _ _ _ "workspace_has_dependency"
                [Term cwd []; Var i; Var r; Var t]); try done.
    erewrite (resolve_workspace_has_dependency projects) by done. reflexivity. }
  erewrite run_continue; last first.
  { cbn [app]. erewrite (step_workspace_bound projects s project _ _ _ cwd); [|done|done].
    rewrite Hw. reflexivity. }
  cbn [app]. simpl (replace _ _).
  etrans.
  { eapply produces_run.
    by apply (produces_types projects s project cwd workspace i r t). }
  f_equal. f_equal. apply map_ext. intros p. apply map_ext. intros d.
  unfold initial_substitution. simpl.
  by apply subst_apply_bind_three.
Qed.

Lemma declared_count_le project workspace :
  workspace ∈ workspaces project -> declared_count workspace <= declared_total project.
Proof.
  unfold declared_total. induction (workspaces project) as [|w ws IH]; intros Hw.
  - by apply elem_of_nil in Hw.
  - simpl. apply elem_of_cons in Hw as [->|Hw]; [lia|].
    specialize (IH Hw). lia.
Qed.

(** A branch that binds the path to that of a workspace gives the
    dependencies of that workspace. *)
Lemma produces_workspace_branch `{host : Host} projects s project workspace x i r t sigma :
  linked_to projects s project ->
  tryWorkspaceByCwd project (relativeCwd workspace) = Some workspace ->
  i <> r -> t <> i -> t <> r -> x <> i -> x <> r -> x <> t ->
  produces [tauModule projects] s
    (mkState
       (Some (Term ","
                [Term "," [termEquals (Var x) (inr (relativeCwd workspace));
                           Term "dependency_type" [Var t]];
                 Term "internal_workspace_has_dependency" [Var x; Var i; Var r; Var t]]))
       sigma)
    (2 + (1 + 3 * declared_count workspace) * 3)
    (concat
       (map (fun p =>
               map (fun d =>
                      subst_apply
                        (subst_apply
                           (subst_apply
                              (subst_apply sigma {[ x := Term (relativeCwd workspace) [] ]})
                              {[ t := Term p.1 [] ]})
                           {[ i := Term (stringifyIdent (descriptor_ident d)) [] ]})
                        {[ r := Term (range d) [] ]})
                   (map_values p.2))
            (declared_in (manifest workspace)))).
Proof.
  intros Hlinked Hw Hir Hti Htr Hxi Hxr Hxt ps fuel Hend.
  change (2 + (1 + 3 * declared_count workspace) * 3 + fuel)
    with (S ((1 + (1 + 3 * declared_count workspace) * 3) + fuel)).
  erewrite run_continue; last first.
  { rewrite (step_unify _ _ _ _ _ (Var x) (Term (relativeCwd workspace) [])) by done.
    rewrite unify_var_atom. reflexivity. }
  simpl (replace _ _). cbn [fmap option_fmap option_map apply map].
  rewrite lookup_singleton_eq.
  rewrite !(lookup_singleton_ne x i), !(lookup_singleton_ne x r),
    !(lookup_singleton_ne x t) by done.
  cbn [default from_option].
  by apply (produces_types projects s project (relativeCwd workspace) workspace i r t).
Qed.

Lemma enumerate_workspace_branches `{host : Host} projects s project x i r t sigma
    (ws : list Workspace) :
  linked_to projects s project ->
  paths_consistent project ->
  (forall workspace, workspace ∈ ws -> workspace ∈ workspaces project) ->
  i <> r -> t <> i -> t <> r -> x <> i -> x <> r -> x <> t ->
  Forall2
    (fun st a =>
       produces [tauModule projects] s st (2 + (1 + 3 * declared_total project) * 3) a)
    (map (fun workspace =>
            mkState
              (Some (Term ","
                       [Term "," [termEquals (Var x) (inr (relativeCwd workspace));
                                  Term "dependency_type" [Var t]];
                        Term "internal_workspace_has_dependency"
                          [Var x; Var i; Var r; Var t]]))
              sigma)
         ws)
    (map (fun workspace =>
            concat
              (map (fun p =>
                      map (fun d =>
                             subst_apply
                               (subst_apply
                                  (subst_apply
                                     (subst_apply sigma
                                        {[ x := Term (relativeCwd workspace) [] ]})
                                     {[ t := Term p.1 [] ]})
                                  {[ i := Term (stringifyIdent (descriptor_ident d)) [] ]})
                               {[ r := Term (range d) [] ]})
                          (map_values p.2))
                   (declared_in (manifest workspace))))
         ws).
Proof.
  intros Hlinked Hpaths Hws Hir Hti Htr Hxi Hxr Hxt.
  induction ws as [|w ws IH]; simpl; constructor.
  - assert (Hw : w ∈ workspaces project) by (apply Hws; by left).
    eapply produces_mono.
    + apply (produces_workspace_branch projects s project w x i r t); try done.
      by apply Hpaths.
    + pose proof (declared_count_le project w Hw). lia.
  - apply IH. intros w' Hw'. apply Hws. by right.
Qed.

Lemma subst_apply_bind_four x i r t a b c d :
  i <> r -> t <> i -> t <> r -> x <> i -> x <> r -> x <> t ->
  subst_apply
    (subst_apply
       (subst_apply
          (subst_apply
             (<[ x := Var x ]> (<[ i := Var i ]> (<[ r := Var r ]> (<[ t := Var t ]> ∅))))
             {[ x := Term d [] ]})
          {[ t := Term a [] ]})
       {[ i := Term b [] ]})
    {[ r := Term c [] ]}
  = <[ x := Term d [] ]>
      (<[ i := Term b [] ]> (<[ r := Term c [] ]> (<[ t := Term a [] ]> ∅))).
Proof.
  intros Hir Hti Htr Hxi Hxr Hxt.
  rewrite (subst_apply_insert _ {[ x := Term d [] ]} x).
  assert (Hrest :
    subst_apply (<[ i := Var i ]> (<[ r := Var r ]> (<[ t := Var t ]> ∅))) {[ x := Term d [] ]}
    = <[ i := Var i ]> (<[ r := Var r ]> (<[ t := Var t ]> ∅))).
  { rewrite !subst_apply_insert, subst_apply_nil. simpl.
    by rewrite (lookup_singleton_ne x i), (lookup_singleton_ne x r),
      (lookup_singleton_ne x t) by done. }
  rewrite Hrest. simpl. rewrite lookup_singleton_eq. simpl.
  rewrite !(subst_apply_insert _ _ x). simpl.
  by rewrite subst_apply_bind_three.
Qed.

(** X9. On a session linked to a project that finds each of its workspaces
    under its relative path, [workspace_has_dependency(W, I, R, T)] with
    four distinct variables enumerates every declared dependency of the
    project exactly once: workspace by workspace in the order of the
    project, within a workspace type by type in the order ["dependencies"],
    ["devDependencies"], ["peerDependencies"], and within a type in the
    order of the declarations.  Every answer binds the four variables to
    the path, the stringified identifier, the range and the type. *)
Theorem workspace_has_dependency_enumerates_all `{host : Host} projects s project x i r t fuel :
  linked_to projects s project ->
  paths_consistent project ->
  i <> r -> t <> i -> t <> r -> x <> i -> x <> r -> x <> t ->
  solve projects s
    ((2 + (1 + 3 * declared_total project) * 3) * length (workspaces project) + 3 + fuel)
    (term "workspace_has_dependency" [Var x; Var i; Var r; Var t])
  = (concat
       (map (fun workspace =>
               concat
                 (map (fun p =>
                         map (fun d =>
                                <[ x := Term (relativeCwd workspace) [] ]>
                                  (<[ i := Term (stringifyIdent (descriptor_ident d)) [] ]>
                                     (<[ r := Term (range d) [] ]>
                                        (<[ t := Term p.1 [] ]> ∅))))
                             (map_values p.2))
                      (declared_in (manifest workspace))))
            (workspaces project)),
     Exhausted).
Proof.
  intros Hlinked Hpaths Hir Hti Htr Hxi Hxr Hxt.
  assert (Hl := Hlinked). destruct Hl as [Hproject Hloaded].
  match goal with |- _ = (?answers, _) => set (expected := answers) end.
  unfold solve, query, term.
  replace ((2 + (1 + 3 * declared_total project) * 3) * length (workspaces project) + 3 + fuel)
    with (S (S ((2 + (1 + 3 * declared_total project) * 3) * length (workspaces project)
                + S fuel))) by lia.
  erewrite run_continue; last first.
  { erewrite (step_rules projects s _ _ _ "workspace_has_dependency"
                [Var x; Var i; Var r; Var t]); try done.
    erewrite (resolve_workspace_has_dependency projects) by done. reflexivity. }
  erewrite run_continue; last first.
  { cbn [app].
    rewrite (step_native projects s _ _ _ "workspace" [Var x] (workspace_1 projects));
      try done.
    unfold workspace_1. rewrite (getProject_linked _ _ project) by done.
    simpl. reflexivity. }
  unfold prependGoals, prepend, point_replace. simpl. rewrite app_nil_r.
  rewrite map_map.
  etrans.
  { apply (run_states _ _ _ _ _ _ _
             (enumerate_workspace_branches projects s project x i r t _ (workspaces project)
                Hlinked Hpaths (fun _ H => H) Hir Hti Htr Hxi Hxr Hxt)).
    by rewrite length_map. }
  subst expected.
  f_equal. f_equal. apply map_ext. intros w. f_equal.
  apply map_ext. intros p. apply map_ext. intros d.
  unfold initial_substitution. simpl.
  by apply subst_apply_bind_four.
Qed.

(** * Properties of [util.ts] *)

(** ** Conjunctions *)

Lemma conjuncts_not_conj t : is_conj t = false -> conjuncts t = [t].
Proof.
  destruct t as [x|n|f [|a [|b [|c args]]]]; simpl; try done.
  by intros ->.
Qed.

Lemma conjuncts_conj a b : conjuncts (Term "," [a; b]) = (conjuncts a ++ conjuncts b)%list.
Proof. reflexivity. Qed.

Lemma conjuncts_not_nil t : conjuncts t <> [].
Proof.
  induction t as [x|n|f args IH] using Value_ind'; simpl; try done.
  destruct args as [|a [|b [|c args]]]; try done.
  destruct (String.eqb f ","); [|done].
  inversion IH as [|? ? Ha _]; subst.
  destruct (conjuncts a); [done|]. done.
Qed.

Lemma is_conj_select t : is_conj (select t) = false.
Proof.
  induction t as [x|n|f args IH] using Value_ind'; simpl; try done.
  destruct args as [|a [|b [|c args]]]; try done.
  destruct (String.eqb f ",") eqn:Hf.
  - inversion IH as [|? ? Ha _]; subst. exact Ha.
  - simpl. by rewrite Hf.
Qed.

Lemma replace_conj t expr : is_conj t = true -> exists t', replace t expr = Some t'.
Proof.
  destruct t as [x|n|f [|a [|b [|c args]]]]; simpl; try done.
  intros ->. destruct (is_conj a).
  - destruct (replace a expr); by eexists.
  - destruct expr; by eexists.
Qed.

(** The goals of a conjunction, less the first, are those that are left
    after the selected goal is replaced by nothing; with a goal [e] in its
    place, the goals of [e] come first. *)
Lemma conjuncts_replace t expr :
  from_option conjuncts [] (replace t expr)
  = (from_option conjuncts [] expr ++ tail (conjuncts t))%list.
Proof.
  induction t as [x|n|f args IH] using Value_ind'; simpl;
    try (by rewrite app_nil_r).
  destruct args as [|a [|b [|c args]]]; try (by rewrite app_nil_r).
  destruct (String.eqb f ",") eqn:Hf; [|simpl; by rewrite app_nil_r].
  inversion IH as [|? ? Ha _]; subst.
  destruct (is_conj a) eqn:Hconj.
  - destruct (replace_conj a expr Hconj) as [a' Ha'].
    rewrite Ha' in Ha |- *. simpl in Ha |- *. rewrite Ha.
    pose proof (conjuncts_not_nil a) as Hnil.
    destruct (conjuncts a) as [|g gs]; [done|]. simpl. by rewrite <- app_assoc.
  - rewrite (conjuncts_not_conj a Hconj). destruct expr as [e|]; simpl; done.
Qed.

Lemma conjuncts_select t : conjuncts t = select t :: tail (conjuncts t).
Proof.
  induction t as [x|n|f args IH] using Value_ind'; simpl; try done.
  destruct args as [|a [|b [|c args]]]; try done.
  destruct (String.eqb f ",") eqn:Hf; [|done].
  inversion IH as [|? ? Ha _]; subst.
  pose proof (conjuncts_not_nil a) as Hnil.
  destruct (conjuncts a) as [|g gs]; [done|].
  simpl in Ha |- *. by injection Ha as <-.
Qed.

Lemma and_conjuncts first second rest :
  conjuncts (and first second rest) = concat (map conjuncts (first :: second :: rest)).
Proof.
  revert first second. induction rest as [|c rest IH]; intros a b.
  - simpl. by rewrite app_nil_r.
  - change (and a b (c :: rest)) with (and (term "," [a; b]) c rest).
    rewrite IH. unfold term. simpl. by rewrite <- app_assoc.
Qed.

Lemma and_select first second rest : select (and first second rest) = select first.
Proof.
  revert first second. induction rest as [|c rest IH]; intros a b.
  - reflexivity.
  - change (and a b (c :: rest)) with (and (term "," [a; b]) c rest).
    by rewrite IH.
Qed.

(** X10. [and(first, second, ...rest)] joins its arguments in their order:
    the goals of the conjunction are those of [first], then those of
    [second], then those of each further argument; the goal that the
    engine selects is the one it selects in [first]; and once that goal is
    solved, the goals left are all the others, in the same order. *)
Theorem and_keeps_order first second rest :
  conjuncts (and first second rest) = concat (map conjuncts (first :: second :: rest))
  /\ select (and first second rest) = select first
  /\ from_option conjuncts [] (replace (and first second rest) None)
     = tail (concat (map conjuncts (first :: second :: rest))).
Proof.
  split; [apply and_conjuncts|]. split; [apply and_select|].
  rewrite conjuncts_replace. simpl. by rewrite and_conjuncts.
Qed.

(** ** [prependGoals] *)

Lemma replace_some g e : exists g', replace g (Some e) = Some g'.
Proof.
  destruct (is_conj g) eqn:Hconj.
  - by apply replace_conj.
  - exists e. destruct g as [x|n|f [|a [|b [|c args]]]]; simpl; try done.
    simpl in Hconj. by rewrite Hconj.
Qed.

(** X11. [prependGoals(thread, point, goals)] keeps the session and the
    older choice points, and puts one new choice point per goal on top of
    them, in the order of the goals.  Each new point inherits the
    substitution of [point]; its goals are those of the new goal followed
    by what [point] had left to solve after its selected goal; and the
    goal it selects is the one selected in the new goal.  With no goal the
    stack is left as it was. *)
Theorem prependGoals_branches thread point g goals :
  goal point = Some g ->
  session (prependGoals thread point goals) = session thread
  /\ exists new,
       points (prependGoals thread point goals) = (new ++ points thread)%list
       /\ Forall2
            (fun st e =>
               substitution st = substitution point
               /\ from_option conjuncts [] (goal st) = (conjuncts e ++ tail (conjuncts g))%list
               /\ select <$> goal st = Some (select e))
            new goals.
Proof.
  intros Hgoal. split; [done|].
  exists (map (fun e => mkState (point_replace point (Some e)) (substitution point)) goals).
  split; [done|].
  induction goals as [|e goals IH]; simpl; constructor; [|exact IH].
  unfold point_replace. rewrite Hgoal. simpl.
  split; [done|].
  pose proof (conjuncts_replace g (Some e)) as Hconj. simpl in Hconj.
  split; [exact Hconj|].
  destruct (replace_some g e) as [g' Hg']. rewrite Hg' in Hconj |- *. simpl in Hconj |- *.
  f_equal.
  rewrite (conjuncts_select g'), (conjuncts_select e) in Hconj.
  simpl in Hconj. by injection Hconj as -> _.
Qed.

(** * Properties of [stageUtils.ts] *)

(** ** [checkConsensus] and [genCommitMessage] *)

Lemma checkConsensus_counts (matches : string -> bool) lines :
  forall yes no lastIndex,
    foldl (fun '(yes, no, lastIndex) line =>
             let '(matched, lastIndex) := RegExp_test (Flagless matches) lastIndex line in
             if matched then (yes + 1, no, lastIndex) else (yes, no + 1, lastIndex))
          (yes, no, lastIndex) lines
    = (yes + length (List.filter matches lines),
       no + (length lines - length (List.filter matches lines)),
       lastIndex).
Proof.
  match goal with |- context [foldl ?g _ _] => set (count := g) end.
  induction lines as [|line lines IH]; intros yes no lastIndex.
  - simpl. do 2 f_equal; lia.
  - pose proof (filter_length_le matches lines) as Hle.
    cbn [foldl].
    assert (Hline : count (yes, no, lastIndex) line
                    = if matches line then (yes + 1, no, lastIndex)
                      else (yes, no + 1, lastIndex)).
    { unfold count. simpl. by destruct (matches line). }
    rewrite Hline. destruct (matches line) eqn:Hmatch; rewrite IH; simpl;
      rewrite Hmatch; simpl; do 2 f_equal; lia.
Qed.

Lemma checkConsensus_majority lines matches lastIndex :
  checkConsensus lines (Flagless matches) lastIndex = (majority matches lines, lastIndex).
Proof.
  unfold checkConsensus, majority. rewrite checkConsensus_counts.
  pose proof (filter_length_le matches lines) as Hle.
  f_equal. case_bool_decide.
  - apply Nat.leb_le. lia.
  - apply Nat.leb_gt. lia.
Qed.

(** X12. For a regular expression without the [g] and [y] flags,
    [checkConsensus(lines, regex)] holds exactly when at least half of
    the lines pass the test, and leaves [regex.lastIndex] as it was: a tie
    counts as a consensus, and a consensus over two lists of lines is a
    consensus over the two together.  An empty list of lines is a
    consensus for every expression.  With the [g] flag the tests depend
    on one another through [regex.lastIndex], and the function can deny
    a majority: of the lines [a], [a], [a], [b], [b] three hold an [a],
    and the call with [/a/g] gives [false]. *)
Theorem checkConsensus_is_majority :
  (forall matches lines lastIndex,
     checkConsensus lines (Flagless matches) lastIndex
     = (bool_decide (length lines <= 2 * length (List.filter matches lines)), lastIndex))
  /\ (forall regex lastIndex, checkConsensus [] regex lastIndex = (true, lastIndex))
  /\ (forall matches lines lines' lastIndex lastIndex',
        (checkConsensus lines (Flagless matches) lastIndex).1 = true ->
        (checkConsensus lines' (Flagless matches) lastIndex').1 = true ->
        (checkConsensus (lines ++ lines') (Flagless matches) lastIndex).1 = true)
  /\ (length (List.filter (fun line => bool_decide (is_Some (String.index 0 "a" line)))
                          ["a"; "a"; "a"; "b"; "b"]) = 3
      /\ checkConsensus ["a"; "a"; "a"; "b"; "b"] StageSample.global_a 0 = (false, 0)).
Proof.
  split; [|split; [|split]].
  - intros matches lines lastIndex. apply checkConsensus_majority.
  - reflexivity.
  - intros matches lines lines' lastIndex lastIndex'.
    rewrite !checkConsensus_majority. unfold majority. simpl.
    rewrite !bool_decide_eq_true, List.filter_app, !length_app. lia.
  - split; reflexivity.
Qed.

(** X13. The message of [genCommitMessage] is made of three majorities
    over the lines: it starts with ["chore(yarn): "] exactly when at least
    half of the lines name a component; its verb is in the third person
    exactly when at least half of the lines are, and starts with a capital
    letter exactly when at least half of the lines do.  With no line at
    all every majority holds, and the message is ["chore(yarn): Updates
    the project settings"]. *)
Theorem genCommitMessage_follows_majorities `{patterns : ConsensusPatterns} :
  (forall lines,
     genCommitMessage lines
     = (if majority componentPattern lines then "chore(yarn): " else "")
       +:+ (if majority thirdPersonPattern lines
            then if majority upperCasePattern lines then "Updates" else "updates"
            else if majority upperCasePattern lines then "Update" else "update")
       +:+ " the project settings")
  /\ genCommitMessage [] = "chore(yarn): Updates the project settings".
Proof.
  split; [|reflexivity].
  intros lines. unfold genCommitMessage, findConsensus. simpl.
  by rewrite !checkConsensus_majority.
Qed.

(** ** [findVcsRoot] and [isYarnFile] *)

Lemma ancestor_S `{fslib : Fslib} k path :
  ancestor (S k) path = ppath_dirname (ancestor k path).
Proof. reflexivity. Qed.

Lemma ancestor_dirname `{fslib : Fslib} k path :
  ancestor k (ppath_dirname path) = ancestor (S k) path.
Proof. unfold ancestor. by rewrite Nat.iter_succ_r. Qed.

Lemma findVcsRoot_walk_up `{fslib : Fslib} fuel cwd marker :
  findVcsRoot fuel cwd marker
  = walk_up (fun path => xfs_existsSync (ppath_join path marker)) fuel cwd.
Proof.
  revert cwd. induction fuel as [|fuel IH]; intros cwd; [done|]. simpl.
  destruct (xfs_existsSync (ppath_join cwd marker)); simpl; [done|].
  destruct (String.eqb (ppath_dirname cwd) "/"); simpl; [done|]. apply IH.
Qed.

Lemma isYarnFile_loop_walk_up `{fslib : Fslib} fuel path roots :
  isYarnFile_loop fuel path roots
  = (fun root => bool_decide (is_Some root))
      <$> walk_up (fun path => bool_decide (path ∈ roots)) fuel path.
Proof.
  revert path. induction fuel as [|fuel IH]; intros path; [done|]. simpl.
  destruct (bool_decide (path ∈ roots)); simpl; [done|].
  destruct (String.eqb (ppath_dirname path) "/"); simpl; [done|]. apply IH.
Qed.

Lemma walk_up_found `{fslib : Fslib} found fuel path root :
  walk_up found fuel path = Some (Some root)
  <-> exists k, k < fuel /\ root = ancestor k path /\ found root = true
        /\ forall j, j < k ->
             found (ancestor j path) = false /\ ancestor (S j) path <> "/".
Proof.
  revert path. induction fuel as [|fuel IH]; intros path; simpl.
  { split; [done|]. intros (k & Hk & _). lia. }
  destruct (found path) eqn:Hfound.
  - split.
    + intros [= <-]. exists 0. repeat split; [lia|done|lia|lia].
    + intros (k & _ & -> & _ & Hbefore). destruct k as [|k]; [done|].
      destruct (Hbefore 0) as [Hno _]; [lia|]. simpl in Hno. congruence.
  - destruct (String.eqb (ppath_dirname path) "/") eqn:Hroot.
    + split; [done|]. intros (k & _ & -> & Hyes & Hbefore).
      destruct k as [|k]; [simpl in Hyes; congruence|].
      destruct (Hbefore 0) as [_ Hnot]; [lia|].
      apply String.eqb_eq in Hroot. by destruct Hnot.
    + apply String.eqb_neq in Hroot. rewrite IH. split.
      * intros (k & Hk & -> & Hyes & Hbefore). exists (S k).
        rewrite <- ancestor_dirname. repeat split; [lia|done|..].
        -- destruct j as [|j]; [done|]. rewrite <- ancestor_dirname.
           apply Hbefore. lia.
        -- destruct j as [|j]; [done|]. rewrite <- ancestor_dirname.
           apply Hbefore. lia.
      * intros (k & Hk & -> & Hyes & Hbefore).
        destruct k as [|k]; [simpl in Hyes; congruence|]. exists k.
        rewrite ancestor_dirname. repeat split; [lia|done|..].
        -- rewrite ancestor_dirname. apply (Hbefore (S j)). lia.
        -- rewrite ancestor_dirname. apply (Hbefore (S j)). lia.
Qed.

Lemma walk_up_none `{fslib : Fslib} found fuel path :
  walk_up found fuel path = Some None
  <-> exists k, k < fuel /\ ancestor (S k) path = "/"
        /\ (forall j, j <= k -> found (ancestor j path) = false)
        /\ (forall j, j < k -> ancestor (S j) path <> "/").
Proof.
  revert path. induction fuel as [|fuel IH]; intros path; simpl.
  { split; [done|]. intros (k & Hk & _). lia. }
  destruct (found path) eqn:Hfound.
  - split; [done|]. intros (k & _ & _ & Hno & _).
    specialize (Hno 0 ltac:(lia)). simpl in Hno. congruence.
  - destruct (String.eqb (ppath_dirname path) "/") eqn:Hroot.
    + apply String.eqb_eq in Hroot. split; [intros _|done].
      exists 0. repeat split; [lia|done| |lia].
      intros j Hj. by replace j with 0 by lia.
    + apply String.eqb_neq in Hroot. rewrite IH. split.
      * intros (k & Hk & Hend & Hno & Hbefore). exists (S k).
        rewrite <- ancestor_dirname. repeat split; [lia|done|..].
        -- intros [|j] Hj; [done|]. rewrite <- ancestor_dirname. apply Hno. lia.
        -- intros [|j] Hj; [done|]. rewrite <- ancestor_dirname. apply Hbefore. lia.
      * intros (k & Hk & Hend & Hno & Hbefore).
        destruct k as [|k]; [done|]. exists k.
        rewrite ancestor_dirname. repeat split; [lia|done|..].
        -- intros j Hj. rewrite ancestor_dirname. apply Hno. lia.
        -- intros j Hj. rewrite ancestor_dirname. apply Hbefore. lia.
Qed.

Lemma walk_up_ends `{fslib : Fslib} found n path :
  ancestor (S n) path = "/" ->
  exists result, forall fuel, walk_up found (S n + fuel) path = Some result.
Proof.
  revert path. induction n as [|n IH]; intros path Hend.
  - simpl in Hend. destruct (found path) eqn:Hfound.
    + exists (Some path). intros fuel. simpl. by rewrite Hfound.
    + exists None. intros fuel. simpl. by rewrite Hfound, Hend.
  - rewrite <- ancestor_dirname in Hend. destruct (IH _ Hend) as [result Hresult].
    destruct (found path) eqn:Hfound.
    + exists (Some path). intros fuel. simpl. by rewrite Hfound.
    + destruct (String.eqb (ppath_dirname path) "/") eqn:Hroot.
      * exists None. intros fuel. simpl. by rewrite Hfound, Hroot.
      * exists result. intros fuel.
        change (S (S n) + fuel) with (S (S n + fuel)).
        cbn [walk_up]. rewrite Hfound, Hroot. apply Hresult.
Qed.

Lemma walk_up_not_root `{fslib : Fslib} found fuel path :
  path <> "/" -> walk_up found fuel path <> Some (Some "/").
Proof.
  intros Hpath Hwalk. apply walk_up_found in Hwalk as (k & _ & Hroot & _ & Hbefore).
  destruct k as [|k]; [done|].
  destruct (Hbefore k) as [_ Hnot]; [lia|]. by destruct Hnot.
Qed.

(** X14. What [findVcsRoot] returns is the nearest directory that holds
    the marker: it returns a directory exactly when that directory is the
    start or one of its ancestors, holds the marker, and no directory
    before it on the way up holds the marker or has the root [/] as its
    parent; it returns [null] exactly when the walk comes to a directory
    whose parent is the root and neither that directory nor one before it
    holds the marker. *)
Theorem findVcsRoot_nearest_marker `{fslib : Fslib} (fuel : nat) (cwd marker : string) :
  (forall root,
     findVcsRoot fuel cwd marker = Some (Some root)
     <-> exists k, k < fuel /\ root = ancestor k cwd
           /\ xfs_existsSync (ppath_join root marker) = true
           /\ forall j, j < k ->
                xfs_existsSync (ppath_join (ancestor j cwd) marker) = false
                /\ ancestor (S j) cwd <> "/")
  /\ (findVcsRoot fuel cwd marker = Some None
      <-> exists k, k < fuel /\ ancestor (S k) cwd = "/"
            /\ (forall j, j <= k ->
                  xfs_existsSync (ppath_join (ancestor j cwd) marker) = false)
            /\ (forall j, j < k -> ancestor (S j) cwd <> "/")).
Proof.
  rewrite findVcsRoot_walk_up. split.
  - intros root.
    apply (walk_up_found (fun path => xfs_existsSync (ppath_join path marker))).
  - apply (walk_up_none (fun path => xfs_existsSync (ppath_join path marker))).
Qed.

(** X15. From a directory with the root [/] above it, [findVcsRoot]
    returns, and the same with more fuel; from a directory other than the
    root, it never returns the root: a marker in [/] is found from [/]
    only. *)
Theorem findVcsRoot_returns `{fslib : Fslib} (n : nat) (cwd marker : string) :
  ancestor (S n) cwd = "/" ->
  exists result,
    (forall fuel, findVcsRoot (S n + fuel) cwd marker = Some result)
    /\ (cwd <> "/" -> result <> Some "/").
Proof.
  intros Hend.
  destruct (walk_up_ends (fun path => xfs_existsSync (ppath_join path marker)) n cwd Hend)
    as [result Hresult].
  exists result. split.
  - intros fuel. rewrite findVcsRoot_walk_up. apply Hresult.
  - intros Hcwd ->. specialize (Hresult 0). by apply walk_up_not_root in Hresult.
Qed.

(** X16. [isYarnFile] says yes exactly when the name of the file is one
    of [names], or the path or one of its ancestors is one of [roots] and
    the walk up to it never came to a directory whose parent is the root
    [/]; it says no exactly when the name is none of [names] and the walk
    comes to a directory whose parent is the root without meeting one of
    [roots]. *)
Theorem isYarnFile_covers `{fslib : Fslib} (fuel : nat) (path : string)
    (roots names : gset string) :
  (isYarnFile fuel path roots names = Some true
   <-> ppath_basename path ∈ names
       \/ exists k, k < fuel /\ ancestor k path ∈ roots
            /\ forall j, j < k -> (ancestor j path ∉ roots) /\ ancestor (S j) path <> "/")
  /\ (isYarnFile fuel path roots names = Some false
      <-> (ppath_basename path ∉ names)
          /\ exists k, k < fuel /\ ancestor (S k) path = "/"
               /\ (forall j, j <= k -> ancestor j path ∉ roots)
               /\ (forall j, j < k -> ancestor (S j) path <> "/")).
Proof.
  unfold isYarnFile. rewrite isYarnFile_loop_walk_up.
  set (found := fun path => bool_decide (path ∈ roots)).
  assert (Hyes : ((fun root => bool_decide (is_Some root)) <$> walk_up found fuel path)
                 = Some true
                 <-> exists root, walk_up found fuel path = Some (Some root)).
  { destruct (walk_up found fuel path) as [[root|]|]; simpl.
    - split; [by exists root|done].
    - split; [done|]. by intros [root ?].
    - split; [done|]. by intros [root ?]. }
  assert (Hno : ((fun root => bool_decide (is_Some root)) <$> walk_up found fuel path)
                = Some false
                <-> walk_up found fuel path = Some None).
  { destruct (walk_up found fuel path) as [[root|]|]; simpl; split; done. }
  split.
  - case_bool_decide as Hname; [split; [by left|done]|].
    rewrite Hyes. split.
    + intros [root (k & Hk & -> & Hin & Hbefore)%walk_up_found]. right.
      exists k. unfold found in Hin. apply bool_decide_eq_true in Hin.
      repeat split; [done|done|..].
      * destruct (Hbefore j) as [Hout _]; [done|].
        by apply bool_decide_eq_false in Hout.
      * by apply Hbefore.
    + intros [?|(k & Hk & Hin & Hbefore)]; [done|].
      exists (ancestor k path). apply walk_up_found. exists k.
      repeat split; [done|by apply bool_decide_eq_true|..].
      * apply bool_decide_eq_false. by apply Hbefore.
      * by apply Hbefore.
  - case_bool_decide as Hname; [split; [done|by intros [? _]]|].
    rewrite Hno, walk_up_none. split.
    + intros (k & Hk & Hend & Hout & Hbefore). split; [done|].
      exists k. repeat split; [done|done| |done].
      intros j Hj. specialize (Hout j Hj). by apply bool_decide_eq_false in Hout.
    + intros (_ & k & Hk & Hend & Hout & Hbefore).
      exists k. repeat split; [done|done| |done].
      intros j Hj. apply bool_decide_eq_false. by apply Hout.
Qed.

(** X17. For a path with the root [/] above it, [isYarnFile] returns, and
    the same with more fuel.  The root [/] as one of [roots] covers no
    path but itself: when no other directory is in [roots] and the name
    of the file is none of [names], a path other than [/] is no Yarn
    file. *)
Theorem isYarnFile_returns `{fslib : Fslib} (n : nat) (path : string)
    (roots names : gset string) :
  ancestor (S n) path = "/" ->
  exists result,
    (forall fuel, isYarnFile (S n + fuel) path roots names = Some result)
    /\ (path <> "/" -> ppath_basename path ∉ names ->
        (forall root, root ∈ roots -> root = "/") ->
        result = false).
Proof.
  intros Hend.
  destruct (walk_up_ends (fun path => bool_decide (path ∈ roots)) n path Hend)
    as [root Hroot].
  unfold isYarnFile. case_bool_decide as Hname.
  - exists true. split; [done|]. by intros _ ?.
  - exists (bool_decide (is_Some root)). split.
    + intros fuel. by rewrite isYarnFile_loop_walk_up, Hroot.
    + intros Hpath _ Honly. specialize (Hroot 0).
      destruct root as [root|]; [|done].
      pose proof Hroot as Hin.
      apply walk_up_found in Hin as (_ & _ & _ & Hin%bool_decide_eq_true & _).
      apply Honly in Hin as ->. by apply walk_up_not_root in Hroot.
Qed.

(** ** [expandDirectory] *)

Lemma expandDirectory_listing_sound `{fslib : Fslib} initialCwd cwd full listing :
  visited initialCwd cwd ->
  xfs_readdirSync cwd = Ok full ->
  listing ⊆ full ->
  forall cwds paths cwds' paths',
    expandDirectory_listing cwd listing cwds paths = Ok (cwds', paths') ->
    Forall (visited initialCwd) cwds -> Forall (file_below initialCwd) paths ->
    Forall (visited initialCwd) cwds' /\ Forall (file_below initialCwd) paths'.
Proof.
  intros Hcwd Hfull. induction listing as [|entry listing IH];
    intros Hsub cwds paths cwds' paths' Hrun Hcwds Hpaths; simpl in Hrun.
  { by injection Hrun as <- <-. }
  assert (Hentry : entry ∈ full) by (apply Hsub; left).
  assert (Hrest : listing ⊆ full) by (intros e He; apply Hsub; by right).
  destruct (xfs_lstatSync_isDirectory (ppath_resolve cwd entry)) as [[|]|e] eqn:Hstat;
    simpl in Hrun; [| |done].
  - apply (IH Hrest _ _ _ _ Hrun); [|done].
    constructor; [|done]. by eapply visited_entry.
  - apply (IH Hrest _ _ _ _ Hrun); [done|].
    apply Forall_app. split; [done|]. constructor; [|done].
    by exists cwd, full, entry.
Qed.

Lemma expandDirectory_loop_sound `{fslib : Fslib} initialCwd fuel :
  forall cwds paths result,
    expandDirectory_loop fuel cwds paths = Some (Ok result) ->
    Forall (visited initialCwd) cwds -> Forall (file_below initialCwd) paths ->
    Forall (file_below initialCwd) result.
Proof.
  induction fuel as [|fuel IH]; intros cwds paths result Hrun Hcwds Hpaths; [done|].
  simpl in Hrun. destruct cwds as [|cwd cwds]; [by injection Hrun as <-|].
  apply Forall_cons in Hcwds as [Hcwd Hcwds].
  destruct (xfs_readdirSync cwd) as [listing|e] eqn:Hlisting; [|done].
  destruct (expandDirectory_listing cwd listing cwds paths) as [[cwds' paths']|e] eqn:Hentries;
    [|done].
  destruct (expandDirectory_listing_sound initialCwd cwd listing listing Hcwd Hlisting
              ltac:(done) _ _ _ _ Hentries Hcwds Hpaths) as [Hcwds' Hpaths'].
  by apply (IH _ _ _ Hrun).
Qed.

Lemma expandDirectory_listing_complete `{fslib : Fslib} cwd listing :
  forall cwds paths cwds' paths',
    expandDirectory_listing cwd listing cwds paths = Ok (cwds', paths') ->
    cwds ⊆ cwds' /\ paths ⊆ paths'
    /\ forall entry, entry ∈ listing ->
         (xfs_lstatSync_isDirectory (ppath_resolve cwd entry) = Ok true ->
          ppath_resolve cwd entry ∈ cwds')
         /\ (xfs_lstatSync_isDirectory (ppath_resolve cwd entry) = Ok false ->
             ppath_resolve cwd entry ∈ paths').
Proof.
  induction listing as [|entry listing IH]; intros cwds paths cwds' paths' Hrun;
    simpl in Hrun.
  { injection Hrun as <- <-. split; [done|split; [done|]].
    by intros entry ?%elem_of_nil. }
  destruct (xfs_lstatSync_isDirectory (ppath_resolve cwd entry)) as [[|]|e] eqn:Hstat;
    simpl in Hrun; [| |done].
  - destruct (IH _ _ _ _ Hrun) as (Hcwds & Hpaths & Hentries).
    split; [|split; [done|]].
    { intros d Hd. apply Hcwds. by right. }
    intros entry' [->|Hin]%elem_of_cons; [|by apply Hentries].
    split; [intros _; apply Hcwds; left|congruence].
  - destruct (IH _ _ _ _ Hrun) as (Hcwds & Hpaths & Hentries).
    split; [done|split].
    { intros p Hp. apply Hpaths, elem_of_app. by left. }
    intros entry' [->|Hin]%elem_of_cons; [|by apply Hentries].
    split; [congruence|]. intros _. apply Hpaths, elem_of_app. right. left.
Qed.

(** What the directories already listed leave behind: each of their
    directories is listed or on the stack, each of their files is among
    the paths. *)
Lemma expandDirectory_loop_complete `{fslib : Fslib} initialCwd fuel :
  forall (listed cwds paths result : list string),
    expandDirectory_loop fuel cwds paths = Some (Ok result) ->
    initialCwd ∈ listed \/ initialCwd ∈ cwds ->
    (forall cwd listing entry,
       cwd ∈ listed -> xfs_readdirSync cwd = Ok listing -> entry ∈ listing ->
       (xfs_lstatSync_isDirectory (ppath_resolve cwd entry) = Ok true ->
        ppath_resolve cwd entry ∈ listed \/ ppath_resolve cwd entry ∈ cwds)
       /\ (xfs_lstatSync_isDirectory (ppath_resolve cwd entry) = Ok false ->
           ppath_resolve cwd entry ∈ paths)) ->
    forall path, file_below initialCwd path -> path ∈ result.
Proof.
  induction fuel as [|fuel IH]; intros listed cwds paths result Hrun Hinitial Hclosed;
    [done|].
  simpl in Hrun. destruct cwds as [|cwd cwds].
  - injection Hrun as <-.
    assert (Hall : forall d, visited initialCwd d -> d ∈ listed).
    { induction 1 as [|d listing entry _ IHd Hlisting Hentry Hstat].
      - destruct Hinitial as [?|?%elem_of_nil]; done.
      - destruct (Hclosed d listing entry IHd Hlisting Hentry) as [Hdir _].
        destruct (Hdir Hstat) as [?|?%elem_of_nil]; done. }
    intros path (d & listing & entry & Hd & Hlisting & Hentry & -> & Hstat).
    by apply (Hclosed d listing entry (Hall d Hd) Hlisting Hentry).
  - destruct (xfs_readdirSync cwd) as [listing|e] eqn:Hlisting; [|done].
    destruct (expandDirectory_listing cwd listing cwds paths)
      as [[cwds' paths']|e] eqn:Hentries; [|done].
    destruct (expandDirectory_listing_complete _ _ _ _ _ _ Hentries)
      as (Hcwds & Hpaths & Hnew).
    apply (IH (cwd :: listed) cwds' paths' result Hrun).
    + destruct Hinitial as [?|[->|?]%elem_of_cons].
      * left. by right.
      * left. left.
      * right. by apply Hcwds.
    + intros d listing' entry [->|Hd]%elem_of_cons Hlisting' Hentry.
      * rewrite Hlisting in Hlisting'. injection Hlisting' as <-.
        destruct (Hnew entry Hentry) as [Hdir Hfile].
        split; [|done]. intros Hstat. right. by apply Hdir.
      * destruct (Hclosed d listing' entry Hd Hlisting' Hentry) as [Hdir Hfile].
        split.
        -- intros Hstat. destruct (Hdir Hstat) as [?|[->|?]%elem_of_cons].
           ++ left. by right.
           ++ left. left.
           ++ right. by apply Hcwds.
        -- intros Hstat. by apply Hpaths, Hfile.
Qed.

(** X18. When [expandDirectory] returns, the paths it returns are exactly
    the files below the directory: the entries that are no directories,
    in the listings of the directory and of the directories that these
    listings lead to. *)
Theorem expandDirectory_files `{fslib : Fslib} (fuel : nat) (initialCwd : string)
    (paths : list string) :
  expandDirectory fuel initialCwd = Some (Ok paths) ->
  forall path, path ∈ paths <-> file_below initialCwd path.
Proof.
  unfold expandDirectory. intros Hrun path. split.
  - revert path. apply Forall_forall.
    apply (expandDirectory_loop_sound initialCwd fuel _ _ _ Hrun); [|done].
    constructor; [constructor|done].
  - apply (expandDirectory_loop_complete initialCwd fuel [] _ _ _ Hrun).
    + right. left.
    + by intros cwd listing entry ?%elem_of_nil.
Qed.

Lemma expandDirectory_listing_ok `{fslib : Fslib} cwd listing :
  Forall (fun entry => exists isDirectory,
            xfs_lstatSync_isDirectory (ppath_resolve cwd entry) = Ok isDirectory) listing ->
  forall cwds paths,
    expandDirectory_listing cwd listing cwds paths
    = Ok (rev (List.filter is_directory (map (ppath_resolve cwd) listing)) ++ cwds,
          paths ++ List.filter (fun path => negb (is_directory path))
                               (map (ppath_resolve cwd) listing))%list.
Proof.
  induction 1 as [|entry listing [isDirectory Hstat] _ IH]; intros cwds paths.
  { simpl. by rewrite List.app_nil_r. }
  assert (Hdir : is_directory (ppath_resolve cwd entry) = isDirectory).
  { unfold is_directory. rewrite Hstat. by destruct isDirectory. }
  cbn [expandDirectory_listing map List.filter]. rewrite Hdir, Hstat.
  destruct isDirectory; simpl; rewrite IH.
  - by rewrite <- app_assoc.
  - by rewrite <- app_assoc.
Qed.

Lemma expandDirectory_listing_throws `{fslib : Fslib} cwd before entry after e :
  Forall (fun entry => exists isDirectory,
            xfs_lstatSync_isDirectory (ppath_resolve cwd entry) = Ok isDirectory) before ->
  xfs_lstatSync_isDirectory (ppath_resolve cwd entry) = Throw e ->
  forall cwds paths,
    expandDirectory_listing cwd (before ++ entry :: after) cwds paths = Throw e.
Proof.
  intros Hbefore Hstat.
  induction Hbefore as [|first before [isDirectory Hfirst] _ IH]; intros cwds paths; simpl.
  - by rewrite Hstat.
  - rewrite Hfirst. destruct isDirectory; simpl; apply IH.
Qed.

(** X19. One round of [expandDirectory], on a directory whose entries can
    all be looked at: the files of the directory go after the paths found
    so far, in the order of the listing, and its directories go on the
    stack so that the one listed last is expanded first.  A directory
    that holds no directory gives its entries, resolved, in the order of
    the listing. *)
Theorem expandDirectory_order `{fslib : Fslib} (fuel : nat) (cwd : string)
    (listing cwds paths : list string) :
  xfs_readdirSync cwd = Ok listing ->
  Forall (fun entry => exists isDirectory,
            xfs_lstatSync_isDirectory (ppath_resolve cwd entry) = Ok isDirectory) listing ->
  expandDirectory_loop (S fuel) (cwd :: cwds) paths
  = expandDirectory_loop fuel
      (rev (List.filter is_directory (map (ppath_resolve cwd) listing)) ++ cwds)
      (paths ++ List.filter (fun path => negb (is_directory path))
                            (map (ppath_resolve cwd) listing))
  /\ (Forall (fun entry => xfs_lstatSync_isDirectory (ppath_resolve cwd entry) = Ok false)
             listing ->
      expandDirectory (2 + fuel) cwd = Some (Ok (map (ppath_resolve cwd) listing))).
Proof.
  intros Hlisting Hstats. split.
  - cbn [expandDirectory_loop]. by rewrite Hlisting, (expandDirectory_listing_ok _ _ Hstats).
  - intros Hfiles. unfold expandDirectory.
    change (2 + fuel) with (S (S fuel)). cbn [expandDirectory_loop].
    rewrite Hlisting, (expandDirectory_listing_ok _ _ Hstats).
    assert (Hnone : forall entries,
              Forall (fun entry =>
                        xfs_lstatSync_isDirectory (ppath_resolve cwd entry) = Ok false)
                     entries ->
              List.filter is_directory (map (ppath_resolve cwd) entries) = []
              /\ List.filter (fun path => negb (is_directory path))
                             (map (ppath_resolve cwd) entries)
                 = map (ppath_resolve cwd) entries).
    { induction 1 as [|entry entries Hentry _ [IHdirs IHfiles]]; [done|].
      assert (Hdir : is_directory (ppath_resolve cwd entry) = false).
      { unfold is_directory. by rewrite Hentry. }
      cbn [map List.filter]. rewrite Hdir. simpl.
      by rewrite IHdirs, IHfiles. }
    destruct (Hnone listing Hfiles) as [-> ->]. done.
Qed.

(** X20. [expandDirectory] gives up at the first call that throws: when a
    directory taken from the stack cannot be listed, or when one of its
    entries cannot be looked at, the error is the result of the round,
    whatever paths were found before. *)
Theorem expandDirectory_throws `{fslib : Fslib} (fuel : nat) (cwd : string)
    (cwds paths : list string) (e : JsError) :
  xfs_readdirSync cwd = Throw e
  \/ (exists before entry after,
        xfs_readdirSync cwd = Ok (before ++ entry :: after)%list
        /\ Forall (fun entry => exists isDirectory,
                     xfs_lstatSync_isDirectory (ppath_resolve cwd entry) = Ok isDirectory)
                  before
        /\ xfs_lstatSync_isDirectory (ppath_resolve cwd entry) = Throw e) ->
  expandDirectory_loop (S fuel) (cwd :: cwds) paths = Some (Throw e)
  /\ (cwds = [] -> paths = [] -> expandDirectory (S fuel) cwd = Some (Throw e)).
Proof.
  intros Hthrows.
  assert (Hround : forall cwds paths,
            expandDirectory_loop (S fuel) (cwd :: cwds) paths = Some (Throw e)).
  { intros cwds0 paths0. cbn [expandDirectory_loop].
    destruct Hthrows as [->|(before & entry & after & -> & Hbefore & Hstat)]; [done|].
    by rewrite (expandDirectory_listing_throws _ _ _ _ _ Hbefore Hstat). }
  split; [apply Hround|]. intros _ _. apply Hround.
Qed.

(** * Properties of the portable-shell plugin *)

Lemma jsset_add_elem set x y : y ∈ jsset_add set x <-> y ∈ set \/ y = x.
Proof.
  unfold jsset_add. case_bool_decide as Hin.
  - split; [by left|]. by intros [?| ->].
  - rewrite elem_of_app, list_elem_of_singleton. done.
Qed.

Lemma jsset_add_NoDup set x : NoDup set -> NoDup (jsset_add set x).
Proof.
  intros Hset. unfold jsset_add. case_bool_decide as Hin; [done|].
  apply NoDup_app. split; [done|]. split; [|apply NoDup_singleton].
  by intros y Hy ->%list_elem_of_singleton.
Qed.

Lemma jsset_fold_elem members : forall set y,
  y ∈ foldl jsset_add set members <-> y ∈ set \/ y ∈ members.
Proof.
  induction members as [|x members IH]; intros set y; simpl.
  - split; [by left|]. by intros [?|?%elem_of_nil].
  - rewrite IH, jsset_add_elem, elem_of_cons. tauto.
Qed.

Lemma jsset_fold_NoDup members : forall set,
  NoDup set -> NoDup (foldl jsset_add set members).
Proof.
  induction members as [|x members IH]; intros set Hset; simpl; [done|].
  by apply IH, jsset_add_NoDup.
Qed.

Lemma jsset_of_elem members y : y ∈ jsset_of members <-> y ∈ members.
Proof.
  unfold jsset_of. rewrite jsset_fold_elem. split; [|by right].
  by intros [?%elem_of_nil|?].
Qed.

Lemma filter_twice {A} (f g : A -> bool) l :
  List.filter f (List.filter g l) = List.filter (fun x => g x && f x) l.
Proof.
  induction l as [|x l IH]; [done|]. simpl.
  destruct (g x); simpl; [|done]. destruct (f x); by rewrite IH.
Qed.

Lemma filter_all {A} (f : A -> bool) l :
  (forall x, x ∈ l -> f x = true) -> List.filter f l = l.
Proof.
  induction l as [|x l IH]; intros Hall; [done|]. simpl.
  rewrite (Hall x) by left. f_equal. apply IH. intros y Hy. apply Hall. by right.
Qed.

Lemma env_delete_fold (allowed : list string) keys : forall env : Env,
  foldl (fun env key =>
           if negb (bool_decide (key ∈ allowed)) then env_delete env key else env)
        env keys
  = List.filter (fun property => negb (bool_decide (property.1 ∈ keys))
                                 || bool_decide (property.1 ∈ allowed)) env.
Proof.
  induction keys as [|key keys IH]; intros env.
  { cbn [foldl]. symmetry. apply filter_all. intros [k v] _. cbn [fst].
    rewrite (bool_decide_eq_false_2 (k ∈ [])); [done|]. apply not_elem_of_nil. }
  cbn [foldl]. rewrite IH. case_bool_decide as Hkey; simpl.
  - apply List.filter_ext. intros [k v]. simpl.
    destruct (decide (k = key)) as [->|Hk].
    + by rewrite (bool_decide_eq_true_2 (key ∈ allowed)), !orb_true_r.
    + f_equal. f_equal. apply bool_decide_ext. rewrite elem_of_cons. tauto.
  - unfold env_delete. rewrite filter_twice. apply List.filter_ext. intros [k v]. simpl.
    destruct (String.eqb k key) eqn:Heq.
    + apply String.eqb_eq in Heq as ->. simpl.
      rewrite (bool_decide_eq_true_2 (key ∈ key :: keys)) by left.
      by rewrite (bool_decide_eq_false_2 (key ∈ allowed)).
    + apply String.eqb_neq in Heq. simpl.
      f_equal. f_equal. apply bool_decide_ext. rewrite elem_of_cons. tauto.
Qed.

Lemma env_keys_elem (env : Env) key :
  key ∈ env_keys env <-> exists value, (key, value) ∈ env.
Proof.
  unfold env_keys. induction env as [|[k v] env IH]; simpl.
  - split; [by intros ?%elem_of_nil|]. by intros [value ?%elem_of_nil].
  - rewrite elem_of_cons, IH. split.
    + intros [->|[value Hin]]; [exists v; left|exists value; by right].
    + intros [value [[= -> ->]|Hin]%elem_of_cons]; [by left|right; by exists value].
Qed.

Lemma env_delete_all (allowed : list string) (env : Env) :
  foldl (fun env key =>
           if negb (bool_decide (key ∈ allowed)) then env_delete env key else env)
        env (env_keys env)
  = List.filter (fun property => bool_decide (property.1 ∈ allowed)) env.
Proof.
  rewrite env_delete_fold. apply List.filter_ext_in. intros [k v] Hin. simpl.
  rewrite (bool_decide_eq_true_2 (k ∈ env_keys env)); [done|].
  apply env_keys_elem. exists v. by apply list_elem_of_In.
Qed.

Lemma env_get_filter (keep : string -> bool) (env : Env) key :
  env_get (List.filter (fun property => keep property.1) env) key
  = if keep key then env_get env key else None.
Proof.
  induction env as [|[k v] env IH]; simpl; [by destruct (keep key)|].
  destruct (String.eqb k key) eqn:Heq.
  - apply String.eqb_eq in Heq as ->. destruct (keep key) eqn:Hkeep; simpl.
    + by rewrite String.eqb_refl.
    + exact IH.
  - destruct (keep k); simpl; [by rewrite Heq|done].
Qed.

Lemma env_filter_elem (keep : string * option string -> bool) (env : Env) property :
  property ∈ List.filter keep env <-> property ∈ env /\ keep property = true.
Proof. by rewrite !list_elem_of_In, List.filter_In. Qed.

Lemma env_keys_filter (keep : string -> bool) (env : Env) key :
  key ∈ env_keys (List.filter (fun property => keep property.1) env)
  <-> key ∈ env_keys env /\ keep key = true.
Proof.
  rewrite !env_keys_elem. split.
  - intros [value [Hin Hkeep]%env_filter_elem]. split; [by exists value|done].
  - intros [[value Hin] Hkeep]. exists value. by apply env_filter_elem.
Qed.

Lemma env_keys_filter_NoDup (keep : string * option string -> bool) (env : Env) :
  NoDup (env_keys env) -> NoDup (env_keys (List.filter keep env)).
Proof.
  induction env as [|[k v] env IH]; [done|]. simpl.
  intros [Hk Hrest]%NoDup_cons. destruct (keep (k, v)); simpl; [|by apply IH].
  apply NoDup_cons. split; [|by apply IH].
  intros [value [Hin _]%env_filter_elem]%env_keys_elem.
  apply Hk, env_keys_elem. by exists value.
Qed.

Lemma env_get_set (env : Env) key value key' :
  env_get (env_set env key value) key'
  = if String.eqb key key' then value else env_get env key'.
Proof.
  induction env as [|[k v] env IH]; simpl; [done|].
  destruct (String.eqb k key) eqn:Hk; simpl.
  - apply String.eqb_eq in Hk as ->. by destruct (String.eqb key key').
  - destruct (String.eqb k key') eqn:Hk'; [|done].
    apply String.eqb_eq in Hk' as ->. by rewrite String.eqb_sym, Hk.
Qed.

Lemma env_keys_set (env : Env) key value :
  env_keys (env_set env key value)
  = if bool_decide (key ∈ env_keys env) then env_keys env else (env_keys env ++ [key])%list.
Proof.
  unfold env_keys. induction env as [|[k v] env IH]; simpl; [done|].
  destruct (String.eqb k key) eqn:Hk; simpl.
  - apply String.eqb_eq in Hk as ->. by rewrite bool_decide_eq_true_2 by left.
  - apply String.eqb_neq in Hk. rewrite IH.
    case_bool_decide as Hin.
    + by rewrite bool_decide_eq_true_2 by by right.
    + rewrite bool_decide_eq_false_2; [done|].
      intros [?|?]%elem_of_cons; [by destruct Hk|done].
Qed.

Lemma setupScriptEnvironment_filter `{matcher : Micromatch} configuration env :
  setupScriptEnvironment configuration env
  = match envWhitelist configuration with
    | Some envWhitelist =>
        List.filter
          (fun property =>
             bool_decide
               (property.1 ∈ micromatch
                  (env_keys (if onlyLocalCommands configuration
                             then env_set env "PATH" (env_get env "BERRY_BIN_FOLDER")
                             else env))
                  (whitelist_patterns envWhitelist)))
          (if onlyLocalCommands configuration
           then env_set env "PATH" (env_get env "BERRY_BIN_FOLDER")
           else env)
    | None =>
        if onlyLocalCommands configuration
        then env_set env "PATH" (env_get env "BERRY_BIN_FOLDER")
        else env
    end.
Proof.
  unfold setupScriptEnvironment.
  destruct (envWhitelist configuration) as [names|]; [|done].
  cbv zeta. rewrite env_delete_all. apply List.filter_ext. intros [k v].
  apply bool_decide_ext, jsset_of_elem.
Qed.

(** X21. [setupScriptEnvironment] with a list of allowed names keeps
    exactly the variables whose names [micromatch] returns, in their
    order and with their values, after [PATH] was set from
    [BERRY_BIN_FOLDER] when only local commands are allowed; with [null]
    for the list it removes nothing.  The patterns are the names of the
    list and [PATH], [BERRY_BIN_FOLDER] and [NODE_OPTIONS], each once; an
    empty list is still a list, and leaves these three. *)
Theorem setupScriptEnvironment_filters `{matcher : Micromatch}
    (configuration : PortableShell) (env : Env) :
  setupScriptEnvironment configuration env
  = match envWhitelist configuration with
    | Some envWhitelist =>
        List.filter
          (fun property =>
             bool_decide
               (property.1 ∈ micromatch
                  (env_keys (if onlyLocalCommands configuration
                             then env_set env "PATH" (env_get env "BERRY_BIN_FOLDER")
                             else env))
                  (whitelist_patterns envWhitelist)))
          (if onlyLocalCommands configuration
           then env_set env "PATH" (env_get env "BERRY_BIN_FOLDER")
           else env)
    | None =>
        if onlyLocalCommands configuration
        then env_set env "PATH" (env_get env "BERRY_BIN_FOLDER")
        else env
    end
  /\ (forall envWhitelist,
        NoDup (whitelist_patterns envWhitelist)
        /\ forall name,
             name ∈ whitelist_patterns envWhitelist
             <-> name ∈ envWhitelist
                 \/ name ∈ ["PATH"; "BERRY_BIN_FOLDER"; "NODE_OPTIONS"])
  /\ whitelist_patterns [] = ["PATH"; "BERRY_BIN_FOLDER"; "NODE_OPTIONS"].
Proof.
  split; [apply setupScriptEnvironment_filter|]. split; [|reflexivity].
  intros names. unfold whitelist_patterns. split.
  - do 3 apply jsset_add_NoDup. apply jsset_fold_NoDup. constructor.
  - intros name. rewrite !jsset_add_elem, jsset_of_elem, !elem_of_cons.
    cbn [app]. split.
    + intros [[[?|?]|?]|?]; tauto.
    + intros [?|[?|[?|[?|?%elem_of_nil]]]]; tauto.
Qed.

Lemma env_filter_keeps (keep : string -> bool) (env : Env) key :
  key ∈ env_keys (List.filter (fun property => keep property.1) env) ->
  key ∈ env_keys env
  /\ env_get (List.filter (fun property => keep property.1) env) key = env_get env key.
Proof.
  intros [Hin Hkeep]%env_keys_filter. split; [done|].
  by rewrite env_get_filter, Hkeep.
Qed.

Lemma env_path_keeps (onlyLocalCommands : bool) (env : Env) key :
  key ∈ env_keys (if onlyLocalCommands
                  then env_set env "PATH" (env_get env "BERRY_BIN_FOLDER")
                  else env) ->
  (key <> "PATH" ->
   key ∈ env_keys env
   /\ env_get (if onlyLocalCommands
               then env_set env "PATH" (env_get env "BERRY_BIN_FOLDER")
               else env) key
      = env_get env key)
  /\ (key = "PATH" ->
      env_get (if onlyLocalCommands
               then env_set env "PATH" (env_get env "BERRY_BIN_FOLDER")
               else env) key
      = if onlyLocalCommands then env_get env "BERRY_BIN_FOLDER" else env_get env "PATH")
  /\ (NoDup (env_keys env) ->
      NoDup (env_keys (if onlyLocalCommands
                       then env_set env "PATH" (env_get env "BERRY_BIN_FOLDER")
                       else env))).
Proof.
  destruct onlyLocalCommands; [|by intros; repeat split; try intros ->].
  rewrite env_keys_set, env_get_set. intros Hin. split; [|split].
  - intros Hother. destruct (String.eqb "PATH" key) eqn:Heq.
    { apply String.eqb_eq in Heq. by destruct Hother. }
    split; [|done]. case_bool_decide; [done|].
    apply elem_of_app in Hin as [?|?%list_elem_of_singleton]; done.
  - intros ->. by rewrite String.eqb_refl.
  - intros Hdistinct. case_bool_decide as Hpath; [done|].
    apply NoDup_app. split; [done|]. split; [|apply NoDup_singleton].
    by intros k Hk ->%list_elem_of_singleton.
Qed.

(** X22. [setupScriptEnvironment] adds no variable but [PATH] and changes
    no value but that of [PATH]: a variable that is there after the call,
    other than [PATH], was there before with the same value; [PATH], when
    it is there after the call, has the value of [BERRY_BIN_FOLDER] when
    only local commands are allowed, and its own value otherwise.  The
    names stay distinct. *)
Theorem setupScriptEnvironment_keeps_values `{matcher : Micromatch}
    (configuration : PortableShell) (env : Env) (key : string) :
  key ∈ env_keys (setupScriptEnvironment configuration env) ->
  (key <> "PATH" ->
   key ∈ env_keys env
   /\ env_get (setupScriptEnvironment configuration env) key = env_get env key)
  /\ (key = "PATH" ->
      env_get (setupScriptEnvironment configuration env) key
      = if onlyLocalCommands configuration
        then env_get env "BERRY_BIN_FOLDER"
        else env_get env "PATH")
  /\ (NoDup (env_keys env) ->
      NoDup (env_keys (setupScriptEnvironment configuration env))).
Proof.
  rewrite setupScriptEnvironment_filter. intros Hkey.
  destruct (envWhitelist configuration) as [names|]; [|by apply env_path_keeps].
  destruct (env_filter_keeps
              (fun k => bool_decide (k ∈ micromatch _ (whitelist_patterns names)))
              _ _ Hkey) as [Hin Hget].
  rewrite Hget.
  destruct (env_path_keeps _ _ _ Hin) as (Hother & Hpath & Hdistinct).
  split; [done|]. split; [done|].
  intros Hnodup. by apply env_keys_filter_NoDup, Hdistinct.
Qed.

(** * The further properties on the samples *)

Lemma dependency_type_enumerates_witness :
  existsb (String.eqb "constraints") (modules Sample.unlinked) = true
  /\ solve (host := Sample.sample_host) (∅ : gmap nat Project) Sample.unlinked 5
       (term "dependency_type" [Var "T"])
     = ([ {[ "T" := Term "dependencies" [] ]}; {[ "T" := Term "devDependencies" [] ]};
          {[ "T" := Term "peerDependencies" [] ]} ],
        Exhausted).
Proof.
  assert (H : existsb (String.eqb "constraints") (modules Sample.unlinked) = true)
    by reflexivity.
  split; [exact H|].
  exact (proj1 (dependency_type_enumerates (host := Sample.sample_host)
                  (∅ : gmap nat Project) Sample.unlinked 0 H) "T").
Defined.

Lemma workspace_membership_witness :
  linked_to Sample.linked.1 Sample.linked.2 Sample.project
  /\ solve (host := Sample.sample_host) Sample.linked.1 Sample.linked.2 3
       (term "workspace" [Term "packages/a" []])
     = ([∅], Exhausted).
Proof.
  assert (H : linked_to Sample.linked.1 Sample.linked.2 Sample.project)
    by (split; reflexivity).
  split; [exact H|].
  exact (proj1 (workspace_membership (host := Sample.sample_host) _ _ _ 0 H) "packages/a").
Defined.

Lemma workspace_ident_of_path_witness :
  linked_to Sample.linked.1 Sample.linked.2 Sample.project
  /\ solve (host := Sample.sample_host) Sample.linked.1 Sample.linked.2 4
       (term "workspace_ident" [Term "packages/a" []; Var "Y"])
     = ([ {[ "Y" := Term "pkg" [] ]} ], Exhausted).
Proof.
  assert (H : linked_to Sample.linked.1 Sample.linked.2 Sample.project)
    by (split; reflexivity).
  split; [exact H|].
  pose proof (workspace_ident_of_path (host := Sample.sample_host) _ _ _ "packages/a" 0 H)
    as (_ & _ & Hfound).
  exact (proj1 (Hfound Sample.pkg_a eq_refl) "Y").
Defined.

Lemma workspace_ident_unbound_path_witness :
  linked_to Sample.linked.1 Sample.linked.2 Sample.project
  /\ solve (host := Sample.sample_host) Sample.linked.1 Sample.linked.2 2
       (term "workspace_ident" [Var "X"; Term "foo" [Var "Z"]])
     = ([], Raised (instantiation ("workspace_ident", 2))).
Proof.
  assert (H : linked_to Sample.linked.1 Sample.linked.2 Sample.project)
    by (split; reflexivity).
  split; [exact H|].
  pose proof (workspace_ident_unbound_path (host := Sample.sample_host) _ _ _ "X" 0 H)
    as (_ & _ & Hbad).
  exact (Hbad (Term "foo" [Var "Z"]) eq_refl eq_refl).
Defined.

Lemma workspace_field_test_3_is_4_witness :
  existsb (String.eqb "constraints") (modules Sample.linked.2) = true
  /\ solve (host := Sample.sample_host) Sample.linked.1 Sample.linked.2 4
       (term "workspace_field_test" [Term "packages/a" []; Term "name" []; Term "true" []])
     = solve (host := Sample.sample_host) Sample.linked.1 Sample.linked.2 3
         (term "workspace_field_test"
            [Term "packages/a" []; Term "name" []; Term "true" []; term "[]" []]).
Proof.
  assert (H : existsb (String.eqb "constraints") (modules Sample.linked.2) = true)
    by reflexivity.
  split; [exact H|].
  exact (workspace_field_test_3_is_4 (host := Sample.sample_host) Sample.linked.1
           Sample.linked.2 (Term "packages/a" []) (Term "name" []) (Term "true" []) 3 H).
Defined.

Lemma workspace_field_test_guard_witness :
  existsb (String.eqb "constraints") (modules Sample.unlinked) = true
  /\ isAtom (Var "P") = false
  /\ solve (host := Sample.sample_host) (∅ : gmap nat Project) Sample.unlinked 2
       (term "workspace_field_test" [Var "P"; Term "name" []; Term "true" []; term "[]" []])
     = ([], Raised (instantiation ("workspace_field_test", 4))).
Proof.
  assert (H : existsb (String.eqb "constraints") (modules Sample.unlinked) = true)
    by reflexivity.
  assert (Hp : isAtom (Var "P") = false) by reflexivity.
  split; [exact H|]. split; [exact Hp|].
  exact (workspace_field_test_guard (host := Sample.sample_host) (∅ : gmap nat Project)
           Sample.unlinked (Var "P") (Term "name" []) (Term "true" []) (term "[]" []) 0
           H (or_introl Hp)).
Defined.

Lemma workspace_has_dependency_lookup_witness :
  linked_to Sample.linked.1 Sample.linked.2 Sample.project
  /\ tryWorkspaceByCwd Sample.project "packages/a" = Some Sample.pkg_a
  /\ "dependencies" ∈ dependency_types
  /\ manifest_index (manifest Sample.pkg_a) "dependencies"
     = Partition (dependencies (manifest Sample.pkg_a))
  /\ solve (host := Sample.sample_host) Sample.linked.1 Sample.linked.2 7
       (term "workspace_has_dependency"
          [Term "packages/a" []; Term "b" []; Var "R"; Term "dependencies" []])
     = ([ {[ "R" := Term "^2.0.0" [] ]} ], Exhausted).
Proof.
  assert (H : linked_to Sample.linked.1 Sample.linked.2 Sample.project)
    by (split; reflexivity).
  assert (Hw : tryWorkspaceByCwd Sample.project "packages/a" = Some Sample.pkg_a)
    by reflexivity.
  assert (Hty : "dependencies" ∈ dependency_types) by left.
  assert (Hdeclared : manifest_index (manifest Sample.pkg_a) "dependencies"
                      = Partition (dependencies (manifest Sample.pkg_a))) by reflexivity.
  split; [exact H|]. split; [exact Hw|]. split; [exact Hty|]. split; [exact Hdeclared|].
  exact (proj1 (workspace_has_dependency_lookup (host := Sample.sample_host)
                  _ _ _ _ _ _ _ 0 H Hw Hty Hdeclared)
           "b" (Sample.ident_of "b") _ "R" eq_refl eq_refl).
Defined.

Lemma workspace_has_dependency_by_type_witness :
  linked_to Sample.linked.1 Sample.linked.2 Sample.project
  /\ tryWorkspaceByCwd Sample.project "packages/a" = Some Sample.pkg_a
  /\ "I" <> "R" /\ "T" <> "I" /\ "T" <> "R"
  /\ solve (host := Sample.sample_host) Sample.linked.1 Sample.linked.2
       (4 + (1 + 3 * declared_count Sample.pkg_a) * 3 + 0)
       (term "workspace_has_dependency" [Term "packages/a" []; Var "I"; Var "R"; Var "T"])
     = ([ <[ "I" := Term "a" [] ]>
            (<[ "R" := Term "^1.0.0" [] ]> (<[ "T" := Term "dependencies" [] ]> ∅));
          <[ "I" := Term "b" [] ]>
            (<[ "R" := Term "^2.0.0" [] ]> (<[ "T" := Term "dependencies" [] ]> ∅)) ],
        Exhausted).
Proof.
  assert (H : linked_to Sample.linked.1 Sample.linked.2 Sample.project)
    by (split; reflexivity).
  assert (Hw : tryWorkspaceByCwd Sample.project "packages/a" = Some Sample.pkg_a)
    by reflexivity.
  assert (Hir : "I" <> "R") by discriminate.
  assert (Hti : "T" <> "I") by discriminate.
  assert (Htr : "T" <> "R") by discriminate.
  split; [exact H|]. split; [exact Hw|].
  split; [exact Hir|]. split; [exact Hti|]. split; [exact Htr|].
  exact (workspace_has_dependency_by_type (host := Sample.sample_host)
           _ _ _ _ _ "I" "R" "T" 0 H Hw Hir Hti Htr).
Defined.

Lemma workspace_has_dependency_enumerates_all_witness :
  linked_to Sample.linked.1 Sample.linked.2 Sample.project
  /\ paths_consistent Sample.project
  /\ "I" <> "R" /\ "T" <> "I" /\ "T" <> "R" /\ "W" <> "I" /\ "W" <> "R" /\ "W" <> "T"
  /\ solve (host := Sample.sample_host) Sample.linked.1 Sample.linked.2
       ((2 + (1 + 3 * declared_total Sample.project) * 3) * length (workspaces Sample.project)
        + 3 + 0)
       (term "workspace_has_dependency" [Var "W"; Var "I"; Var "R"; Var "T"])
     = ([ <[ "W" := Term "packages/a" [] ]>
            (<[ "I" := Term "a" [] ]>
               (<[ "R" := Term "^1.0.0" [] ]> (<[ "T" := Term "dependencies" [] ]> ∅)));
          <[ "W" := Term "packages/a" [] ]>
            (<[ "I" := Term "b" [] ]>
               (<[ "R" := Term "^2.0.0" [] ]> (<[ "T" := Term "dependencies" [] ]> ∅)));
          <[ "W" := Term "packages/b" [] ]>
            (<[ "I" := Term "a" [] ]>
               (<[ "R" := Term "^1.1.0" [] ]> (<[ "T" := Term "dependencies" [] ]> ∅))) ],
        Exhausted).
Proof.
  assert (H : linked_to Sample.linked.1 Sample.linked.2 Sample.project)
    by (split; reflexivity).
  assert (Hir : "I" <> "R") by discriminate.
  assert (Hti : "T" <> "I") by discriminate.
  assert (Htr : "T" <> "R") by discriminate.
  assert (Hwi : "W" <> "I") by discriminate.
  assert (Hwr : "W" <> "R") by discriminate.
  assert (Hwt : "W" <> "T") by discriminate.
  split; [exact H|]. split; [exact sample_paths_consistent|].
  split; [exact Hir|]. split; [exact Hti|]. split; [exact Htr|].
  split; [exact Hwi|]. split; [exact Hwr|]. split; [exact Hwt|].
  exact (workspace_has_dependency_enumerates_all (host := Sample.sample_host)
           _ _ _ "W" "I" "R" "T" 0 H sample_paths_consistent Hir Hti Htr Hwi Hwr Hwt).
Defined.

Lemma prependGoals_branches_witness :
  let thread := mkThread Sample.session0 [mkState (Some (term "c" [])) ∅] in
  let point := mkState (Some (term "a" [])) ∅ in
  goal point = Some (term "a" [])
  /\ session (prependGoals thread point [term "b" []; term "d" []]) = session thread.
Proof.
  intros thread point.
  assert (H : goal point = Some (term "a" [])) by reflexivity.
  split; [exact H|].
  exact (proj1 (prependGoals_branches thread point (term "a" [])
                  [term "b" []; term "d" []] H)).
Defined.

#[local] Existing Instance StageSample.sample_fslib.
#[local] Existing Instance StageSample.sample_matcher.

Lemma findVcsRoot_returns_witness :
  ancestor (fslib := StageSample.sample_fslib) 3 "/repo/packages/a" = "/"
  /\ exists result,
       (forall fuel,
          findVcsRoot (fslib := StageSample.sample_fslib) (S 2 + fuel) "/repo/packages/a" ".git"
          = Some result)
       /\ ("/repo/packages/a" <> "/" -> result <> Some "/").
Proof.
  assert (H : ancestor (fslib := StageSample.sample_fslib) 3 "/repo/packages/a" = "/")
    by reflexivity.
  split; [exact H|].
  exact (findVcsRoot_returns (fslib := StageSample.sample_fslib) 2 "/repo/packages/a" ".git" H).
Defined.

Lemma isYarnFile_returns_witness :
  ancestor (fslib := StageSample.sample_fslib) 2 "/repo/README.md" = "/"
  /\ exists result,
       (forall fuel,
          isYarnFile (fslib := StageSample.sample_fslib) (S 1 + fuel) "/repo/README.md"
            {[ "/" ]} {[ "package.json" ]}
          = Some result)
       /\ ("/repo/README.md" <> "/" ->
           ppath_basename (Fslib := StageSample.sample_fslib) "/repo/README.md"
             ∉ ({[ "package.json" ]} : gset string) ->
           (forall root, root ∈ ({[ "/" ]} : gset string) -> root = "/") ->
           result = false).
Proof.
  assert (H : ancestor (fslib := StageSample.sample_fslib) 2 "/repo/README.md" = "/")
    by reflexivity.
  split; [exact H|].
  exact (isYarnFile_returns (fslib := StageSample.sample_fslib) 1 "/repo/README.md"
           {[ "/" ]} {[ "package.json" ]} H).
Defined.

Lemma expandDirectory_files_witness :
  expandDirectory (fslib := StageSample.sample_fslib) 5 "/repo"
  = Some (Ok ["/repo/README.md"; "/repo/packages/a/package.json"])
  /\ forall path,
       path ∈ ["/repo/README.md"; "/repo/packages/a/package.json"]
       <-> file_below (fslib := StageSample.sample_fslib) "/repo" path.
Proof.
  assert (H : expandDirectory (fslib := StageSample.sample_fslib) 5 "/repo"
              = Some (Ok ["/repo/README.md"; "/repo/packages/a/package.json"]))
    by reflexivity.
  split; [exact H|].
  exact (expandDirectory_files (fslib := StageSample.sample_fslib) 5 "/repo" _ H).
Defined.

Lemma expandDirectory_order_witness :
  xfs_readdirSync (Fslib := StageSample.sample_fslib) "/repo/packages/a" = Ok ["package.json"]
  /\ Forall (fun entry => exists isDirectory,
               xfs_lstatSync_isDirectory (Fslib := StageSample.sample_fslib)
                 (ppath_resolve "/repo/packages/a" entry) = Ok isDirectory)
            ["package.json"]
  /\ expandDirectory (fslib := StageSample.sample_fslib) 2 "/repo/packages/a"
     = Some (Ok ["/repo/packages/a/package.json"]).
Proof.
  assert (H : xfs_readdirSync (Fslib := StageSample.sample_fslib) "/repo/packages/a"
              = Ok ["package.json"]) by reflexivity.
  assert (Hstats : Forall (fun entry => exists isDirectory,
                             xfs_lstatSync_isDirectory (Fslib := StageSample.sample_fslib)
                               (ppath_resolve "/repo/packages/a" entry) = Ok isDirectory)
                          ["package.json"]).
  { constructor; [|constructor]. exists false. reflexivity. }
  assert (Hfiles : Forall (fun entry =>
                             xfs_lstatSync_isDirectory (Fslib := StageSample.sample_fslib)
                               (ppath_resolve "/repo/packages/a" entry) = Ok false)
                          ["package.json"]).
  { constructor; [|constructor]. reflexivity. }
  split; [exact H|]. split; [exact Hstats|].
  exact (proj2 (expandDirectory_order (fslib := StageSample.sample_fslib) 0
                  "/repo/packages/a" ["package.json"] [] [] H Hstats) Hfiles).
Defined.

Lemma expandDirectory_throws_witness :
  xfs_readdirSync (Fslib := StageSample.sample_fslib) "/repo/README.md"
  = Throw (Error "ENOTDIR: not a directory")
  /\ expandDirectory_loop (fslib := StageSample.sample_fslib) 1
       ["/repo/README.md"; "/repo"] ["/repo/packages/a/package.json"]
     = Some (Throw (Error "ENOTDIR: not a directory")).
Proof.
  assert (H : xfs_readdirSync (Fslib := StageSample.sample_fslib) "/repo/README.md"
              = Throw (Error "ENOTDIR: not a directory")) by reflexivity.
  split; [exact H|].
  exact (proj1 (expandDirectory_throws (fslib := StageSample.sample_fslib) 0
                  "/repo/README.md" ["/repo"] ["/repo/packages/a/package.json"]
                  (Error "ENOTDIR: not a directory") (or_introl H))).
Defined.

Lemma setupScriptEnvironment_keeps_values_witness :
  "PATH" ∈ env_keys (setupScriptEnvironment (matcher := StageSample.sample_matcher)
                       StageSample.settings StageSample.env)
  /\ env_get (setupScriptEnvironment (matcher := StageSample.sample_matcher)
                StageSample.settings StageSample.env) "PATH"
     = Some "/tmp/bin".
Proof.
  assert (H : "PATH" ∈ env_keys (setupScriptEnvironment
                                   (matcher := StageSample.sample_matcher)
                                   StageSample.settings StageSample.env)).
  { apply (env_keys_elem _ "PATH"). exists (Some "/tmp/bin"). vm_compute.
    repeat constructor. }
  split; [exact H|].
  exact (proj1 (proj2 (setupScriptEnvironment_keeps_values
                         (matcher := StageSample.sample_matcher)
                         StageSample.settings StageSample.env "PATH" H)) eq_refl).
Defined.
